(** * cast_control: the device-state adapter ([cast_control/device/wrapper.py])

    A shallow embedding of the adapter that sits between a cast device and
    the desktop media-control protocol, and the properties its description
    states about it.

    Conventions of the embedding.
    - The device is external and changes on its own: every operation takes
      the snapshot of the device it reads ([Device]) next to the adapter's
      own mutable fields ([DeviceWrapper]) and returns the new fields.
    - Python exceptions are values of [result].
    - Commands sent to the device are collected in a trace ([list Command]).
    - Python [str] is [string]; the text handled here (URIs, host names) is
      ASCII, and [casefold] is modelled on ASCII.
    - Playback times are Python floats that are only tested against zero,
      scaled and rounded; they are modelled by the rational number they
      denote ([Q]).  The volume path converts a decimal to a float, and
      there the float is a binary64 value ([spec_float]). *)

From Stdlib Require Import ZArith QArith Bool List Ascii String Lia.
From Stdlib Require Import Floats.SpecFloat.
Import ListNotations.

Local Open Scope Z_scope.

(** ** Exceptions *)

Inductive exn : Type :=
| AttributeError
| KeyError
| ValueError
| DecimalOverflow
| DecimalInvalidOperation.

Inductive result (A : Type) : Type :=
| Ok (a : A)
| Raise (e : exn).

Arguments Ok {A} a.
Arguments Raise {A} e.

Definition bind {A B : Type} (r : result A) (k : A -> result B) : result B :=
  match r with
  | Ok a => k a
  | Raise e => Raise e
  end.

Notation "x <- c ;; k" := (bind c (fun x => k))
  (at level 61, c at next level, right associativity).

(** ** Python numbers *)

(** Truth value of an [int]. *)
Definition truthy_int (n : Z) : bool := negb (n =? 0).

(** Truth value of a [float]. *)
Definition truthy_float (x : Q) : bool := negb (Qnum x =? 0).

(** [round(x)] of a float: the nearest integer, ties to the even one. *)
Definition py_round (x : Q) : Z :=
  let n := Qnum x in
  let d := Z.pos (Qden x) in
  let f := (2 * n + d) / (2 * d) in
  if ((2 * n + d) mod (2 * d) =? 0) && Z.odd f then f - 1 else f.

(** [round(x, ndigits)] for [ndigits >= 0]: the nearest multiple of
    [10 ** -ndigits]. *)
Definition py_round_digits (x : Q) (ndigits : Z) : Q :=
  let scale := 10 ^ ndigits in
  Qmake (py_round (x * inject_Z scale)) (Z.to_pos scale).

Definition Qgtb (x y : Q) : bool := negb (Qle_bool x y).

(** ** Constants *)

(** Modelled from the spec: [US_IN_SEC] of [cast_control/base.py], which is
    not among the sources; the description gives the factor 1,000,000. *)
Definition US_IN_SEC : Z := 1000000.

(** Modelled from the spec: [NO_DURATION] of [cast_control/base.py]; the
    description gives 0 for an unknown duration, as does
    [chromecast_mpris/base.py]. *)
Definition NO_DURATION : Z := 0.

(** Modelled from the spec: [NO_DELTA] of [cast_control/base.py]; zero, as in
    [chromecast_mpris/base.py]. *)
Definition NO_DELTA : Z := 0.

(** [BEGINNING] of [mpris_server]: position zero. *)
Definition BEGINNING : Z := 0.

Definition RESOLUTION : Z := 1.
Definition MAX_TITLES : nat := 3.

(** ** Device snapshot *)

(** One entry of [MediaStatus.images]: [(url, height, width)]. *)
Record MediaImage : Type := {
  image_url : option string;
  image_height : option Z;
  image_width : option Z
}.

Record MediaStatus : Type := {
  duration : option Z;
  current_time : Q;
  adjusted_current_time : option Q;
  series_title : option string;
  artist : option string;
  album_name : option string;
  media_metadata : list (string * string);
  images : list MediaImage;
  content_id : option string;
  track : option Z
}.

Record CastStatus : Type := {
  icon_url : option string;
  volume_level : spec_float;
  volume_muted : bool
}.

(** What the adapter can read from [self.dev] at the time of a call. *)
Record Device : Type := {
  dev_status : option CastStatus;
  dev_media_status : option MediaStatus;
  dev_media_title : option string;
  dev_app_id : option string;
  dev_app_display_name : option string;
  dev_yt_is_active : bool
}.

(** ** Adapter state *)

Record CachedIcon : Type := {
  url : string;
  app_id : option string;
  title : option string
}.

Record DeviceWrapper : Type := {
  cached_icon : option CachedIcon;
  light_icon : bool;
  _longest_duration : option Z
}.

Definition set_longest_duration (v : option Z) (w : DeviceWrapper) : DeviceWrapper :=
  {| cached_icon := cached_icon w;
     light_icon := light_icon w;
     _longest_duration := v |}.

Definition set_cached_icon (v : option CachedIcon) (w : DeviceWrapper)
  : DeviceWrapper :=
  {| cached_icon := v;
     light_icon := light_icon w;
     _longest_duration := _longest_duration w |}.

(** ** StatusMixin *)

Definition cast_status (dev : Device) : option CastStatus := dev_status dev.

Definition media_status (dev : Device) : option MediaStatus := dev_media_status dev.

(** ** TimeMixin *)

(** [status.adjusted_current_time or status.current_time] *)
Definition get_current_time (dev : Device) : option Q :=
  match media_status dev with
  | None => None
  | Some status =>
      match adjusted_current_time status with
      | Some t => if truthy_float t then Some t else Some (current_time status)
      | None => Some (current_time status)
      end
  end.

(** [round(position_secs * US_IN_SEC)].  The product is the exact one of the
    rational [position_secs]; Python rounds it to a float before [round],
    which can move the result by one microsecond.  Statements below speak of
    the position through this function. *)
Definition get_current_position (dev : Device) : Z :=
  match get_current_time dev with
  | None => BEGINNING
  | Some position_secs =>
      if truthy_float position_secs
      then py_round (position_secs * inject_Z US_IN_SEC)
      else BEGINNING
  end.

Definition get_duration (dev : Device) (w : DeviceWrapper) : Z * DeviceWrapper :=
  let duration :=
    match media_status dev with
    | Some status => duration status
    | None => None
    end in
  match duration with
  | Some d => (d * US_IN_SEC, w)
  | None =>
      let current := get_current_position dev in
      match _longest_duration w with
      | Some longest =>
          if truthy_int longest && (longest >? current) then (longest, w)
          else if truthy_int current
               then (current, set_longest_duration (Some current) w)
          else (NO_DURATION, w)
      | None =>
          if truthy_int current then (current, set_longest_duration (Some current) w)
          else (NO_DURATION, w)
      end
  end.

Definition has_current_time (dev : Device) : bool :=
  match get_current_time dev with
  | None => false
  | Some current_time =>
      Qgtb (py_round_digits current_time RESOLUTION) (inject_Z BEGINNING)
  end.

Definition on_new_status (dev : Device) (w : DeviceWrapper) : DeviceWrapper :=
  if has_current_time dev then w else set_longest_duration None w.

(** The adapter as [__init__] leaves it. *)
Definition new_wrapper (light : bool) : DeviceWrapper :=
  {| cached_icon := None; light_icon := light; _longest_duration := Some NO_DURATION |}.

(** ** Python strings *)

Local Open Scope string_scope.

Fixpoint smap (f : ascii -> ascii) (s : string) : string :=
  match s with
  | EmptyString => EmptyString
  | String c r => String (f c) (smap f r)
  end.

Fixpoint sfilter (p : ascii -> bool) (s : string) : string :=
  match s with
  | EmptyString => EmptyString
  | String c r => if p c then String c (sfilter p r) else sfilter p r
  end.

Fixpoint sexists (p : ascii -> bool) (s : string) : bool :=
  match s with
  | EmptyString => false
  | String c r => p c || sexists p r
  end.

Fixpoint sforall (p : ascii -> bool) (s : string) : bool :=
  match s with
  | EmptyString => true
  | String c r => p c && sforall p r
  end.

Definition code (c : ascii) : N := N_of_ascii c.

Definition in_range (lo hi : N) (c : ascii) : bool :=
  ((lo <=? code c) && (code c <=? hi))%N.

Definition is_upper : ascii -> bool := in_range 65 90.
Definition is_lower : ascii -> bool := in_range 97 122.
Definition is_digit : ascii -> bool := in_range 48 57.
Definition is_alpha (c : ascii) : bool := is_upper c || is_lower c.

Definition lower_char (c : ascii) : ascii :=
  if is_upper c then ascii_of_N (code c + 32) else c.

(** [s.lower()] and [s.casefold()] on ASCII text: only the letters [A] to
    [Z] are folded.  On text with other letters the two differ from Python's
    and from each other; statements about names of devices therefore ask for
    ASCII names ([is_ascii] below). *)
Definition lower : string -> string := smap lower_char.
Definition casefold : string -> string := smap lower_char.

(** The text holds ASCII characters only. *)
Definition is_ascii_char (c : ascii) : bool := (code c <? 128)%N.
Definition is_ascii : string -> bool := sforall is_ascii_char.

(** Truth value of a [str]. *)
Definition truthy_str (s : string) : bool := negb (s =? "").

(** [sub in s] *)
Fixpoint contains (sub s : string) : bool :=
  prefix sub s ||
  match s with
  | EmptyString => false
  | String _ r => contains sub r
  end.

(** [s.startswith(p)] *)
Definition startswith (s p : string) : bool := prefix p s.

(** [s.lstrip(chars)], [chars] given as a predicate. *)
Fixpoint lstrip (chars : ascii -> bool) (s : string) : string :=
  match s with
  | EmptyString => EmptyString
  | String c r => if chars c then lstrip chars r else s
  end.

(** [s[1:]] *)
Definition skip_first (s : string) : string :=
  match s with
  | EmptyString => EmptyString
  | String _ r => r
  end.

(** Cuts [s] before the first character that satisfies [p]:
    [(s[:i], s[i:])] for the least such index [i], [(s, "")] when there is
    none. *)
Fixpoint break (p : ascii -> bool) (s : string) : string * string :=
  match s with
  | EmptyString => (EmptyString, EmptyString)
  | String c r =>
      if p c then (EmptyString, s)
      else let (a, b) := break p r in (String c a, b)
  end.

Definition is_char (c : ascii) : ascii -> bool := Ascii.eqb c.

(** [s.split(sep)] for a one-character separator. *)
Fixpoint split_all (sep : ascii) (s : string) : list string :=
  match s with
  | EmptyString => [EmptyString]
  | String c r =>
      if Ascii.eqb c sep then EmptyString :: split_all sep r
      else match split_all sep r with
           | [] => [String c EmptyString]
           | w :: ws => String c w :: ws
           end
  end.

(** [s.replace(a, b)] for single characters. *)
Definition replace_char (a b : ascii) : string -> string :=
  smap (fun c => if Ascii.eqb c a then b else c).

(** Cuts [s] after its last ["/"]: [(s[:j+1], s[j+1:])] for [j = s.rfind("/")],
    [("", s)] when there is none. *)
Fixpoint rsplit_slash (s : string) : string * string :=
  match s with
  | EmptyString => (EmptyString, EmptyString)
  | String c r =>
      let (h, t) := rsplit_slash r in
      match h with
      | EmptyString =>
          if Ascii.eqb c "/" then (String c EmptyString, t)
          else (EmptyString, String c t)
      | _ => (String c h, t)
      end
  end.

(** ** [urllib.parse] *)

Record ParseResult : Type := {
  scheme : string;
  netloc : string;
  path : string;
  params : string;
  query : string;
  fragment : string
}.

(** [_WHATWG_C0_CONTROL_OR_SPACE] *)
Definition is_c0_or_space : ascii -> bool := in_range 0 32.

(** [_UNSAFE_URL_BYTES_TO_REMOVE]: tab, carriage return, line feed. *)
Definition is_unsafe_url_byte (c : ascii) : bool :=
  ((code c =? 9) || (code c =? 13) || (code c =? 10))%N.

(** [scheme_chars] *)
Definition is_scheme_char (c : ascii) : bool :=
  is_alpha c || is_digit c || is_char "+" c || is_char "-" c || is_char "." c.

Definition uses_params : list string :=
  [""; "ftp"; "hdl"; "prospero"; "http"; "imap"; "https"; "shttp"; "rtsp";
   "rtspu"; "sip"; "sips"; "mms"; "sftp"; "tel"].

Definition is_netloc_delim (c : ascii) : bool :=
  is_char "/" c || is_char "?" c || is_char "#" c.

(** The first part of [urlsplit]: the scheme, when the text before the first
    colon is one, and the text after it. *)
Definition split_scheme (url : string) : string * string :=
  match break (is_char ":") url with
  | (String c0 pre, String _ rest) =>
      if is_alpha c0 && sforall is_scheme_char (String c0 pre)
      then (lower (String c0 pre), rest)
      else (EmptyString, url)
  | _ => (EmptyString, url)
  end.

(** [_splitnetloc(url, 2)] when [url[:2] == "//"]. *)
Definition split_netloc (url : string) : string * string :=
  match url with
  | String c1 (String c2 r) =>
      if is_char "/" c1 && is_char "/" c2 then break is_netloc_delim r
      else (EmptyString, url)
  | _ => (EmptyString, url)
  end.

(** [url.split(sep, 1)] when [sep in url], [(url, "")] otherwise. *)
Definition split_once (sep : ascii) (url : string) : string * string :=
  match break (is_char sep) url with
  | (a, String _ b) => (a, b)
  | (a, EmptyString) => (a, EmptyString)
  end.

(** [_splitparams] *)
Definition splitparams (url : string) : string * string :=
  let (h, t) := rsplit_slash url in
  match break (is_char ";") t with
  | (a, String _ b) => (h ++ a, b)
  | (_, EmptyString) => (url, EmptyString)
  end.

(** [urlsplit] and [urlparse] without the checks of the host: always a
    result. *)
Definition urlparse_fields (url : string) : ParseResult :=
  let url := lstrip is_c0_or_space url in
  let url := sfilter (fun c => negb (is_unsafe_url_byte c)) url in
  let (scheme, url) := split_scheme url in
  let (netloc, url) := split_netloc url in
  let (url, fragment) := split_once "#" url in
  let (url, query) := split_once "?" url in
  let (url, params) :=
    if existsb (String.eqb scheme) uses_params && sexists (is_char ";") url
    then splitparams url
    else (url, EmptyString) in
  {| scheme := scheme; netloc := netloc; path := url; params := params;
     query := query; fragment := fragment |}.

(** The text between the first ["["] and the next ["]"]:
    [netloc.partition("[")[2].partition("]")[0]]. *)
Definition bracketed_host (netloc : string) : string :=
  fst (break (is_char "]") (skip_first (snd (break (is_char "[") netloc)))).

Section Urllib.

(** [_check_bracketed_host]: whether the text between brackets is an IPv6 or
    IPvFuture address.  A library check, left open. *)
Variable bracketed_host_ok : string -> bool.

(** The decoding of a text that contains percent escapes, in [unquote]. *)
Variable unquote_escapes : string -> string.

(** The checks of [urlsplit] on the host: "Invalid IPv6 URL". *)
Definition check_netloc (netloc : string) : bool :=
  let lb := sexists (is_char "[") netloc in
  let rb := sexists (is_char "]") netloc in
  if lb && rb then bracketed_host_ok (bracketed_host netloc)
  else negb (lb || rb).

Definition urlparse (url : string) : result ParseResult :=
  let r := urlparse_fields url in
  if check_netloc (netloc r) then Ok r else Raise ValueError.

Definition unquote (s : string) : string :=
  if sexists (is_char "%") s then unquote_escapes s else s.

(** [parse_qsl(qs)] with its defaults: blank values dropped, fields without
    ["="] skipped, separator ["&"]. *)
Definition parse_qsl (qs : string) : list (string * string) :=
  flat_map
    (fun name_value =>
       match break (is_char "=") name_value with
       | (name, String _ value) =>
           if truthy_str value
           then [(unquote (replace_char "+" " " name),
                  unquote (replace_char "+" " " value))]
           else []
       | (_, EmptyString) => []
       end)
    (split_all "&" qs).

(** A [dict] from names to lists of values, in insertion order. *)
Fixpoint dict_append (d : list (string * list string)) (k v : string)
  : list (string * list string) :=
  match d with
  | [] => [(k, [v])]
  | (k', vs) :: d' =>
      if k' =? k then (k', (vs ++ [v])%list) :: d' else (k', vs) :: dict_append d' k v
  end.

Fixpoint dict_get (d : list (string * list string)) (k : string)
  : option (list string) :=
  match d with
  | [] => None
  | (k', vs) :: d' => if k' =? k then Some vs else dict_get d' k
  end.

Definition parse_qs (qs : string) : list (string * list string) :=
  fold_left (fun d nv => dict_append d (fst nv) (snd nv)) (parse_qsl qs) [].

End Urllib.

(** ** [decimal.Decimal] and [float] *)

Local Open Scope Z_scope.

(** A decimal: [coefficient * 10 ^ exponent], an infinity or a quiet NaN.
    The sign of a zero and signalling NaNs are left out. *)
Inductive Decimal : Type :=
| Dec (coefficient exponent : Z)
| DecInfinity (negative : bool)
| DecNaN.

(** The default context of the [decimal] module. *)
Definition dec_prec : Z := 28.
Definition dec_Emax : Z := 999999.
Definition dec_Emin : Z := -999999.
Definition dec_Etiny : Z := dec_Emin - dec_prec + 1.
Definition dec_Etop : Z := dec_Emax - dec_prec + 1.

Fixpoint digits10_fuel (fuel : nat) (n : Z) : Z :=
  match fuel with
  | O => 0
  | S fuel' => if n <? 10 then 1 else 1 + digits10_fuel fuel' (n / 10)
  end.

(** Number of decimal digits of a positive integer. *)
Definition digits10 (n : Z) : Z := digits10_fuel (S (Z.to_nat (Z.log2 n))) n.

(** [n / d] rounded to the nearest integer, ties to even, for [0 <= n], [0 < d]. *)
Definition div_half_even (n d : Z) : Z :=
  let q := n / d in
  let r := n mod d in
  match 2 * r ?= d with
  | Lt => q
  | Gt => q + 1
  | Eq => if Z.even q then q else q + 1
  end.

(** [Decimal._fix]: the rounding of a finite result to the context. *)
Definition dec_fix (c e : Z) : result Decimal :=
  if c =? 0 then Ok (Dec 0 (Z.min (Z.max e dec_Etiny) dec_Emax))
  else
    let m := Z.abs c in
    let exp_min := digits10 m + e - dec_prec in
    if exp_min >? dec_Etop then Raise DecimalOverflow
    else
      let exp_min := Z.max exp_min dec_Etiny in
      if e <? exp_min then
        let m' := div_half_even m (10 ^ (exp_min - e)) in
        if digits10 m' >? dec_prec then
          if exp_min + 1 >? dec_Etop then Raise DecimalOverflow
          else Ok (Dec (Z.sgn c * (m' / 10)) (exp_min + 1))
        else Ok (Dec (Z.sgn c * m') exp_min)
      else Ok (Dec c e).

(** The exact difference of two finite decimals, at the smaller exponent. *)
Definition dec_exact_sub (c1 e1 c2 e2 : Z) : Z * Z :=
  let e := Z.min e1 e2 in
  (c1 * 10 ^ (e1 - e) - c2 * 10 ^ (e2 - e), e).

(** [a - b] in the default context: the exact difference, rounded. *)
Definition dec_sub (a b : Decimal) : result Decimal :=
  match a, b with
  | DecNaN, _ | _, DecNaN => Ok DecNaN
  | DecInfinity s1, DecInfinity s2 =>
      if Bool.eqb s1 s2 then Raise DecimalInvalidOperation else Ok (DecInfinity s1)
  | DecInfinity s1, Dec _ _ => Ok (DecInfinity s1)
  | Dec _ _, DecInfinity s2 => Ok (DecInfinity (negb s2))
  | Dec c1 e1, Dec c2 e2 =>
      let (c, e) := dec_exact_sub c1 e1 c2 e2 in dec_fix c e
  end.

(** [Decimal(f)] for a float [f]: exact. *)
Definition Decimal_of_float (f : spec_float) : Decimal :=
  match f with
  | S754_zero _ => Dec 0 0
  | S754_infinity s => DecInfinity s
  | S754_nan => DecNaN
  | S754_finite s m e =>
      let c := cond_Zopp s (Z.pos m) in
      if 0 <=? e then Dec (c * 2 ^ e) 0 else Dec (c * 5 ^ (- e)) e
  end.

Definition float_prec : Z := 53.
Definition float_emax : Z := 1024.

(** [float(d)]: the binary64 value nearest to [d], ties to even. *)
Definition float_of_Decimal (d : Decimal) : spec_float :=
  match d with
  | DecNaN => S754_nan
  | DecInfinity s => S754_infinity s
  | Dec c e =>
      if 0 <=? e then binary_normalize float_prec float_emax (c * 10 ^ e) 0 false
      else
        match c with
        | Z0 => S754_zero false
        | _ =>
            let '(q, e', l) :=
              SFdiv_core_binary float_prec float_emax (Z.abs c) 0 (10 ^ (- e)) 0 in
            binary_round_aux float_prec float_emax (c <? 0) q e' l
        end
  end.

Definition float_zero : spec_float := S754_zero false.

(** ** Commands sent to the device and its controllers *)

Inductive Command : Type :=
| YtLaunch
| YtPlayVideo (video_id : string)
| YtAddToQueue (video_id : string)
| PlayMedia (uri : string) (mimetype : option string)
| VolumeUp (delta : spec_float)
| VolumeDown (delta : spec_float).

(** ** Adapter state with exceptions *)

(** A method that reads and writes the adapter's fields and may raise; the
    fields written before the exception stay written. *)
Definition M (A : Type) : Type := DeviceWrapper -> result A * DeviceWrapper.

Definition ret {A : Type} (a : A) : M A := fun w => (Ok a, w).

Definition raise {A : Type} (e : exn) : M A := fun w => (Raise e, w).

Definition mbind {A B : Type} (m : M A) (k : A -> M B) : M B :=
  fun w =>
    match m w with
    | (Ok a, w') => k a w'
    | (Raise e, w') => (Raise e, w')
    end.

Notation "x <~ c ;; k" := (mbind c (fun x => k))
  (at level 61, c at next level, right associativity).

(** ** YoutubeUrl *)

Local Open Scope string_scope.

Module YoutubeUrl.

Inductive t : Type := long | short | watch.

Definition value (u : t) : string :=
  match u with
  | long => "youtube.com"
  | short => "youtu.be"
  | watch => "https://" ++ "youtube.com" ++ "/watch?v="
  end.

(** Iteration over the enumeration, in definition order. *)
Definition members : list t := [long; short; watch].

Definition get_url (content_id : option string) : option string :=
  match content_id with
  | None => None
  | Some c => if truthy_str c then Some (value watch ++ c) else None
  end.

End YoutubeUrl.

Definition VIDEO_QS : string := "v".

(** Truth value of an optional [str]. *)
Definition truthy_opt (o : option string) : bool :=
  match o with
  | Some s => truthy_str s
  | None => false
  end.

Record Titles : Type := {
  titles_title : option string;
  titles_artist : option string;
  titles_album : option string
}.

Record MetadataObj : Type := {
  md_track_id : string;
  md_length : Z;
  md_art_url : string;
  md_url : option string;
  md_title : option string;
  md_artists : list string;
  md_album : option string;
  md_album_artists : list string;
  md_disc_number : Z;
  md_track_number : option Z;
  md_comments : list string
}.

(** ** The adapter's methods *)

Section Wrapper.

(** Library functions that are left open: the check of a bracketed host
    and the decoding of percent escapes in [urllib.parse],
    [mimetypes.guess_type] (its first component) and
    [mpris_server.get_track_id], which may raise. *)
Variable bracketed_host_ok : string -> bool.
Variable unquote_escapes : string -> string.
Variable guess_type : string -> option string.
Variable get_track_id : option string -> result string.

(** Constants of modules that are not among the sources: [TITLE] of
    [cast_control], [LIGHT_THUMB], [DEFAULT_THUMB] (as text) and
    [DEFAULT_DISC_NO] of [cast_control/base.py]. *)
Variable TITLE : string.
Variable LIGHT_THUMB : string.
Variable DEFAULT_THUMB : string.
Variable DEFAULT_DISC_NO : Z.

(** *** Content identifier *)

Definition is_youtube (uri : string) : result bool :=
  let uri := casefold uri in
  parsed <- urlparse bracketed_host_ok uri ;;
  Ok (existsb (fun url => contains (YoutubeUrl.value url) (netloc parsed))
              YoutubeUrl.members).

(** The class method [YoutubeUrl.is_youtube]. *)
Definition YoutubeUrl_is_youtube (uri : option string) : result bool :=
  match uri with
  | None => Ok false
  | Some u => if truthy_str u then is_youtube u else Ok false
  end.

Definition get_content_id (uri : string) : result (option string) :=
  yt <- YoutubeUrl_is_youtube (Some uri) ;;
  if negb yt then Ok None
  else
    parsed <- urlparse bracketed_host_ok uri ;;
    if netloc parsed =? YoutubeUrl.value YoutubeUrl.long then
      let qs := parse_qs unquote_escapes (query parsed) in
      match dict_get qs VIDEO_QS with
      | None => Raise KeyError
      | Some [content_id] => Ok (Some content_id)
      | Some _ => Raise ValueError
      end
    else if netloc parsed =? YoutubeUrl.value YoutubeUrl.short then
      Ok (Some (skip_first (path parsed)))
    else Ok None.

(** *** ControllersMixin *)

Definition _launch_youtube : list Command := [YtLaunch].

Definition _play_youtube (dev : Device) (video_id : string) : list Command :=
  ((if negb (dev_yt_is_active dev) then _launch_youtube else [])
     ++ [YtPlayVideo video_id])%list.

Definition _is_youtube_vid (dev : Device) (content_id : option string) : bool :=
  match content_id with
  | None => false
  | Some c =>
      if negb (truthy_str c) || negb (dev_yt_is_active dev) then false
      else negb (startswith c "http")
  end.

Definition _get_url (dev : Device) : option string :=
  let content_id :=
    match media_status dev with
    | Some status => content_id status
    | None => None
    end in
  if _is_youtube_vid dev content_id then YoutubeUrl.get_url content_id
  else content_id.

Definition open_uri (dev : Device) (uri : string) : result (list Command) :=
  video_id <- get_content_id uri ;;
  match video_id with
  | Some v =>
      if truthy_str v then Ok (_play_youtube dev v)
      else Ok [PlayMedia uri (guess_type uri)]
  | None => Ok [PlayMedia uri (guess_type uri)]
  end.

Definition add_track (dev : Device) (uri : string) (after_track : string)
    (set_as_current : bool) : result (list Command) :=
  video_id <- get_content_id uri ;;
  let queued :=
    match video_id with
    | Some v => if truthy_str v then [YtAddToQueue v] else []
    | None => []
    end in
  match video_id with
  | Some v =>
      if truthy_str v && set_as_current then Ok (queued ++ [YtPlayVideo v])%list
      else if set_as_current then
        opened <- open_uri dev uri ;; Ok (queued ++ opened)%list
      else Ok queued
  | None =>
      if set_as_current then
        opened <- open_uri dev uri ;; Ok (queued ++ opened)%list
      else Ok queued
  end.

(** *** TitlesMixin *)

Fixpoint dict_lookup (d : list (string * string)) (k : string) : option string :=
  match d with
  | [] => None
  | (k', v) :: d' => if k' =? k then Some v else dict_lookup d' k
  end.

Definition get_subtitle (dev : Device) : option string :=
  match media_status dev with
  | None => None
  | Some status =>
      match media_metadata status with
      | [] => None
      | metadata =>
          match dict_lookup metadata "subtitle" with
          | Some subtitle => if truthy_str subtitle then Some subtitle else None
          | None => None
          end
      end
  end.

(** [if x := value: titles.append(x)] *)
Definition append_if (value : option string) (titles : list string) : list string :=
  match value with
  | Some x => if truthy_str x then (titles ++ [x])%list else titles
  | None => titles
  end.

(** The list built by [titles] before it is packed. *)
Definition titles_list (dev : Device) : list string :=
  let titles := [] in
  let titles := append_if (dev_media_title dev) titles in
  let status := media_status dev in
  let titles :=
    match status with
    | Some st => append_if (series_title st) titles
    | None => titles
    end in
  let titles := append_if (get_subtitle dev) titles in
  let titles :=
    match status with
    | Some st => append_if (album_name st) (append_if (artist st) titles)
    | None => titles
    end in
  let titles := append_if (dev_app_display_name dev) titles in
  let titles :=
    match titles with
    | [] => [TITLE]
    | _ => titles
    end in
  firstn MAX_TITLES titles.

(** [Titles( *titles )]: missing fields default to [None]. *)
Definition titles (dev : Device) : Titles :=
  let l := titles_list dev in
  {| titles_title := nth_error l 0;
     titles_artist := nth_error l 1;
     titles_album := nth_error l 2 |}.

(** *** IconsMixin *)

Definition _set_cached_icon (dev : Device) (url : option string) : M unit :=
  fun w =>
    if truthy_opt url then
      match url with
      | Some u =>
          let app_id := dev_app_id dev in
          let title := titles_title (titles dev) in
          (Ok tt, set_cached_icon
                    (Some {| url := u; app_id := app_id; title := title |}) w)
      | None => (Ok tt, set_cached_icon None w)
      end
    else (Ok tt, set_cached_icon None w).

Definition option_eqb (a b : option string) : bool :=
  match a, b with
  | Some x, Some y => x =? y
  | None, None => true
  | _, _ => false
  end.

Definition _can_use_cache (dev : Device) (w : DeviceWrapper) : bool :=
  match cached_icon w with
  | None => false
  | Some icon =>
      if negb (truthy_str (url icon)) then false
      else
        let app_id' := dev_app_id dev in
        let title' := titles_title (titles dev) in
        option_eqb (app_id icon) app_id' && option_eqb (title icon) title'
  end.

Definition _get_icon_from_device (dev : Device) : M (option string) :=
  match media_status dev with
  | None => raise AttributeError
  | Some status =>
      match images status with
      | first :: _ =>
          let url := image_url first in
          _ <~ _set_cached_icon dev url ;;
          ret url
      | [] =>
          let app_icon :=
            match cast_status dev with
            | Some cs => if truthy_opt (icon_url cs) then icon_url cs else None
            | None => None
            end in
          match app_icon with
          | Some url =>
              _ <~ _set_cached_icon dev (Some url) ;;
              ret (Some url)
          | None =>
              fun w =>
                if negb (_can_use_cache dev w) then (Ok None, w)
                else
                  match cached_icon w with
                  | Some icon => (Ok (Some (url icon)), w)
                  | None => (Raise AttributeError, w)
                  end
          end
      end
  end.

(** The decorator [ensure_user_dirs_exist], which prepares the directories of
    the desktop integration, is left out. *)
Definition _get_default_icon (w : DeviceWrapper) : string :=
  if light_icon w then LIGHT_THUMB else DEFAULT_THUMB.

Definition get_art_url (dev : Device) : M string :=
  icon <~ _get_icon_from_device dev ;;
  if truthy_opt icon then
    match icon with
    | Some i => ret i
    | None => fun w => (Ok (_get_default_icon w), w)
    end
  else fun w => (Ok (_get_default_icon w), w).

Definition set_icon (lighter : bool) (w : DeviceWrapper) : DeviceWrapper :=
  {| cached_icon := cached_icon w;
     light_icon := lighter;
     _longest_duration := _longest_duration w |}.

(** *** MetadataMixin *)

Definition metadata (dev : Device) : M MetadataObj :=
  let t := titles dev in
  dbus_name <~ (fun w => (get_track_id (titles_title t), w)) ;;
  let artists :=
    match titles_artist t with
    | Some a => if truthy_str a then [a] else []
    | None => []
    end in
  let comments := [] in
  let track_no :=
    match media_status dev with
    | Some status => track status
    | None => None
    end in
  length <~ (fun w => let (d, w') := get_duration dev w in (Ok d, w')) ;;
  art_url <~ get_art_url dev ;;
  ret {| md_track_id := dbus_name;
         md_length := length;
         md_art_url := art_url;
         md_url := _get_url dev;
         md_title := titles_title t;
         md_artists := artists;
         md_album := titles_album t;
         md_album_artists := artists;
         md_disc_number := DEFAULT_DISC_NO;
         md_track_number := track_no;
         md_comments := comments |}.

(** *** VolumeMixin *)

Definition get_volume (dev : Device) : option Decimal :=
  match cast_status dev with
  | None => None
  | Some cs => Some (Decimal_of_float (volume_level cs))
  end.

Definition set_volume (dev : Device) (val : Decimal) : result (list Command) :=
  match get_volume dev with
  | None => Ok []
  | Some curr =>
      d <- dec_sub val curr ;;
      let delta := float_of_Decimal d in
      if SFltb float_zero delta then Ok [VolumeUp delta]
      else if SFltb delta float_zero then Ok [VolumeDown (SFabs delta)]
      else Ok []
  end.

End Wrapper.

(** ** Vocabulary of the description *)

Local Open Scope Z_scope.

(** The duration the device reports, if any. *)
Definition reported_duration (dev : Device) : option Z :=
  match media_status dev with
  | Some status => duration status
  | None => None
  end.

(** A position in seconds, in microseconds. *)
Definition microseconds (p : Q) : Z := py_round (p * inject_Z 1000000).

(** The estimator as the description words it: the longest-observed value
    when it is set and exceeds the current position; else the current
    position, stored as the new longest, when it is nonzero; else 0. *)
Definition estimated_duration (dev : Device) (w : DeviceWrapper) : Z * DeviceWrapper :=
  let current := get_current_position dev in
  let longest_exceeds :=
    match _longest_duration w with
    | Some longest => negb (longest =? 0) && (current <? longest)
    | None => false
    end in
  if longest_exceeds then
    (match _longest_duration w with Some longest => longest | None => 0 end, w)
  else if current =? 0 then (0, w)
  else (current, set_longest_duration (Some current) w).

(** [get_duration] as the description words it: the reported duration when
    it is nonzero, the estimator when it is zero or absent. *)
Definition described_get_duration (dev : Device) (w : DeviceWrapper)
  : Z * DeviceWrapper :=
  match reported_duration dev with
  | Some d => if d =? 0 then estimated_duration dev w else (d * 1000000, w)
  | None => estimated_duration dev w
  end.

(** The longest-observed value is unknown: as [__init__] or a reset leave it. *)
Definition longest_unset (w : DeviceWrapper) : Prop :=
  _longest_duration w = None \/ _longest_duration w = Some 0.

(** The longest-observed value is unknown or at most [z]. *)
Definition longest_at_most (z : Z) (w : DeviceWrapper) : Prop :=
  forall l, _longest_duration w = Some l -> l = 0 \/ l <= z.

Definition longest_value (w : DeviceWrapper) : Z :=
  match _longest_duration w with
  | Some l => l
  | None => 0
  end.

(** The current position cannot be determined: no status, or a position that
    rounds to 0 at one decimal. *)
Definition position_undetermined (dev : Device) : Prop :=
  get_current_time dev = None \/
  exists p, get_current_time dev = Some p /\ (py_round_digits p 1 == 0)%Q.

(** A query of the duration, after the status notification when there was
    one. *)
Definition observe (notified : bool) (dev : Device) (w : DeviceWrapper)
  : Z * DeviceWrapper :=
  get_duration dev (if notified then on_new_status dev w else w).

(** The network location of a URI: the [netloc] that [urlparse] finds, as it
    is written, with the user information and the port when there are any. *)
Definition host (uri : string) : string := netloc (urlparse_fields uri).

(** [s.rpartition(c)[2]]: the text after the last [c], all of [s] when it
    holds none. *)
Fixpoint after_last (c : ascii) (s : string) : string :=
  match s with
  | EmptyString => EmptyString
  | String a r =>
      if sexists (is_char c) r then after_last c r
      else if is_char c a then r else s
  end.

(** [ParseResult.hostname] of [urllib.parse], from the [netloc]: the text
    after the user information and before the port, or between brackets,
    in lower case up to a zone identifier; [None] when it is empty. *)
Definition hostname_of_netloc (netloc : string) : option string :=
  let hostinfo := after_last "@" netloc in
  let (_, rest) := break (is_char "[") hostinfo in
  let hostname :=
    match rest with
    | String _ bracketed => fst (break (is_char "]") bracketed)
    | EmptyString => fst (break (is_char ":") hostinfo)
    end in
  match hostname with
  | EmptyString => None
  | _ => let (name, zone) := break (is_char "%") hostname in
         Some (lower name ++ zone)%string
  end.

(** The host name of a URI, as the description speaks of it. *)
Definition hostname (uri : string) : option string :=
  hostname_of_netloc (netloc (urlparse_fields uri)).

(** [urlparse] accepts the URI, as it is given and case-folded: the two
    texts that [get_content_id] and [is_youtube] parse. *)
Definition urlparse_accepts (bracketed_host_ok : string -> bool) (uri : string)
  : bool :=
  check_netloc bracketed_host_ok (netloc (urlparse_fields uri)) &&
  check_netloc bracketed_host_ok (casefold (netloc (urlparse_fields uri))).

(** The host is, up to case, one of the two service domains. *)
Definition host_is_service_domain (uri : string) : bool :=
  String.eqb (casefold (host uri)) (YoutubeUrl.value YoutubeUrl.long) ||
  String.eqb (casefold (host uri)) (YoutubeUrl.value YoutubeUrl.short).

(** The list a dictionary holds for a key, empty when it has none. *)
Definition get_list (d : list (string * list string)) (k : string) : list string :=
  match dict_get d k with
  | Some l => l
  | None => []
  end.

(** The values a query string gives to a name, in order. *)
Definition values_of (k : string) (pairs : list (string * string)) : list string :=
  map snd (filter (fun nv => String.eqb (fst nv) k) pairs).

(** The values of the query of a URI for a name. *)
Definition query_values (unquote_escapes : string -> string) (uri k : string)
  : list string :=
  values_of k (parse_qsl unquote_escapes (query (urlparse_fields uri))).

(** [get_content_id] as the description words it: decided by the host name
    of the URI. *)
Definition described_get_content_id (unquote_escapes : string -> string)
    (uri : string) : result (option string) :=
  match hostname uri with
  | Some h =>
      if String.eqb h "youtube.com" then
        match query_values unquote_escapes uri "v" with
        | [] => Raise KeyError
        | [content_id] => Ok (Some content_id)
        | _ => Raise ValueError
        end
      else if String.eqb h "youtu.be" then
        Ok (Some (skip_first (path (urlparse_fields uri))))
      else Ok None
  | None => Ok None
  end.

(** A fragment that is present: a non-empty text. *)
Definition present (fragment : option string) : list string :=
  match fragment with
  | Some x => if String.eqb x "" then [] else [x]
  | None => []
  end.

Definition status_field (f : MediaStatus -> option string) (dev : Device)
  : option string :=
  match media_status dev with
  | Some status => f status
  | None => None
  end.

(** The title fragments in their priority order: media title, series title,
    embedded subtitle, artist, album, display name of the application. *)
Definition title_fragments (dev : Device) : list (option string) :=
  [dev_media_title dev;
   status_field series_title dev;
   status_field (fun status => dict_lookup (media_metadata status) "subtitle") dev;
   status_field artist dev;
   status_field album_name dev;
   dev_app_display_name dev].

(** The titles as the description words them: the present fragments in
    order, the product name when there is none, at most three. *)
Definition ranked_titles (TITLE : string) (dev : Device) : list string :=
  match flat_map present (title_fragments dev) with
  | [] => [TITLE]
  | l => firstn 3 l
  end.

(** The cached icon is valid: it has a URL, and its application id and title
    are the current ones. *)
Definition cache_valid (TITLE : string) (dev : Device) (w : DeviceWrapper) : Prop :=
  exists icon,
    cached_icon w = Some icon /\ url icon <> EmptyString /\
    app_id icon = dev_app_id dev /\
    title icon = titles_title (titles TITLE dev).

(** The icon of the running application, when the cast status has one. *)
Definition app_icon (dev : Device) : option string :=
  match cast_status dev with
  | Some cs => if truthy_opt (icon_url cs) then icon_url cs else None
  | None => None
  end.

(** The cache entry written for a fresh URL. *)
Definition fresh_icon (TITLE : string) (dev : Device) (u : string) : CachedIcon :=
  {| url := u; app_id := dev_app_id dev; title := titles_title (titles TITLE dev) |}.

(** The sign of a decimal: 1, 0 or -1; 0 for a NaN. *)
Definition dec_sign (d : Decimal) : Z :=
  match d with
  | Dec c _ => Z.sgn c
  | DecInfinity negative => if negative then -1 else 1
  | DecNaN => 0
  end.

(** The sign of the exact difference of two finite decimals. *)
Definition exact_delta_sign (c1 e1 c2 e2 : Z) : Z :=
  Z.sgn (fst (dec_exact_sub c1 e1 c2 e2)).

(** The rational a finite decimal denotes. *)
Definition Decimal_value (c e : Z) : Q :=
  if 0 <=? e then inject_Z (c * 10 ^ e) else Qmake c (Z.to_pos (10 ^ (- e))).

(** The rational a finite float denotes. *)
Definition float_value (s : bool) (m : positive) (e : Z) : Q :=
  if 0 <=? e then inject_Z (cond_Zopp s (Z.pos m) * 2 ^ e)
  else Qmake (cond_Zopp s (Z.pos m)) (Z.to_pos (2 ^ (- e))).

(** ** Sample states *)

(** Stand-ins for the constants that are not among the sources. *)
Definition sample_title : string := "Cast Control".
Definition sample_light_thumb : string := "icon-light.png".
Definition sample_default_thumb : string := "icon-dark.png".

(** Stand-ins for the library functions that are left open. *)
Definition any_bracketed_host : string -> bool := fun _ => true.
Definition no_escapes : string -> string := fun s => s.
Definition no_mimetype : string -> option string := fun _ => None.

Definition no_status : MediaStatus :=
  {| duration := None; current_time := 0; adjusted_current_time := None;
     series_title := None; artist := None; album_name := None;
     media_metadata := []; images := []; content_id := None; track := None |}.

Definition status_at (d : option Z) (t : Q) : MediaStatus :=
  {| duration := d; current_time := t; adjusted_current_time := None;
     series_title := None; artist := None; album_name := None;
     media_metadata := []; images := []; content_id := None; track := None |}.

Definition device_with (cs : option CastStatus) (ms : option MediaStatus) : Device :=
  {| dev_status := cs; dev_media_status := ms; dev_media_title := None;
     dev_app_id := None; dev_app_display_name := None; dev_yt_is_active := false |}.

Definition playing_at (d : option Z) (t : Q) : Device :=
  device_with None (Some (status_at d t)).

(** A device whose cast status reports the volume level [level]. *)
Definition at_volume (level : spec_float) : Device :=
  device_with
    (Some {| icon_url := None; volume_level := level; volume_muted := false |})
    None.

(** A media status whose only image has no URL, under an application that
    has an icon. *)
Definition image_without_url : Device :=
  {| dev_status :=
       Some {| icon_url := Some "https://app.example/icon.png";
               volume_level := S754_zero false; volume_muted := false |};
     dev_media_status :=
       Some {| duration := None; current_time := 0; adjusted_current_time := None;
               series_title := None; artist := None; album_name := None;
               media_metadata := [];
               images := [{| image_url := None; image_height := None;
                             image_width := None |}];
               content_id := None; track := None |};
     dev_media_title := Some "Song1"; dev_app_id := Some "A";
     dev_app_display_name := None; dev_yt_is_active := false |}.

(** A device that plays "Song1" under the application [app], with no image
    and no application icon. *)
Definition song1_under (app : string) : Device :=
  {| dev_status := None;
     dev_media_status := Some no_status;
     dev_media_title := Some "Song1"; dev_app_id := Some app;
     dev_app_display_name := None; dev_yt_is_active := false |}.

(** A device that plays "Song1" under the application "A", with no image but
    with an application icon. *)
Definition song1_with_app_icon : Device :=
  {| dev_status :=
       Some {| icon_url := Some "https://app.example/icon.png";
               volume_level := S754_zero false; volume_muted := false |};
     dev_media_status := Some no_status;
     dev_media_title := Some "Song1"; dev_app_id := Some "A";
     dev_app_display_name := None; dev_yt_is_active := false |}.

(** An adapter that cached the icon [u1] under application "A" and title
    "Song1". *)
Definition cached_u1 : DeviceWrapper :=
  {| cached_icon := Some {| url := "u1"; app_id := Some "A"; title := Some "Song1" |};
     light_icon := false; _longest_duration := Some 0 |}.

(** ** Device locator ([cast_control/device/device.py]) *)

(** A discovered device: its name and its parsed unique id. *)
Record Chromecast : Type := {
  cc_name : string;
  cc_uuid : Z
}.

(** The outcome of a lookup: the result or the exception, the number of
    discovery scans made so far, and the devices waited for, in order. *)
Record Lookup : Type := {
  found : result (option Chromecast);
  scans : nat;
  waited : list Chromecast
}.

Definition eqb_uuid (a b : Z) : bool := Z.eqb a b.

Section Locator.

(** [DEFAULT_NAME] of [cast_control/base.py], which is not among the sources. *)
Variable DEFAULT_NAME : string.

(** [uuid.UUID]: the parsed id, or [None] where it raises [ValueError]. *)
Variable UUID : string -> option Z.

(** [pychromecast.get_chromecasts]: what the n-th scan of the network finds. *)
Variable get_chromecasts : nat -> list Chromecast.

(** [pychromecast.get_chromecast_from_host], by host and friendly name. *)
Variable get_chromecast_from_host : string -> string -> option Chromecast.

Definition get_device_via_host (host : string) (name : option string) (n : nat)
  : Lookup :=
  let name := if truthy_opt name
              then match name with Some x => x | None => DEFAULT_NAME end
              else DEFAULT_NAME in
  match get_chromecast_from_host host name with
  | Some device => {| found := Ok (Some device); scans := n; waited := [device] |}
  | None => {| found := Ok None; scans := n; waited := [] |}
  end.

(** [get_devices]: one scan. *)
Definition get_devices (n : nat) : list Chromecast * nat :=
  (get_chromecasts n, S n).

Definition get_first (devices : list Chromecast) (n : nat) : Lookup :=
  match devices with
  | [] => {| found := Ok None; scans := n; waited := [] |}
  | first :: _ => {| found := Ok (Some first); scans := n; waited := [first] |}
  end.

(** The loop [for device in devices: if test(device): device.wait(); return
    device], ending in [return None]. *)
Fixpoint first_match (test : Chromecast -> bool) (devices : list Chromecast)
  : option Chromecast :=
  match devices with
  | [] => None
  | device :: rest => if test device then Some device else first_match test rest
  end.

Definition lookup_of (n : nat) (device : option Chromecast) : Lookup :=
  {| found := Ok device;
     scans := n;
     waited := match device with Some d => [d] | None => [] end |}.

Definition get_device_via_uuid (uuid : option string) (n : nat) : Lookup :=
  let (devices, n) := get_devices n in
  if negb (truthy_opt uuid) then get_first devices n
  else
    match uuid with
    | None => get_first devices n
    | Some u =>
        match UUID u with
        | None => {| found := Raise ValueError; scans := n; waited := [] |}
        | Some parsed =>
            lookup_of n (first_match (fun d => eqb_uuid (cc_uuid d) parsed) devices)
        end
    end.

Definition get_device (name : option string) (n : nat) : Lookup :=
  let (devices, n) := get_devices n in
  if negb (truthy_opt name) then get_first devices n
  else
    match name with
    | None => get_first devices n
    | Some x =>
        let name := casefold x in
        lookup_of n (first_match (fun d => String.eqb (casefold (cc_name d)) name)
                                 devices)
    end.

(** Truth value of an optional device. *)
Definition is_some (device : result (option Chromecast)) : bool :=
  match device with
  | Ok (Some _) => true
  | _ => false
  end.

Definition find_device (name host uuid : option string) (n : nat) : Lookup :=
  let l0 := {| found := Ok None; scans := n; waited := [] |} in
  let l1 :=
    if truthy_opt host
    then match host with
         | Some h => get_device_via_host h name n
         | None => l0
         end
    else l0 in
  let l2 :=
    if truthy_opt uuid && negb (is_some (found l1)) then
      let r := get_device_via_uuid uuid (scans l1) in
      {| found := found r; scans := scans r; waited := (waited l1 ++ waited r)%list |}
    else l1 in
  match found l2 with
  | Raise e => l2
  | Ok _ =>
      let l3 :=
        if truthy_opt name && negb (is_some (found l2)) then
          let r := get_device name (scans l2) in
          {| found := found r; scans := scans r;
             waited := (waited l2 ++ waited r)%list |}
        else l2 in
      let no_identifiers :=
        negb (truthy_opt host || truthy_opt name || truthy_opt uuid) in
      if no_identifiers then
        let r := get_device None (scans l3) in
        {| found := found r; scans := scans r;
           waited := (waited l3 ++ waited r)%list |}
      else l3
  end.

(** [get_chromecast] of [chromecast_mpris/base.py], the earlier locator. *)
Definition get_chromecast (name : option string) (n : nat) : Lookup :=
  let chromecasts := get_chromecasts n in
  let n := S n in
  if negb (truthy_opt name) then
    match chromecasts with
    | [] => {| found := Ok None; scans := n; waited := [] |}
    | chromecast :: _ =>
        {| found := Ok (Some chromecast); scans := n; waited := [chromecast] |}
    end
  else
    match name with
    | None => {| found := Ok None; scans := n; waited := [] |}
    | Some x =>
        let name := lower x in
        lookup_of n (first_match (fun c => String.eqb (lower (cc_name c)) name)
                                 chromecasts)
    end.

End Locator.

(** ** Vocabulary of the further properties *)

(** The characters a query value must not hold to come back from [parse_qs]
    as it is: the bytes [urlsplit] removes, the fragment and field
    separators, and the characters [parse_qsl] decodes. *)
Definition is_query_special (c : ascii) : bool :=
  is_unsafe_url_byte c || is_char "#" c || is_char "&" c || is_char "+" c ||
  is_char "%" c.

(** The characters a path must not hold to come back from [urlparse] as it
    is. *)
Definition is_path_special (c : ascii) : bool :=
  is_unsafe_url_byte c || is_char "#" c || is_char "?" c || is_char ";" c.

(** The device itself offers the artwork URL [u]: as the URL of the first
    image of the media status, or, with no image, as the icon of the running
    application. *)
Definition device_sourced (dev : Device) (u : string) : Prop :=
  (exists st first rest,
      media_status dev = Some st /\ images st = first :: rest /\
      image_url first = Some u /\ u <> EmptyString) \/
  (exists st, media_status dev = Some st /\ images st = [] /\ app_icon dev = Some u).

(** The device offers no artwork: a media status without images, and no
    application icon. *)
Definition nothing_sourced (dev : Device) : Prop :=
  exists st, media_status dev = Some st /\ images st = [] /\ app_icon dev = None.

(** The fields of the adapter that the duration estimator does not own. *)
Definition icon_fields (w : DeviceWrapper) : option CachedIcon * bool :=
  (cached_icon w, light_icon w).

(** The device answering at a host, when a host is given: what
    [find_device] tries first. *)
Definition device_at_host (DEFAULT_NAME : string)
    (get_chromecast_from_host : string -> string -> option Chromecast)
    (name host : option string) : option Chromecast :=
  match host with
  | Some h =>
      if truthy_str h
      then get_chromecast_from_host h
             (match name with
              | Some x => if truthy_str x then x else DEFAULT_NAME
              | None => DEFAULT_NAME
              end)
      else None
  | None => None
  end.

(** The devices a lookup waits for when it ends in [result]: the device
    returned, and no other. *)
Definition waited_for (result : result (option Chromecast)) : list Chromecast :=
  match result with
  | Ok (Some device) => [device]
  | _ => []
  end.

(** ** Sample states of the further properties *)

(** A device on which the YouTube application plays the video [c]. *)
Definition youtube_playing (c : string) : Device :=
  {| dev_status := None;
     dev_media_status :=
       Some {| duration := None; current_time := 0; adjusted_current_time := None;
               series_title := None; artist := None; album_name := None;
               media_metadata := []; images := []; content_id := Some c;
               track := None |};
     dev_media_title := None; dev_app_id := Some "YouTube";
     dev_app_display_name := Some "YouTube"; dev_yt_is_active := true |}.

Definition living_room : Chromecast := {| cc_name := "Living Room"; cc_uuid := 1 |}.
Definition kitchen : Chromecast := {| cc_name := "Kitchen"; cc_uuid := 2 |}.

(** A network on which every scan finds the same two devices. *)
Definition two_devices : nat -> list Chromecast := fun _ => [living_room; kitchen].

(** A network on which only the kitchen device answers at its host. *)
Definition kitchen_host : string -> string -> option Chromecast :=
  fun host _ => if String.eqb host "192.168.1.20" then Some kitchen else None.

(** An id parser that accepts the decimal digits "1" and "2" only. *)
Definition two_ids : string -> option Z :=
  fun s => if String.eqb s "1" then Some 1
           else if String.eqb s "2" then Some 2 else None.

(** * Properties *)

(** ** Rounding *)

Lemma py_round_spec (x : Q) :
  let n := Qnum x in
  let d := Z.pos (Qden x) in
  let r := py_round x in
  2 * d * r - d <= 2 * n <= 2 * d * r + d /\
  (2 * n = 2 * d * r - d -> Z.even r = true) /\
  (2 * n = 2 * d * r + d -> Z.even r = true).
Proof.
  cbv zeta. unfold py_round.
  set (n := Qnum x). set (d := Z.pos (Qden x)).
  assert (Hd : 0 < 2 * d) by (subst d; lia).
  pose proof (Z.div_mod (2 * n + d) (2 * d) ltac:(lia)) as Hdm.
  pose proof (Z.mod_pos_bound (2 * n + d) (2 * d) Hd) as Hb.
  set (f := (2 * n + d) / (2 * d)) in *.
  set (t := (2 * n + d) mod (2 * d)) in *.
  destruct (t =? 0) eqn:Ht; cbn [andb].
  - apply Z.eqb_eq in Ht.
    destruct (Z.odd f) eqn:Ho.
    + assert (He : Z.even (f - 1) = true).
      { rewrite Z.even_sub. rewrite <- Z.negb_odd, Ho. reflexivity. }
      split; [nia|]. split; intros _; exact He.
    + assert (He : Z.even f = true) by (rewrite <- Z.negb_odd, Ho; reflexivity).
      split; [nia|]. split; intros _; exact He.
  - apply Z.eqb_neq in Ht.
    split; [nia|]. split; intros; nia.
Qed.

Lemma py_round_mono (x y : Q) : (x <= y)%Q -> py_round x <= py_round y.
Proof.
  intros Hxy. unfold Qle in Hxy.
  pose proof (py_round_spec x) as Hx. pose proof (py_round_spec y) as Hy.
  cbv zeta in Hx, Hy.
  set (rx := py_round x) in *. set (ry := py_round y) in *.
  set (n1 := Qnum x) in *. set (d1 := Z.pos (Qden x)) in *.
  set (n2 := Qnum y) in *. set (d2 := Z.pos (Qden y)) in *.
  assert (Hd1 : 0 < d1) by (subst d1; lia).
  assert (Hd2 : 0 < d2) by (subst d2; lia).
  destruct Hx as [[Hx1 Hx2] [Hx3 Hx4]]. destruct Hy as [[Hy1 Hy2] [Hy3 Hy4]].
  destruct (Z_le_gt_dec rx ry) as [|Hgt]; [assumption|exfalso].
  assert (H1 : 2 * d1 * ry + d1 <= 2 * n1) by nia.
  assert (H2 : (2 * d1 * ry + d1) * d2 <= 2 * n1 * d2) by nia.
  assert (H3 : 2 * n2 * d1 <= (2 * d2 * ry + d2) * d1) by nia.
  assert (H4 : 2 * n2 = 2 * d2 * ry + d2) by nia.
  assert (H5 : 2 * n1 = 2 * d1 * ry + d1) by nia.
  assert (H6 : rx = ry + 1) by nia.
  assert (H7 : 2 * n1 = 2 * d1 * rx - d1) by nia.
  specialize (Hy4 H4). specialize (Hx3 H7).
  rewrite H6 in Hx3. rewrite Z.even_add in Hx3. rewrite Hy4 in Hx3. discriminate.
Qed.

Lemma py_round_zero (x : Q) : Qnum x = 0 -> py_round x = 0.
Proof.
  intros H. pose proof (py_round_spec x) as Hx. cbv zeta in Hx.
  rewrite H in Hx. destruct Hx as [Hx _].
  assert (0 < Z.pos (Qden x)) by lia. nia.
Qed.

Lemma py_round_nonneg (x : Q) : (0 <= x)%Q -> 0 <= py_round x.
Proof.
  intros H. apply py_round_mono in H.
  rewrite py_round_zero in H by reflexivity. exact H.
Qed.

Lemma microseconds_mono (p q : Q) : (p <= q)%Q -> microseconds p <= microseconds q.
Proof.
  intros H. apply py_round_mono. apply Qmult_le_compat_r; [exact H|].
  unfold Qle; simpl; lia.
Qed.

(** ** Time and duration *)

Lemma get_current_position_microseconds (dev : Device) (p : Q) :
  get_current_time dev = Some p -> get_current_position dev = microseconds p.
Proof.
  intros H. unfold get_current_position. rewrite H.
  unfold truthy_float, microseconds, US_IN_SEC, BEGINNING.
  destruct (Qnum p =? 0) eqn:E; simpl; [|reflexivity].
  apply Z.eqb_eq in E. symmetry. apply py_round_zero.
  simpl. rewrite E. reflexivity.
Qed.

Lemma get_duration_reported (dev : Device) (w : DeviceWrapper) (d : Z) :
  reported_duration dev = Some d -> get_duration dev w = (d * 1000000, w).
Proof.
  unfold reported_duration, get_duration. intros ->. reflexivity.
Qed.

Lemma get_duration_estimated (dev : Device) (w : DeviceWrapper) :
  reported_duration dev = None -> get_duration dev w = estimated_duration dev w.
Proof.
  unfold reported_duration, get_duration, estimated_duration. intros ->.
  unfold truthy_int, NO_DURATION.
  destruct (_longest_duration w) as [l|].
  - rewrite Z.gtb_ltb.
    destruct (negb (l =? 0) && (get_current_position dev <? l)); [reflexivity|].
    destruct (get_current_position dev =? 0); reflexivity.
  - destruct (get_current_position dev =? 0); reflexivity.
Qed.

(** C1, as amended.  When the media status reports a duration, zero
    included, [get_duration] returns it times 1,000,000 and leaves the
    longest-observed value alone; when the media status or its duration is
    absent, it returns the stored longest-observed value when that is set
    and exceeds the current position, else the current position, stored as
    the new longest, when that is nonzero, else 0. *)
Theorem get_duration_reported_else_estimated (dev : Device) (w : DeviceWrapper) :
  (forall d, reported_duration dev = Some d ->
             get_duration dev w = (d * 1000000, w)) /\
  (reported_duration dev = None ->
   get_duration dev w = estimated_duration dev w).
Proof.
  split.
  - intros d H. apply get_duration_reported; exact H.
  - apply get_duration_estimated.
Qed.

Lemma get_duration_reported_else_estimated_witness :
  get_duration (playing_at (Some 212) 5) (new_wrapper false)
    = (212000000, new_wrapper false) /\
  get_duration (playing_at None 5) (new_wrapper false)
    = (5000000, set_longest_duration (Some 5000000) (new_wrapper false)).
Proof.
  split.
  - apply (proj1 (get_duration_reported_else_estimated
                    (playing_at (Some 212) 5) (new_wrapper false)) 212).
    reflexivity.
  - rewrite (proj2 (get_duration_reported_else_estimated
                      (playing_at None 5) (new_wrapper false))); reflexivity.
Defined.

(** C1, as stated, fails: a media status that reports the duration 0 while
    the position is 5 s makes [get_duration] return 0, where the description
    has the estimator return the position, 5,000,000. *)
Lemma get_duration_zero_reported_not_estimated :
  reported_duration (playing_at (Some 0) 5) = Some 0 /\
  get_duration (playing_at (Some 0) 5) (new_wrapper false) = (0, new_wrapper false) /\
  described_get_duration (playing_at (Some 0) 5) (new_wrapper false)
    = (5000000, set_longest_duration (Some 5000000) (new_wrapper false)) /\
  get_duration (playing_at (Some 0) 5) (new_wrapper false)
    <> described_get_duration (playing_at (Some 0) 5) (new_wrapper false).
Proof.
  repeat split; try reflexivity. discriminate.
Qed.

(** The position is known, for [on_new_status], exactly when the current
    time is above a twentieth of a second: the times that [round] takes
    above 0 at one decimal. *)
Lemma has_current_time_iff (dev : Device) (p : Q) :
  get_current_time dev = Some p ->
  (has_current_time dev = true <-> (1 # 20 < p)%Q).
Proof.
  intros Ht. unfold has_current_time. rewrite Ht.
  unfold Qgtb, py_round_digits, RESOLUTION, BEGINNING.
  pose proof (py_round_spec (p * inject_Z (10 ^ 1))) as Hs. cbv zeta in Hs.
  assert (Hn : Qnum (p * inject_Z (10 ^ 1)) = Qnum p * 10) by reflexivity.
  assert (Hden : Z.pos (Qden (p * inject_Z (10 ^ 1))) = Z.pos (Qden p)).
  { simpl. rewrite Pos.mul_1_r. reflexivity. }
  rewrite Hn, Hden in Hs. destruct Hs as [[Hlo Hhi] [Heven _]].
  set (r := py_round (p * inject_Z (10 ^ 1))) in *.
  assert (Hd : 0 < Z.pos (Qden p)) by lia.
  assert (Hle : Qle_bool (r # Z.to_pos (10 ^ 1)) (inject_Z 0) = true <-> r <= 0).
  { rewrite Qle_bool_iff. unfold Qle. cbn [Qnum Qden inject_Z]. lia. }
  unfold Qlt. cbn [Qnum Qden].
  split.
  - intros H. apply negb_true_iff in H.
    assert (Hr : 1 <= r).
    { destruct (Z_lt_le_dec r 1) as [Hlt|]; [|assumption].
      assert (Hq : Qle_bool (r # Z.to_pos (10 ^ 1)) (inject_Z 0) = true)
        by (apply Hle; lia).
      congruence. }
    destruct (Z.eq_dec r 1) as [E|E].
    + destruct (Z.eq_dec (2 * (Qnum p * 10)) (2 * Z.pos (Qden p) * r - Z.pos (Qden p)))
        as [Htie|Hno].
      * specialize (Heven Htie). rewrite E in Heven. discriminate.
      * nia.
    + nia.
  - intros H. apply negb_true_iff. apply not_true_is_false.
    intros E. apply Hle in E. nia.
Qed.

Lemma on_new_status_longest (dev : Device) (w : DeviceWrapper) :
  _longest_duration (on_new_status dev w) = _longest_duration w \/
  _longest_duration (on_new_status dev w) = None.
Proof.
  unfold on_new_status. destruct (has_current_time dev); [left|right]; reflexivity.
Qed.

(** One query while the position [c] is at least the stored value: the
    answer is [c], and [c] is what stays stored unless it is zero. *)
Lemma get_duration_advancing (dev : Device) (w : DeviceWrapper) :
  reported_duration dev = None ->
  (forall l, _longest_duration w = Some l -> l = 0 \/ l <= get_current_position dev) ->
  fst (get_duration dev w) = get_current_position dev /\
  (_longest_duration (snd (get_duration dev w)) = Some (get_current_position dev) \/
   get_current_position dev = 0 /\ snd (get_duration dev w) = w).
Proof.
  intros Hd Hl. rewrite (get_duration_estimated _ _ Hd).
  unfold estimated_duration.
  destruct (_longest_duration w) as [l|] eqn:El.
  - destruct (Hl l eq_refl) as [-> | Hle].
    + simpl. destruct (get_current_position dev =? 0) eqn:E; simpl.
      * apply Z.eqb_eq in E. rewrite E. auto.
      * auto.
    + replace (get_current_position dev <? l) with false
        by (symmetry; apply Z.ltb_ge; exact Hle).
      rewrite andb_false_r.
      destruct (get_current_position dev =? 0) eqn:E; simpl.
      * apply Z.eqb_eq in E. rewrite E. auto.
      * auto.
  - simpl. destruct (get_current_position dev =? 0) eqn:E; simpl.
    + apply Z.eqb_eq in E. rewrite E. auto.
    + auto.
Qed.

Lemma observe_advancing (n : bool) (dev : Device) (w : DeviceWrapper) :
  reported_duration dev = None ->
  (forall l, _longest_duration w = Some l -> l = 0 \/ l <= get_current_position dev) ->
  fst (observe n dev w) = get_current_position dev /\
  (_longest_duration (snd (observe n dev w)) = Some (get_current_position dev) \/
   get_current_position dev = 0 /\
   (_longest_duration (snd (observe n dev w)) = _longest_duration w \/
    _longest_duration (snd (observe n dev w)) = None)).
Proof.
  intros Hd Hl. unfold observe.
  set (w0 := if n then on_new_status dev w else w).
  assert (Hw0 : _longest_duration w0 = _longest_duration w \/
                _longest_duration w0 = None).
  { subst w0. destruct n; [apply on_new_status_longest | left; reflexivity]. }
  assert (Hl0 : forall l, _longest_duration w0 = Some l ->
                          l = 0 \/ l <= get_current_position dev).
  { intros l E. destruct Hw0 as [H|H]; rewrite H in E; [auto | discriminate]. }
  destruct (get_duration_advancing dev w0 Hd Hl0) as [Hr Hs].
  split; [exact Hr|].
  destruct Hs as [Hs | [Hz Hs]]; [left; exact Hs | right].
  split; [exact Hz|]. rewrite Hs. exact Hw0.
Qed.

Lemma on_new_status_resets (dev : Device) (w : DeviceWrapper) :
  position_undetermined dev -> _longest_duration (on_new_status dev w) = None.
Proof.
  intros H. unfold on_new_status.
  replace (has_current_time dev) with false; [reflexivity|].
  symmetry. unfold has_current_time.
  destruct H as [-> | [p [-> Hp]]]; [reflexivity|].
  unfold Qgtb, RESOLUTION. apply negb_false_iff. apply Qle_bool_iff.
  rewrite Hp. unfold BEGINNING. apply Qle_refl.
Qed.

Lemma get_duration_after_reset (dev : Device) (w : DeviceWrapper) :
  _longest_duration w = None ->
  fst (get_duration dev w) =
    match reported_duration dev with
    | Some d => d * 1000000
    | None => get_current_position dev
    end.
Proof.
  intros Hw. destruct (reported_duration dev) as [d|] eqn:Hd.
  - rewrite (get_duration_reported _ _ _ Hd). reflexivity.
  - rewrite (get_duration_estimated _ _ Hd). unfold estimated_duration.
    rewrite Hw. simpl.
    destruct (get_current_position dev =? 0) eqn:E; simpl; [|reflexivity].
    apply Z.eqb_eq in E. symmetry; exact E.
Qed.

Lemma longest_unset_at_most (z : Z) (w : DeviceWrapper) :
  longest_unset w -> longest_at_most z w.
Proof.
  intros [H|H] l E; rewrite H in E; [discriminate|]. left. congruence.
Qed.

Lemma longest_value_after_observe (n : bool) (dev : Device) (w : DeviceWrapper) :
  reported_duration dev = None ->
  longest_at_most (get_current_position dev) w ->
  0 <= longest_value w ->
  longest_value (snd (observe n dev w)) = get_current_position dev.
Proof.
  intros Hd Hl Hv.
  destruct (observe_advancing n dev w Hd Hl) as [_ [S | [Z0 [S | S]]]];
    unfold longest_value in *; rewrite S; [reflexivity | | lia].
  destruct (_longest_duration w) as [l|] eqn:E; [|lia].
  destruct (Hl l E); lia.
Qed.

Lemma longest_at_most_after_observe (n : bool) (dev : Device) (w : DeviceWrapper)
    (z : Z) :
  reported_duration dev = None ->
  longest_at_most (get_current_position dev) w ->
  get_current_position dev <= z ->
  longest_at_most z (snd (observe n dev w)).
Proof.
  intros Hd Hl Hz l E.
  destruct (observe_advancing n dev w Hd Hl) as [_ [S | [Z0 [S | S]]]];
    rewrite S in E.
  - right. inversion E. lia.
  - destruct (Hl l E) as [H|H]; [left; exact H | right; lia].
  - discriminate.
Qed.

(** C2.  A status notification whose current time is known, above 0.05 s,
    leaves the adapter, and with it the stored longest-observed value, as it
    is.  While the device reports no duration and the time rises,
    [p1 < p2 < p3], from an adapter that has stored nothing above the first
    position (in particular a new or a reset one), each query of the
    duration, with or without the status notification before it, returns the
    largest position seen so far, the positions being those
    [get_current_position] computes in microseconds, and the stored
    longest-observed value does not decrease (time and stored value from 0
    on).  A status notification in which the position cannot be determined
    (no status, or a time that rounds to 0 at one decimal) resets the stored
    value to unknown, and the next query returns what the device then
    reports, whatever was stored before. *)
Theorem longest_duration_rises_and_resets :
  (forall (dev : Device) (w : DeviceWrapper) (p : Q),
      get_current_time dev = Some p -> (1 # 20 < p)%Q ->
      on_new_status dev w = w) /\
  (forall (w : DeviceWrapper) (d1 d2 d3 : Device) (p1 p2 p3 : Q) (n1 n2 n3 : bool),
      longest_at_most (get_current_position d1) w ->
      reported_duration d1 = None ->
      reported_duration d2 = None ->
      reported_duration d3 = None ->
      get_current_time d1 = Some p1 ->
      get_current_time d2 = Some p2 ->
      get_current_time d3 = Some p3 ->
      (p1 < p2)%Q -> (p2 < p3)%Q ->
      let o1 := observe n1 d1 w in
      let o2 := observe n2 d2 (snd o1) in
      let o3 := observe n3 d3 (snd o2) in
      fst o1 = get_current_position d1 /\
      fst o2 = Z.max (get_current_position d1) (get_current_position d2) /\
      fst o3 =
        Z.max (Z.max (get_current_position d1) (get_current_position d2))
              (get_current_position d3) /\
      ((0 <= p1)%Q -> 0 <= longest_value w ->
       longest_value w <= longest_value (snd o1) /\
       longest_value (snd o1) <= longest_value (snd o2) /\
       longest_value (snd o2) <= longest_value (snd o3) /\
       longest_value (snd o3) = get_current_position d3)) /\
  (forall (dev : Device) (w : DeviceWrapper),
      position_undetermined dev ->
      _longest_duration (on_new_status dev w) = None /\
      forall dev' : Device,
        fst (get_duration dev' (on_new_status dev w)) =
          match reported_duration dev' with
          | Some d => d * 1000000
          | None => get_current_position dev'
          end).
Proof.
  split; [|split].
  - intros dev w p Ht Hp. unfold on_new_status.
    rewrite (proj2 (has_current_time_iff dev p Ht) Hp). reflexivity.
  - intros w d1 d2 d3 p1 p2 p3 n1 n2 n3 Hw Hr1 Hr2 Hr3 Ht1 Ht2 Ht3 H12 H23 o1 o2 o3.
    pose proof (get_current_position_microseconds _ _ Ht1) as E1.
    pose proof (get_current_position_microseconds _ _ Ht2) as E2.
    pose proof (get_current_position_microseconds _ _ Ht3) as E3.
    pose proof (microseconds_mono _ _ (Qlt_le_weak _ _ H12)) as M12.
    pose proof (microseconds_mono _ _ (Qlt_le_weak _ _ H23)) as M23.
    rewrite <- E1, <- E2 in M12. rewrite <- E2, <- E3 in M23.
    destruct (observe_advancing n1 d1 w Hr1 Hw) as [R1 _]. fold o1 in R1.
    assert (I1 : longest_at_most (get_current_position d2) (snd o1)).
    { apply longest_at_most_after_observe; [exact Hr1 | exact Hw | lia]. }
    destruct (observe_advancing n2 d2 (snd o1) Hr2 I1) as [R2 _]. fold o2 in R2.
    assert (I2 : longest_at_most (get_current_position d3) (snd o2)).
    { apply longest_at_most_after_observe; [exact Hr2 | exact I1 | lia]. }
    destruct (observe_advancing n3 d3 (snd o2) Hr3 I2) as [R3 _]. fold o3 in R3.
    split; [congruence|]. split; [lia|]. split; [lia|].
    intros Hp1 Hv0.
    assert (P1 : 0 <= get_current_position d1).
    { rewrite E1. apply py_round_nonneg.
      apply Qmult_le_0_compat; [exact Hp1 | unfold Qle; simpl; lia]. }
    pose proof (longest_value_after_observe n1 d1 w Hr1 Hw Hv0) as V1. fold o1 in V1.
    assert (Hv1 : 0 <= longest_value (snd o1)) by lia.
    pose proof (longest_value_after_observe n2 d2 _ Hr2 I1 Hv1) as V2. fold o2 in V2.
    assert (Hv2 : 0 <= longest_value (snd o2)) by lia.
    pose proof (longest_value_after_observe n3 d3 _ Hr3 I2 Hv2) as V3. fold o3 in V3.
    assert (V0 : longest_value w <= get_current_position d1).
    { unfold longest_value in *.
      destruct (_longest_duration w) as [l|] eqn:E; [|lia].
      destruct (Hw l E); lia. }
    lia.
  - intros dev w H. split; [apply on_new_status_resets; exact H|].
    intros dev'. apply get_duration_after_reset.
    apply on_new_status_resets; exact H.
Qed.

Lemma longest_duration_rises_and_resets_witness :
  (let w := set_longest_duration (Some 99000000) (new_wrapper false) in
   on_new_status (playing_at None 10) w = w) /\
  (let w := new_wrapper false in
   let o1 := observe true (playing_at None 10) w in
   let o2 := observe true (playing_at None 20) (snd o1) in
   let o3 := observe true (playing_at None 30) (snd o2) in
   fst o1 = 10000000 /\ fst o2 = 20000000 /\ fst o3 = 30000000 /\
   longest_value (snd o3) = 30000000) /\
  (let w := set_longest_duration (Some 99000000) (new_wrapper false) in
   _longest_duration (on_new_status (device_with None None) w) = None /\
   forall dev' : Device,
     fst (get_duration dev' (on_new_status (device_with None None) w)) =
       match reported_duration dev' with
       | Some d => d * 1000000
       | None => get_current_position dev'
       end).
Proof.
  split; [|split].
  - apply (proj1 longest_duration_rises_and_resets (playing_at None 10) _ 10%Q
             eq_refl).
    reflexivity.
  - pose proof (proj1 (proj2 longest_duration_rises_and_resets)
                  (new_wrapper false)
                  (playing_at None 10) (playing_at None 20) (playing_at None 30)
                  10%Q 20%Q 30%Q true true true) as H.
    cbv zeta in H.
    destruct H as [H1 [H2 [H3 H4]]]; try reflexivity.
    { apply longest_unset_at_most. right; reflexivity. }
    cbv zeta. split; [exact H1|]. split; [exact H2|]. split; [exact H3|].
    assert (Hp : (0 <= 10)%Q) by (unfold Qle; simpl; lia).
    assert (Hv : 0 <= longest_value (new_wrapper false))
      by (apply Z.leb_le; reflexivity).
    exact (proj2 (proj2 (proj2 (H4 Hp Hv)))).
  - apply (proj2 (proj2 longest_duration_rises_and_resets) (device_with None None)).
    left; reflexivity.
Defined.

Example rising_positions_run :
  let w := new_wrapper false in
  let o1 := observe true (playing_at None (1 # 100)) w in
  let o2 := observe false (playing_at None (5 # 2)) (snd o1) in
  let o3 := observe true (playing_at None 7) (snd o2) in
  (fst o1, fst o2, fst o3) = (10000, 2500000, 7000000) /\
  _longest_duration (snd o3) = Some 7000000.
Proof. split; reflexivity. Qed.

(** ** Strings *)

Local Open Scope string_scope.

Section CharMap.

Variable f : ascii -> ascii.

Lemma sexists_smap (p : ascii -> bool) (s : string) :
  (forall c, p (f c) = p c) -> sexists p (smap f s) = sexists p s.
Proof.
  intros Hp. induction s as [|c r IH]; simpl; [reflexivity|].
  rewrite Hp, IH. reflexivity.
Qed.

Lemma sforall_smap (p : ascii -> bool) (s : string) :
  (forall c, p (f c) = p c) -> sforall p (smap f s) = sforall p s.
Proof.
  intros Hp. induction s as [|c r IH]; simpl; [reflexivity|].
  rewrite Hp, IH. reflexivity.
Qed.

Lemma sfilter_smap (p : ascii -> bool) (s : string) :
  (forall c, p (f c) = p c) -> sfilter p (smap f s) = smap f (sfilter p s).
Proof.
  intros Hp. induction s as [|c r IH]; simpl; [reflexivity|].
  rewrite Hp, IH. destruct (p c); reflexivity.
Qed.

Lemma lstrip_smap (p : ascii -> bool) (s : string) :
  (forall c, p (f c) = p c) -> lstrip p (smap f s) = smap f (lstrip p s).
Proof.
  intros Hp. induction s as [|c r IH]; simpl; [reflexivity|].
  rewrite Hp, IH. destruct (p c); reflexivity.
Qed.

Lemma break_smap (p : ascii -> bool) (s : string) :
  (forall c, p (f c) = p c) ->
  break p (smap f s) = (smap f (fst (break p s)), smap f (snd (break p s))).
Proof.
  intros Hp. induction s as [|c r IH]; simpl; [reflexivity|].
  rewrite Hp. destruct (p c); simpl; [reflexivity|].
  rewrite IH. destruct (break p r); reflexivity.
Qed.

End CharMap.

Lemma break_fst_none (p : ascii -> bool) (s : string) :
  sexists p (fst (break p s)) = false.
Proof.
  induction s as [|c r IH]; simpl; [reflexivity|].
  destruct (p c) eqn:E; simpl; [reflexivity|].
  destruct (break p r); simpl in *. rewrite E, IH. reflexivity.
Qed.

Lemma sexists_weaken (p q : ascii -> bool) (s : string) :
  (forall c, p c = true -> q c = true) -> sexists q s = false -> sexists p s = false.
Proof.
  intros Hpq. induction s as [|c r IH]; simpl; [reflexivity|].
  intros H. apply orb_false_iff in H. destruct H as [H1 H2].
  rewrite (IH H2), orb_false_r.
  destruct (p c) eqn:E; [|reflexivity]. rewrite (Hpq _ E) in H1. discriminate.
Qed.

Lemma prefix_sexists (p : ascii -> bool) (sub s : string) :
  prefix sub s = true -> sexists p sub = true -> sexists p s = true.
Proof.
  revert s. induction sub as [|a sub IH]; intros s Hpre Hex; simpl in *.
  - discriminate.
  - destruct s as [|b s]; simpl in Hpre; [discriminate|].
    revert Hpre. destruct (ascii_dec a b) as [->|]; intros Hpre; [|discriminate].
    simpl. apply orb_true_iff in Hex. destruct Hex as [Hex|Hex].
    + rewrite Hex. reflexivity.
    + rewrite (IH s Hpre Hex). apply orb_true_r.
Qed.

Lemma contains_sexists (p : ascii -> bool) (sub s : string) :
  contains sub s = true -> sexists p sub = true -> sexists p s = true.
Proof.
  induction s as [|c r IH]; simpl; intros H Hex.
  - destruct sub; simpl in *; discriminate.
  - apply orb_true_iff in H. destruct H as [H|H].
    + apply (prefix_sexists p sub (String c r) H Hex).
    + rewrite (IH H Hex). apply orb_true_r.
Qed.

Lemma prefix_refl (s : string) : prefix s s = true.
Proof.
  induction s as [|c r IH]; simpl; [reflexivity|].
  destruct (ascii_dec c c); [exact IH | congruence].
Qed.

Lemma contains_refl (s : string) : contains s s = true.
Proof.
  destruct s; simpl; [reflexivity|].
  destruct (ascii_dec a a); [|congruence]. rewrite prefix_refl. reflexivity.
Qed.

(** Lower-casing leaves the character classes of [urlsplit] alone. *)
Ltac by_cases_on_char c :=
  destruct c as [[] [] [] [] [] [] [] []]; reflexivity.

Lemma lower_char_idem (c : ascii) : lower_char (lower_char c) = lower_char c.
Proof. by_cases_on_char c. Qed.

Lemma lower_char_c0 (c : ascii) : is_c0_or_space (lower_char c) = is_c0_or_space c.
Proof. by_cases_on_char c. Qed.

Lemma lower_char_unsafe (c : ascii) :
  negb (is_unsafe_url_byte (lower_char c)) = negb (is_unsafe_url_byte c).
Proof. by_cases_on_char c. Qed.

Lemma lower_char_alpha (c : ascii) : is_alpha (lower_char c) = is_alpha c.
Proof. by_cases_on_char c. Qed.

Lemma lower_char_scheme (c : ascii) : is_scheme_char (lower_char c) = is_scheme_char c.
Proof. by_cases_on_char c. Qed.

Lemma lower_char_netloc_delim (c : ascii) :
  is_netloc_delim (lower_char c) = is_netloc_delim c.
Proof. by_cases_on_char c. Qed.

Lemma lower_char_colon (c : ascii) : is_char ":" (lower_char c) = is_char ":" c.
Proof. by_cases_on_char c. Qed.

Lemma lower_char_slash (c : ascii) : is_char "/" (lower_char c) = is_char "/" c.
Proof. by_cases_on_char c. Qed.

Lemma lower_char_lbracket (c : ascii) : is_char "[" (lower_char c) = is_char "[" c.
Proof. by_cases_on_char c. Qed.

Lemma lower_char_rbracket (c : ascii) : is_char "]" (lower_char c) = is_char "]" c.
Proof. by_cases_on_char c. Qed.

Lemma lower_idem (s : string) : lower (lower s) = lower s.
Proof.
  unfold lower. induction s as [|c r IH]; simpl; [reflexivity|].
  rewrite lower_char_idem, IH. reflexivity.
Qed.

(** ** The host of a URI *)

Lemma host_eq (uri : string) :
  host uri =
    fst (split_netloc
           (snd (split_scheme
                   (sfilter (fun c => negb (is_unsafe_url_byte c))
                            (lstrip is_c0_or_space uri))))).
Proof.
  unfold host, urlparse_fields.
  destruct (split_scheme _) as [sch u1]; cbn [fst snd].
  destruct (split_netloc u1) as [nl u2]; cbn [fst snd].
  destruct (split_once "#" u2) as [u3 fr].
  destruct (split_once "?" u3) as [u4 q].
  destruct (existsb (String.eqb sch) uses_params && sexists (is_char ";") u4);
    [destruct (splitparams u4)|]; reflexivity.
Qed.

Lemma split_scheme_lower (s : string) :
  snd (split_scheme (lower s)) = lower (snd (split_scheme s)).
Proof.
  unfold split_scheme, lower.
  rewrite (break_smap lower_char _ s lower_char_colon).
  destruct (break (is_char ":") s) as [a b]; simpl.
  destruct a as [|c0 pre]; simpl; [reflexivity|].
  destruct b as [|c1 rest]; simpl; [reflexivity|].
  rewrite lower_char_alpha, lower_char_scheme.
  rewrite (sforall_smap lower_char _ pre lower_char_scheme).
  destruct (is_alpha c0 && (is_scheme_char c0 && sforall is_scheme_char pre));
    reflexivity.
Qed.

Lemma split_netloc_lower (s : string) :
  fst (split_netloc (lower s)) = lower (fst (split_netloc s)).
Proof.
  unfold split_netloc, lower.
  destruct s as [|c1 [|c2 r]]; cbn [smap fst]; try reflexivity.
  rewrite !lower_char_slash.
  destruct (is_char "/" c1 && is_char "/" c2); [|reflexivity].
  rewrite (break_smap lower_char _ r lower_char_netloc_delim). reflexivity.
Qed.

(** Case folding a URI folds its host and nothing else of it. *)
Lemma host_casefold (uri : string) : host (casefold uri) = casefold (host uri).
Proof.
  rewrite !host_eq. unfold casefold.
  rewrite (lstrip_smap lower_char _ uri lower_char_c0).
  rewrite (sfilter_smap lower_char _ _ lower_char_unsafe).
  fold (lower (sfilter (fun c => negb (is_unsafe_url_byte c))
                       (lstrip is_c0_or_space uri))).
  rewrite split_scheme_lower, split_netloc_lower. reflexivity.
Qed.

Lemma split_netloc_no_delim (s : string) :
  sexists is_netloc_delim (fst (split_netloc s)) = false.
Proof.
  unfold split_netloc. destruct s as [|c1 [|c2 r]]; try reflexivity.
  destruct (is_char "/" c1 && is_char "/" c2); [|reflexivity].
  apply break_fst_none.
Qed.

(** A host holds none of ["/"], ["?"] and ["#"]. *)
Lemma host_no_delim (uri : string) : sexists is_netloc_delim (host uri) = false.
Proof. rewrite host_eq. apply split_netloc_no_delim. Qed.

Lemma host_no_slash (uri : string) : sexists (is_char "/") (host uri) = false.
Proof.
  apply (sexists_weaken _ is_netloc_delim); [|apply host_no_delim].
  intros c H. unfold is_netloc_delim. rewrite H. reflexivity.
Qed.

(** The third member of the enumeration, the watch URL, is never part of a
    host. *)
Lemma watch_not_in_host (uri : string) :
  contains (YoutubeUrl.value YoutubeUrl.watch) (host uri) = false.
Proof.
  destruct (contains _ (host uri)) eqn:E; [|reflexivity].
  pose proof (contains_sexists (is_char "/") _ _ E eq_refl) as H.
  rewrite host_no_slash in H. discriminate.
Qed.

Lemma host_empty : host "" = "".
Proof. reflexivity. Qed.

(** ** Dictionaries of [parse_qs] *)

Lemma dict_get_append_same (d : list (string * list string)) (k v : string) :
  dict_get (dict_append d k v) k = Some (get_list d k ++ [v])%list.
Proof.
  unfold get_list. induction d as [|[k' vs] d IH]; simpl.
  - rewrite String.eqb_refl. reflexivity.
  - destruct (k' =? k) eqn:E; simpl; rewrite E; [reflexivity | exact IH].
Qed.

Lemma dict_get_append_other (d : list (string * list string)) (k k0 v : string) :
  (k0 =? k) = false -> dict_get (dict_append d k0 v) k = dict_get d k.
Proof.
  intros Hk. induction d as [|[k' vs] d IH]; simpl.
  - rewrite Hk. reflexivity.
  - destruct (k' =? k0) eqn:E; simpl.
    + apply String.eqb_eq in E. subst k'. rewrite Hk. reflexivity.
    + rewrite IH. reflexivity.
Qed.

Lemma dict_get_fold (pairs : list (string * string))
    (d : list (string * list string)) (k : string) :
  dict_get d k <> Some [] ->
  dict_get (fold_left (fun d nv => dict_append d (fst nv) (snd nv)) pairs d) k =
    match (get_list d k ++ values_of k pairs)%list with
    | [] => None
    | l => Some l
    end.
Proof.
  revert d. induction pairs as [|[k0 v] pairs IH]; intros d Hd; simpl.
  - unfold values_of, get_list. simpl. rewrite app_nil_r.
    destruct (dict_get d k) as [[|x l]|]; congruence.
  - destruct (k0 =? k) eqn:E.
    + apply String.eqb_eq in E. subst k0.
      rewrite IH.
      * unfold get_list at 1. rewrite dict_get_append_same.
        unfold values_of. simpl. rewrite String.eqb_refl. simpl.
        rewrite <- app_assoc. reflexivity.
      * rewrite dict_get_append_same. destruct (get_list d k); discriminate.
    + rewrite IH.
      * unfold get_list. rewrite (dict_get_append_other _ _ _ _ E).
        unfold values_of. simpl. rewrite E. reflexivity.
      * rewrite (dict_get_append_other _ _ _ _ E). exact Hd.
Qed.

Lemma dict_get_parse_qs (unquote_escapes : string -> string) (qs k : string) :
  dict_get (parse_qs unquote_escapes qs) k =
    match values_of k (parse_qsl unquote_escapes qs) with
    | [] => None
    | l => Some l
    end.
Proof.
  unfold parse_qs. rewrite dict_get_fold; [reflexivity | discriminate].
Qed.

(** ** Content identifier *)

Section ContentId.

Variable bracketed_host_ok : string -> bool.
Variable unquote_escapes : string -> string.
Variable guess_type : string -> option string.

Lemma urlparse_eq (uri : string) :
  urlparse bracketed_host_ok uri =
    if check_netloc bracketed_host_ok (host uri) then Ok (urlparse_fields uri)
    else Raise ValueError.
Proof. reflexivity. Qed.

Lemma urlparse_ok_fields (uri : string) (p : ParseResult) :
  urlparse bracketed_host_ok uri = Ok p -> p = urlparse_fields uri.
Proof.
  rewrite urlparse_eq. destruct (check_netloc _ _); congruence.
Qed.

Lemma check_netloc_plain (nl : string) :
  sexists (is_char "[") nl = false -> sexists (is_char "]") nl = false ->
  check_netloc bracketed_host_ok nl = true.
Proof. unfold check_netloc. intros -> ->. reflexivity. Qed.

(** [is_youtube] in terms of the host: what C6 amends to. *)
Lemma is_youtube_eq (uri : string) :
  is_youtube bracketed_host_ok uri =
    if check_netloc bracketed_host_ok (casefold (host uri)) then
      Ok (contains "youtube.com" (casefold (host uri)) ||
          contains "youtu.be" (casefold (host uri)))
    else Raise ValueError.
Proof.
  unfold is_youtube. rewrite urlparse_eq, host_casefold.
  destruct (check_netloc _ _); [|reflexivity].
  cbn [bind]. fold (host (casefold uri)).
  cbn [existsb YoutubeUrl.members].
  rewrite watch_not_in_host, host_casefold.
  rewrite !orb_false_r. reflexivity.
Qed.

Lemma is_youtube_of_domain (uri d : string) :
  host uri = d -> casefold d = d ->
  sexists (is_char "[") d = false -> sexists (is_char "]") d = false ->
  (contains "youtube.com" d || contains "youtu.be" d) = true ->
  YoutubeUrl_is_youtube bracketed_host_ok (Some uri) = Ok true.
Proof.
  intros Hh Hc Hl Hr Hd. unfold YoutubeUrl_is_youtube.
  destruct uri as [|c r].
  - rewrite host_empty in Hh. subst d. discriminate.
  - cbn [truthy_str String.eqb negb].
    rewrite is_youtube_eq, Hh, Hc, (check_netloc_plain d Hl Hr), Hd.
    reflexivity.
Qed.

Lemma get_content_id_long (uri : string) :
  host uri = "youtube.com" ->
  get_content_id bracketed_host_ok unquote_escapes uri =
    match query_values unquote_escapes uri "v" with
    | [] => Raise KeyError
    | [content_id] => Ok (Some content_id)
    | _ => Raise ValueError
    end.
Proof.
  intros Hh. unfold get_content_id.
  rewrite (is_youtube_of_domain uri "youtube.com" Hh) by reflexivity.
  cbn [bind negb]. rewrite urlparse_eq, Hh.
  change (check_netloc bracketed_host_ok "youtube.com") with true.
  cbn iota. cbn [bind]. fold (host uri). rewrite Hh.
  change ("youtube.com" =? YoutubeUrl.value YoutubeUrl.long) with true. cbn iota.
  unfold VIDEO_QS, query_values. rewrite dict_get_parse_qs.
  destruct (values_of "v" _) as [|x [|y l]]; reflexivity.
Qed.

Lemma get_content_id_short (uri : string) :
  host uri = "youtu.be" ->
  get_content_id bracketed_host_ok unquote_escapes uri =
    Ok (Some (skip_first (path (urlparse_fields uri)))).
Proof.
  intros Hh. unfold get_content_id.
  rewrite (is_youtube_of_domain uri "youtu.be" Hh) by reflexivity.
  cbn [bind negb]. rewrite urlparse_eq, Hh.
  change (check_netloc bracketed_host_ok "youtu.be") with true.
  cbn iota. cbn [bind]. fold (host uri). rewrite Hh. reflexivity.
Qed.

Lemma get_content_id_other (uri : string) (p p' : ParseResult) :
  urlparse bracketed_host_ok uri = Ok p ->
  urlparse bracketed_host_ok (casefold uri) = Ok p' ->
  host uri <> "youtube.com" -> host uri <> "youtu.be" ->
  get_content_id bracketed_host_ok unquote_escapes uri = Ok None.
Proof.
  intros Hp Hp' Hl Hs. unfold get_content_id, YoutubeUrl_is_youtube.
  destruct (truthy_str uri); cbn [bind negb]; [|reflexivity].
  unfold is_youtube. rewrite Hp'. cbn [bind].
  destruct (existsb _ _); cbn [negb]; [|reflexivity].
  rewrite Hp. cbn [bind].
  rewrite (urlparse_ok_fields _ _ Hp). fold (host uri).
  destruct (host uri =? YoutubeUrl.value YoutubeUrl.long) eqn:E1.
  { apply String.eqb_eq in E1. contradiction. }
  destruct (host uri =? YoutubeUrl.value YoutubeUrl.short) eqn:E2.
  { apply String.eqb_eq in E2. contradiction. }
  reflexivity.
Qed.

(** [get_content_id], decided by the network location of the URI. *)
Lemma get_content_id_eq (uri : string) :
  get_content_id bracketed_host_ok unquote_escapes uri =
    if uri =? "" then Ok None
    else if negb (check_netloc bracketed_host_ok (casefold (host uri)))
    then Raise ValueError
    else if negb (contains "youtube.com" (casefold (host uri)) ||
                  contains "youtu.be" (casefold (host uri)))
    then Ok None
    else if negb (check_netloc bracketed_host_ok (host uri)) then Raise ValueError
    else if host uri =? "youtube.com" then
      match query_values unquote_escapes uri "v" with
      | [] => Raise KeyError
      | [content_id] => Ok (Some content_id)
      | _ => Raise ValueError
      end
    else if host uri =? "youtu.be" then
      Ok (Some (skip_first (path (urlparse_fields uri))))
    else Ok None.
Proof.
  unfold get_content_id, YoutubeUrl_is_youtube, truthy_str.
  destruct (uri =? ""); cbn [negb bind]; [reflexivity|].
  rewrite is_youtube_eq.
  destruct (check_netloc bracketed_host_ok (casefold (host uri)));
    cbn [negb bind]; [|reflexivity].
  destruct (contains "youtube.com" (casefold (host uri)) ||
            contains "youtu.be" (casefold (host uri))); cbn [negb]; [|reflexivity].
  rewrite urlparse_eq.
  destruct (check_netloc bracketed_host_ok (host uri)); cbn [negb bind];
    [|reflexivity].
  fold (host uri).
  change (YoutubeUrl.value YoutubeUrl.long) with "youtube.com".
  change (YoutubeUrl.value YoutubeUrl.short) with "youtu.be".
  destruct (host uri =? "youtube.com"); [|reflexivity].
  unfold VIDEO_QS, query_values. rewrite dict_get_parse_qs.
  destruct (values_of "v" _) as [|x [|y l]]; reflexivity.
Qed.

Lemma hostname_excludes_short (uri : string) :
  hostname uri = Some "youtube.com" -> host uri <> "youtu.be".
Proof.
  unfold hostname. fold (host uri). intros H E. rewrite E in H. discriminate.
Qed.

End ContentId.

(** C6, as amended.  [is_youtube] returns true exactly when the host of the
    case-folded URI contains ["youtube.com"] or ["youtu.be"] as a substring
    (the third member of the enumeration, the watch URL, never occurs in a
    host), false for every other host, and raises when [urlparse] rejects
    the host.  In particular it returns true when the host is, up to case,
    one of the two domains. *)
Theorem is_youtube_host_contains_domain
    (bracketed_host_ok : string -> bool) (uri : string) :
  is_youtube bracketed_host_ok uri =
    (if check_netloc bracketed_host_ok (casefold (host uri)) then
       Ok (contains "youtube.com" (casefold (host uri)) ||
           contains "youtu.be" (casefold (host uri)))
     else Raise ValueError) /\
  (host_is_service_domain uri = true -> is_youtube bracketed_host_ok uri = Ok true).
Proof.
  split; [apply is_youtube_eq|].
  unfold host_is_service_domain. intros H. rewrite is_youtube_eq.
  apply orb_true_iff in H. destruct H as [H|H]; apply String.eqb_eq in H;
    rewrite H; reflexivity.
Qed.

Lemma is_youtube_host_contains_domain_witness :
  is_youtube any_bracketed_host "HTTPS://YouTube.COM/watch?v=abc123" = Ok true.
Proof.
  apply (proj2 (is_youtube_host_contains_domain any_bracketed_host
                  "HTTPS://YouTube.COM/watch?v=abc123")).
  reflexivity.
Defined.

(** C6, as stated, fails: a host that merely contains a service domain is
    accepted, though it is, also up to case, neither of the two domains. *)
Lemma is_youtube_accepts_other_host :
  is_youtube any_bracketed_host "https://youtube.com.example.org/watch" = Ok true /\
  host "https://youtube.com.example.org/watch" = "youtube.com.example.org" /\
  host_is_service_domain "https://youtube.com.example.org/watch" = false.
Proof. repeat split. Qed.

Example is_youtube_examples (ok : string -> bool) :
  is_youtube ok "https://YouTube.com/watch?v=abc123" = Ok true /\
  is_youtube ok "https://youtu.be/abc123" = Ok true /\
  is_youtube ok "https://www.youtube.com/watch?v=abc123" = Ok true /\
  is_youtube ok "https://example.com/youtube.com" = Ok false.
Proof. repeat split. Qed.

(** C5, as amended.  [get_content_id] is decided by the network location
    of the URI as it is written, not by its host name.  For a URI whose
    network location is exactly ["youtube.com"] it returns the single value
    of the query parameter [v], and raises when there is none ([KeyError])
    or more than one ([ValueError]); for one whose network location is
    exactly ["youtu.be"] it returns the path without its first character;
    for every other network location that [urlparse] accepts, as given and
    case-folded, it returns [None], also when the host name is one of the
    two domains written with a port, with user information or in another
    case.  A URI that is not empty and whose case-folded network location
    [urlparse] rejects raises [ValueError]; one that is rejected only as
    given raises [ValueError] when [is_youtube] accepts it and gives [None]
    otherwise; the empty URI gives [None]. *)
Theorem get_content_id_by_netloc
    (bracketed_host_ok : string -> bool) (unquote_escapes : string -> string)
    (uri : string) :
  (netloc (urlparse_fields uri) = "youtube.com" ->
   get_content_id bracketed_host_ok unquote_escapes uri =
     match query_values unquote_escapes uri "v" with
     | [] => Raise KeyError
     | [content_id] => Ok (Some content_id)
     | _ => Raise ValueError
     end) /\
  (netloc (urlparse_fields uri) = "youtu.be" ->
   get_content_id bracketed_host_ok unquote_escapes uri =
     Ok (Some (skip_first (path (urlparse_fields uri))))) /\
  (urlparse_accepts bracketed_host_ok uri = true ->
   netloc (urlparse_fields uri) <> "youtube.com" ->
   netloc (urlparse_fields uri) <> "youtu.be" ->
   get_content_id bracketed_host_ok unquote_escapes uri = Ok None) /\
  (uri <> "" ->
   check_netloc bracketed_host_ok (casefold (netloc (urlparse_fields uri))) = false ->
   get_content_id bracketed_host_ok unquote_escapes uri = Raise ValueError) /\
  (uri <> "" ->
   check_netloc bracketed_host_ok (casefold (netloc (urlparse_fields uri))) = true ->
   check_netloc bracketed_host_ok (netloc (urlparse_fields uri)) = false ->
   get_content_id bracketed_host_ok unquote_escapes uri =
     if contains "youtube.com" (casefold (netloc (urlparse_fields uri))) ||
        contains "youtu.be" (casefold (netloc (urlparse_fields uri)))
     then Raise ValueError else Ok None) /\
  get_content_id bracketed_host_ok unquote_escapes "" = Ok None /\
  get_content_id bracketed_host_ok unquote_escapes
    "https://youtube.com/watch?v=abc123" = Ok (Some "abc123") /\
  get_content_id bracketed_host_ok unquote_escapes
    "https://youtu.be/abc123" = Ok (Some "abc123") /\
  get_content_id bracketed_host_ok unquote_escapes
    "https://example.com/abc123" = Ok None.
Proof.
  change (netloc (urlparse_fields uri)) with (host uri).
  assert (Hne : uri <> "" -> (uri =? "") = false) by (apply String.eqb_neq).
  split; [|split; [|split; [|split; [|split]]]].
  - intros Hh. rewrite get_content_id_eq, Hh.
    destruct (uri =? "") eqn:E; [|reflexivity].
    apply String.eqb_eq in E. subst uri. discriminate.
  - intros Hh. rewrite get_content_id_eq, Hh.
    destruct (uri =? "") eqn:E; [|reflexivity].
    apply String.eqb_eq in E. subst uri. discriminate.
  - unfold urlparse_accepts. change (netloc (urlparse_fields uri)) with (host uri).
    intros Ha Hl Hs. apply andb_true_iff in Ha. destruct Ha as [Ha Ha'].
    rewrite get_content_id_eq, Ha, Ha'. cbn [negb].
    apply String.eqb_neq in Hl. apply String.eqb_neq in Hs. rewrite Hl, Hs.
    destruct (uri =? ""); [reflexivity|].
    destruct (negb _); reflexivity.
  - intros Hu Hc. rewrite get_content_id_eq, (Hne Hu), Hc. reflexivity.
  - intros Hu Hc' Hc. rewrite get_content_id_eq, (Hne Hu), Hc', Hc. cbn [negb].
    destruct (contains "youtube.com" (casefold (host uri)) ||
              contains "youtu.be" (casefold (host uri))); reflexivity.
  - repeat split.
Qed.

Lemma get_content_id_by_netloc_witness :
  get_content_id any_bracketed_host no_escapes "https://youtube.com/watch?v=abc123"
    = Ok (Some "abc123") /\
  get_content_id any_bracketed_host no_escapes "https://youtu.be/abc123;t=1"
    = Ok (Some "abc123") /\
  get_content_id any_bracketed_host no_escapes "https://example.com/abc123"
    = Ok None /\
  get_content_id any_bracketed_host no_escapes "https://youtube.com:443/watch?v=abc123"
    = Ok None /\
  get_content_id any_bracketed_host no_escapes "https://[example.com/abc123"
    = Raise ValueError /\
  get_content_id (fun _ => false) no_escapes "https://[YOUTUBE.COM]/watch?v=abc123"
    = Raise ValueError.
Proof.
  split; [|split; [|split; [|split; [|split]]]].
  - rewrite (proj1 (get_content_id_by_netloc any_bracketed_host no_escapes
                      "https://youtube.com/watch?v=abc123")); reflexivity.
  - rewrite (proj1 (proj2 (get_content_id_by_netloc any_bracketed_host no_escapes
                             "https://youtu.be/abc123;t=1"))); reflexivity.
  - apply (proj1 (proj2 (proj2 (get_content_id_by_netloc any_bracketed_host
                                  no_escapes "https://example.com/abc123"))));
      try reflexivity; discriminate.
  - apply (proj1 (proj2 (proj2 (get_content_id_by_netloc any_bracketed_host
                                  no_escapes
                                  "https://youtube.com:443/watch?v=abc123"))));
      try reflexivity; discriminate.
  - apply (proj1 (proj2 (proj2 (proj2 (get_content_id_by_netloc any_bracketed_host
                                         no_escapes
                                         "https://[example.com/abc123")))));
      [discriminate | reflexivity].
  - apply (proj1 (proj2 (proj2 (proj2 (get_content_id_by_netloc (fun _ => false)
                                         no_escapes
                                         "https://[YOUTUBE.COM]/watch?v=abc123")))));
      [discriminate | reflexivity].
Defined.

(** C5, as stated, fails.  A URI whose host is the long-form domain,
    written with a port or in another case, carries one value for [v], yet
    [get_content_id] returns [None] where the description has that value;
    and a URI with another host, whose bracket is never closed, raises
    [ValueError] where the description has [None]. *)
Lemma get_content_id_not_by_hostname :
  hostname "https://youtube.com:443/watch?v=abc123" = Some "youtube.com" /\
  query_values no_escapes "https://youtube.com:443/watch?v=abc123" "v" = ["abc123"] /\
  described_get_content_id no_escapes "https://youtube.com:443/watch?v=abc123"
    = Ok (Some "abc123") /\
  get_content_id any_bracketed_host no_escapes "https://youtube.com:443/watch?v=abc123"
    = Ok None /\
  hostname "https://YouTube.com/watch?v=abc123" = Some "youtube.com" /\
  described_get_content_id no_escapes "https://YouTube.com/watch?v=abc123"
    = Ok (Some "abc123") /\
  get_content_id any_bracketed_host no_escapes "https://YouTube.com/watch?v=abc123"
    = Ok None /\
  hostname "https://[example.com/abc123" = Some "example.com" /\
  described_get_content_id no_escapes "https://[example.com/abc123" = Ok None /\
  get_content_id any_bracketed_host no_escapes "https://[example.com/abc123"
    = Raise ValueError.
Proof. repeat split. Qed.

Example get_content_id_other_spellings (ok : string -> bool) (unq : string -> string) :
  get_content_id ok unq "https://YOUTUBE.COM/watch?v=abc123" = Ok None /\
  get_content_id ok unq "https://www.youtube.com/watch?v=abc123" = Ok None /\
  get_content_id ok unq "https://youtu.be/" = Ok (Some "").
Proof. repeat split. Qed.

(** C4, as amended.  Take a URI whose host name is ["youtube.com"] and whose
    query gives [v] no value or more than one.  When its network location is
    written exactly ["youtube.com"], [open_uri] does not fall back to generic
    playback: the exception of [get_content_id] ([KeyError] for no value,
    [ValueError] for several) leaves [open_uri], and no command is sent;
    [add_track] behaves the same.  When the network location is written
    otherwise (a port, user information, another case) and [urlparse]
    accepts the URI, [open_uri] falls through to generic playback: one
    [play_media] command with the URI and the type [guess_type] finds. *)
Theorem open_uri_on_malformed_query
    (bracketed_host_ok : string -> bool) (unquote_escapes : string -> string)
    (guess_type : string -> option string) (dev : Device) (uri : string) :
  hostname uri = Some "youtube.com" ->
  query_values unquote_escapes uri "v" = [] \/
  (2 <= List.length (query_values unquote_escapes uri "v"))%nat ->
  (netloc (urlparse_fields uri) = "youtube.com" ->
   open_uri bracketed_host_ok unquote_escapes guess_type dev uri =
     Raise (match query_values unquote_escapes uri "v" with
            | [] => KeyError
            | _ => ValueError
            end) /\
   forall after_track set_as_current,
     add_track bracketed_host_ok unquote_escapes guess_type dev uri
               after_track set_as_current =
       Raise (match query_values unquote_escapes uri "v" with
              | [] => KeyError
              | _ => ValueError
              end)) /\
  (netloc (urlparse_fields uri) <> "youtube.com" ->
   urlparse_accepts bracketed_host_ok uri = true ->
   open_uri bracketed_host_ok unquote_escapes guess_type dev uri =
     Ok [PlayMedia uri (guess_type uri)]).
Proof.
  intros Hh Hq. split.
  - change (netloc (urlparse_fields uri)) with (host uri). intros Hn.
    unfold open_uri, add_track.
    rewrite (get_content_id_long bracketed_host_ok unquote_escapes uri Hn).
    destruct (query_values unquote_escapes uri "v") as [|x [|y l]].
    + split; reflexivity.
    + destruct Hq as [Hq|Hq]; [discriminate | simpl in Hq; lia].
    + split; reflexivity.
  - unfold urlparse_accepts. change (netloc (urlparse_fields uri)) with (host uri).
    intros Hn Ha. apply andb_true_iff in Ha. destruct Ha as [Ha Ha'].
    pose proof (hostname_excludes_short uri Hh) as Hs.
    unfold open_uri. rewrite get_content_id_eq, Ha, Ha'. cbn [negb].
    apply String.eqb_neq in Hn. apply String.eqb_neq in Hs. rewrite Hn, Hs.
    destruct (uri =? ""); [reflexivity|].
    destruct (negb _); reflexivity.
Qed.

Lemma open_uri_on_malformed_query_witness :
  open_uri any_bracketed_host no_escapes no_mimetype (device_with None None)
    "https://youtube.com/watch?list=x" = Raise KeyError /\
  open_uri any_bracketed_host no_escapes no_mimetype (device_with None None)
    "https://youtube.com/watch?v=a&v=b" = Raise ValueError /\
  open_uri any_bracketed_host no_escapes no_mimetype (device_with None None)
    "https://youtube.com:443/watch?v=a&v=b"
    = Ok [PlayMedia "https://youtube.com:443/watch?v=a&v=b" None] /\
  open_uri any_bracketed_host no_escapes no_mimetype (device_with None None)
    "https://YOUTUBE.COM/watch"
    = Ok [PlayMedia "https://YOUTUBE.COM/watch" None].
Proof.
  split; [|split; [|split]].
  - apply (proj1 (proj1 (open_uri_on_malformed_query
                           any_bracketed_host no_escapes no_mimetype
                           (device_with None None)
                           "https://youtube.com/watch?list=x" eq_refl
                           (or_introl eq_refl)) eq_refl)).
  - apply (proj1 (proj1 (open_uri_on_malformed_query
                           any_bracketed_host no_escapes no_mimetype
                           (device_with None None)
                           "https://youtube.com/watch?v=a&v=b" eq_refl
                           (or_intror (le_n 2))) eq_refl)).
  - apply (proj2 (open_uri_on_malformed_query
                    any_bracketed_host no_escapes no_mimetype
                    (device_with None None)
                    "https://youtube.com:443/watch?v=a&v=b" eq_refl
                    (or_intror (le_n 2)))); [discriminate | reflexivity].
  - apply (proj2 (open_uri_on_malformed_query
                    any_bracketed_host no_escapes no_mimetype
                    (device_with None None)
                    "https://YOUTUBE.COM/watch" eq_refl
                    (or_introl eq_refl))); [discriminate | reflexivity].
Defined.

(** C4, as stated, fails: with two values for [v], and with none, in a URI
    whose host is written ["youtube.com"], [open_uri] raises instead of
    playing the URI as generic media. *)
Lemma open_uri_crashes_on_malformed_query :
  hostname "https://youtube.com/watch?v=a&v=b" = Some "youtube.com" /\
  query_values no_escapes "https://youtube.com/watch?v=a&v=b" "v" = ["a"; "b"] /\
  open_uri any_bracketed_host no_escapes no_mimetype (device_with None None)
    "https://youtube.com/watch?v=a&v=b" = Raise ValueError /\
  hostname "https://youtube.com/watch" = Some "youtube.com" /\
  query_values no_escapes "https://youtube.com/watch" "v" = [] /\
  open_uri any_bracketed_host no_escapes no_mimetype (device_with None None)
    "https://youtube.com/watch" = Raise KeyError /\
  open_uri any_bracketed_host no_escapes no_mimetype (device_with None None)
    "https://youtube.com/watch?v=a&v=b"
    <> Ok [PlayMedia "https://youtube.com/watch?v=a&v=b"
             (no_mimetype "https://youtube.com/watch?v=a&v=b")].
Proof. repeat split. discriminate. Qed.

(** C10.  Two calls of [add_track] that differ only in [after_track] send
    the same commands, or raise the same exception: what [add_track] does is
    fixed by the content id of the URI, [set_as_current] and the device. *)
Theorem add_track_ignores_after_track
    (bracketed_host_ok : string -> bool) (unquote_escapes : string -> string)
    (guess_type : string -> option string) (dev : Device) (uri : string)
    (after_track after_track' : string) (set_as_current : bool) :
  add_track bracketed_host_ok unquote_escapes guess_type dev uri
            after_track set_as_current =
  add_track bracketed_host_ok unquote_escapes guess_type dev uri
            after_track' set_as_current /\
  add_track bracketed_host_ok unquote_escapes guess_type dev uri
            after_track set_as_current =
    (video_id <- get_content_id bracketed_host_ok unquote_escapes uri ;;
     if truthy_opt video_id then
       Ok (map YtAddToQueue (present video_id) ++
           (if set_as_current then map YtPlayVideo (present video_id) else []))%list
     else if set_as_current
          then open_uri bracketed_host_ok unquote_escapes guess_type dev uri
          else Ok []).
Proof.
  split; [reflexivity|].
  unfold add_track.
  destruct (get_content_id bracketed_host_ok unquote_escapes uri) as [[v|]|e];
    cbn [bind truthy_opt present]; [| |reflexivity].
  - unfold truthy_str. destruct (v =? "") eqn:E; cbn [negb andb map app].
    + destruct set_as_current; [|reflexivity].
      destruct (open_uri _ _ _ dev uri); reflexivity.
    + destruct set_as_current; reflexivity.
  - destruct set_as_current; [|reflexivity].
    destruct (open_uri _ _ _ dev uri); reflexivity.
Qed.

Example add_track_runs (ok : string -> bool) (unq : string -> string)
    (guess : string -> option string) (a : string) :
  add_track ok unq guess (device_with None None) "https://youtu.be/abc123" a true
    = Ok [YtAddToQueue "abc123"; YtPlayVideo "abc123"] /\
  add_track ok unq guess (device_with None None) "https://youtu.be/abc123" a false
    = Ok [YtAddToQueue "abc123"] /\
  add_track ok unq guess (device_with None None) "https://example.com/a.mp3" a true
    = Ok [PlayMedia "https://example.com/a.mp3" (guess "https://example.com/a.mp3")] /\
  add_track ok unq guess (device_with None None) "https://example.com/a.mp3" a false
    = Ok [] /\
  open_uri ok unq guess (device_with None None) "https://youtu.be/abc123"
    = Ok [YtLaunch; YtPlayVideo "abc123"].
Proof. repeat split. Qed.

(** ** Titles *)

Lemma append_if_present (value : option string) (l : list string) :
  append_if value l = (l ++ present value)%list.
Proof.
  unfold append_if, present, truthy_str.
  destruct value as [x|]; [|symmetry; apply app_nil_r].
  destruct (x =? ""); simpl; [symmetry; apply app_nil_r | reflexivity].
Qed.

Lemma present_get_subtitle (dev : Device) :
  present (get_subtitle dev) =
  present (status_field
             (fun status => dict_lookup (media_metadata status) "subtitle") dev).
Proof.
  unfold get_subtitle, status_field.
  destruct (media_status dev) as [st|]; [|reflexivity].
  destruct (media_metadata st) as [|kv m]; [reflexivity|].
  destruct (dict_lookup (kv :: m) "subtitle") as [x|]; [|reflexivity].
  unfold truthy_str, present. destruct (x =? "") eqn:E; simpl; [reflexivity|].
  rewrite E. reflexivity.
Qed.

Lemma titles_list_ranked (TITLE : string) (dev : Device) :
  titles_list TITLE dev = ranked_titles TITLE dev.
Proof.
  unfold titles_list, ranked_titles, title_fragments, MAX_TITLES.
  cbn [flat_map]. rewrite <- present_get_subtitle. unfold status_field.
  destruct (media_status dev) as [st|];
    rewrite ?append_if_present; cbn [app present]; rewrite ?app_nil_r;
    rewrite <- ?app_assoc.
  - destruct (present (dev_media_title dev) ++ present (series_title st) ++
              present (get_subtitle dev) ++ present (artist st) ++
              present (album_name st) ++ present (dev_app_display_name dev))%list;
      reflexivity.
  - destruct (present (dev_media_title dev) ++ present (get_subtitle dev) ++
              present (dev_app_display_name dev))%list; reflexivity.
Qed.

Lemma ranked_titles_length (TITLE : string) (dev : Device) :
  (1 <= List.length (ranked_titles TITLE dev) <= 3)%nat.
Proof.
  unfold ranked_titles.
  destruct (flat_map present (title_fragments dev)) as [|a [|b [|c l]]]; simpl; lia.
Qed.

(** C8.  [titles] lists the present fragments in the order media title,
    series title, embedded subtitle, artist, album, application name,
    skipping the absent ones, and keeps at most three; when no fragment is
    present the list is the product name alone.  The list is never empty,
    the first field of the tuple is always filled, and the fields are filled
    from the left without a gap. *)
Theorem titles_ranked_and_bounded (TITLE : string) (dev : Device) :
  titles_list TITLE dev = ranked_titles TITLE dev /\
  (flat_map present (title_fragments dev) <> [] ->
   titles_list TITLE dev = firstn 3 (flat_map present (title_fragments dev))) /\
  (flat_map present (title_fragments dev) = [] -> titles_list TITLE dev = [TITLE]) /\
  (1 <= List.length (titles_list TITLE dev) <= 3)%nat /\
  titles_title (titles TITLE dev) <> None /\
  (titles_artist (titles TITLE dev) = None -> titles_album (titles TITLE dev) = None) /\
  [titles_title (titles TITLE dev); titles_artist (titles TITLE dev);
   titles_album (titles TITLE dev)] =
    map (nth_error (titles_list TITLE dev)) [0; 1; 2]%nat.
Proof.
  pose proof (ranked_titles_length TITLE dev) as Hlen.
  rewrite titles_list_ranked.
  split; [reflexivity|].
  split.
  { unfold ranked_titles. destruct (flat_map present (title_fragments dev));
      [congruence | reflexivity]. }
  split.
  { unfold ranked_titles. intros ->. reflexivity. }
  split; [exact Hlen|].
  unfold titles. rewrite titles_list_ranked.
  cbn [titles_title titles_artist titles_album].
  destruct (ranked_titles TITLE dev) as [|a [|b l]]; simpl in *;
    repeat split; try discriminate; try reflexivity; lia.
Qed.

Lemma titles_ranked_and_bounded_witness :
  let dev :=
    {| dev_status := None;
       dev_media_status :=
         Some {| duration := None; current_time := 0; adjusted_current_time := None;
                 series_title := Some "S"; artist := Some "Ar"; album_name := Some "Al";
                 media_metadata := []; images := []; content_id := None;
                 track := None |};
       dev_media_title := Some "T"; dev_app_id := None;
       dev_app_display_name := Some "App"; dev_yt_is_active := false |} in
  titles_list "Cast Control" dev = ["T"; "S"; "Ar"] /\
  titles_list "Cast Control" (device_with None None) = ["Cast Control"].
Proof.
  intros dev. split.
  - rewrite (proj1 (proj2 (titles_ranked_and_bounded "Cast Control" dev)));
      [reflexivity | discriminate].
  - apply (proj1 (proj2 (proj2 (titles_ranked_and_bounded
                                  "Cast Control" (device_with None None))))).
    reflexivity.
Defined.

(** ** Icons *)

Lemma option_eqb_eq (a b : option string) : option_eqb a b = true <-> a = b.
Proof.
  destruct a as [x|], b as [y|]; simpl; split; intros H;
    try discriminate; try reflexivity.
  - apply String.eqb_eq in H. congruence.
  - apply String.eqb_eq. congruence.
Qed.

Lemma truthy_str_true (x : string) : truthy_str x = true <-> x <> "".
Proof.
  unfold truthy_str. destruct (x =? "") eqn:E; simpl.
  - apply String.eqb_eq in E. split; [discriminate | congruence].
  - apply String.eqb_neq in E. split; [auto | reflexivity].
Qed.

Lemma can_use_cache_valid (TITLE : string) (dev : Device) (w : DeviceWrapper) :
  _can_use_cache TITLE dev w = true <-> cache_valid TITLE dev w.
Proof.
  unfold _can_use_cache, cache_valid.
  destruct (cached_icon w) as [icon|].
  - destruct (truthy_str (url icon)) eqn:E; simpl.
    + rewrite andb_true_iff, !option_eqb_eq. split.
      * intros [H1 H2]. exists icon. apply truthy_str_true in E. auto.
      * intros [icon' [H [_ [H1 H2]]]]. inversion H. subst. auto.
    + split; [discriminate|].
      intros [icon' [H [Hu _]]]. inversion H. subst.
      apply truthy_str_true in Hu. congruence.
  - split; [discriminate|]. intros [icon' [H _]]. discriminate.
Qed.

Section Icons.

Variable TITLE : string.
Variable LIGHT_THUMB : string.
Variable DEFAULT_THUMB : string.

Lemma get_art_url_image (dev : Device) (w : DeviceWrapper) (st : MediaStatus)
    (first : MediaImage) (rest : list MediaImage) (u : string) :
  media_status dev = Some st -> images st = first :: rest ->
  image_url first = Some u -> u <> "" ->
  get_art_url TITLE LIGHT_THUMB DEFAULT_THUMB dev w =
    (Ok u, set_cached_icon (Some (fresh_icon TITLE dev u)) w).
Proof.
  intros Hs Hi Hu Hne. apply truthy_str_true in Hne.
  unfold get_art_url, _get_icon_from_device, mbind.
  rewrite Hs, Hi, Hu. unfold _set_cached_icon, truthy_opt, ret.
  rewrite Hne. cbn beta iota. rewrite Hne. reflexivity.
Qed.

Lemma get_art_url_image_without_url (dev : Device) (w : DeviceWrapper)
    (st : MediaStatus) (first : MediaImage) (rest : list MediaImage) :
  media_status dev = Some st -> images st = first :: rest ->
  truthy_opt (image_url first) = false ->
  get_art_url TITLE LIGHT_THUMB DEFAULT_THUMB dev w =
    (Ok (_get_default_icon LIGHT_THUMB DEFAULT_THUMB w), set_cached_icon None w).
Proof.
  intros Hs Hi Hu.
  unfold get_art_url, _get_icon_from_device, mbind.
  rewrite Hs, Hi. unfold _set_cached_icon, ret. rewrite Hu.
  cbn beta iota. rewrite Hu. reflexivity.
Qed.

Lemma get_art_url_app_icon (dev : Device) (w : DeviceWrapper) (st : MediaStatus)
    (u : string) :
  media_status dev = Some st -> images st = [] -> app_icon dev = Some u ->
  get_art_url TITLE LIGHT_THUMB DEFAULT_THUMB dev w =
    (Ok u, set_cached_icon (Some (fresh_icon TITLE dev u)) w).
Proof.
  intros Hs Hi Ha.
  assert (Hu : truthy_str u = true).
  { unfold app_icon in Ha. destruct (cast_status dev) as [cs|]; [|discriminate].
    destruct (truthy_opt (icon_url cs)) eqn:E; [|discriminate].
    rewrite Ha in E. exact E. }
  unfold get_art_url, _get_icon_from_device, mbind.
  rewrite Hs, Hi. fold (app_icon dev). rewrite Ha.
  unfold _set_cached_icon, truthy_opt, ret.
  rewrite Hu. cbn beta iota. rewrite Hu. reflexivity.
Qed.

Lemma get_art_url_cached (dev : Device) (w : DeviceWrapper) (st : MediaStatus) :
  media_status dev = Some st -> images st = [] -> app_icon dev = None ->
  cache_valid TITLE dev w ->
  exists icon,
    cached_icon w = Some icon /\
    get_art_url TITLE LIGHT_THUMB DEFAULT_THUMB dev w = (Ok (url icon), w).
Proof.
  intros Hs Hi Ha Hv.
  pose proof (proj2 (can_use_cache_valid TITLE dev w) Hv) as Hc.
  destruct Hv as [icon [Hw [Hu _]]]. exists icon. split; [exact Hw|].
  apply truthy_str_true in Hu.
  unfold get_art_url, _get_icon_from_device, mbind.
  rewrite Hs, Hi. fold (app_icon dev). rewrite Ha, Hc, Hw.
  cbn [negb truthy_opt]. rewrite Hu. reflexivity.
Qed.

Lemma get_art_url_default (dev : Device) (w : DeviceWrapper) (st : MediaStatus) :
  media_status dev = Some st -> images st = [] -> app_icon dev = None ->
  ~ cache_valid TITLE dev w ->
  get_art_url TITLE LIGHT_THUMB DEFAULT_THUMB dev w =
    (Ok (_get_default_icon LIGHT_THUMB DEFAULT_THUMB w), w).
Proof.
  intros Hs Hi Ha Hv.
  assert (Hc : _can_use_cache TITLE dev w = false).
  { destruct (_can_use_cache TITLE dev w) eqn:E; [|reflexivity].
    apply can_use_cache_valid in E. contradiction. }
  unfold get_art_url, _get_icon_from_device, mbind.
  rewrite Hs, Hi. fold (app_icon dev). rewrite Ha, Hc. reflexivity.
Qed.

Lemma get_art_url_no_media_status (dev : Device) (w : DeviceWrapper) :
  media_status dev = None ->
  get_art_url TITLE LIGHT_THUMB DEFAULT_THUMB dev w = (Raise AttributeError, w).
Proof.
  intros Hs. unfold get_art_url, _get_icon_from_device, mbind.
  rewrite Hs. reflexivity.
Qed.


End Icons.

(** C7, as amended.  While the media status is present, [get_art_url]
    decides in this order.  A non-empty image list decides alone: the URL of
    its first image is returned and cached with the current application id
    and primary title, and when that image has no URL the cache is cleared
    and the default icon returned.  With no image, the icon of the running
    application is returned and cached likewise.  With neither, the cached
    URL is returned exactly when the cached application id and title are
    the current ones, and the default icon otherwise, in particular after
    the application id changed. *)
Theorem art_url_priority_and_cache
    (TITLE LIGHT_THUMB DEFAULT_THUMB : string)
    (dev : Device) (w : DeviceWrapper) (st : MediaStatus) :
  media_status dev = Some st ->
  (forall first rest u,
      images st = first :: rest -> image_url first = Some u -> u <> "" ->
      get_art_url TITLE LIGHT_THUMB DEFAULT_THUMB dev w =
        (Ok u, set_cached_icon (Some (fresh_icon TITLE dev u)) w)) /\
  (forall first rest,
      images st = first :: rest -> truthy_opt (image_url first) = false ->
      get_art_url TITLE LIGHT_THUMB DEFAULT_THUMB dev w =
        (Ok (_get_default_icon LIGHT_THUMB DEFAULT_THUMB w), set_cached_icon None w)) /\
  (forall u,
      images st = [] -> app_icon dev = Some u ->
      get_art_url TITLE LIGHT_THUMB DEFAULT_THUMB dev w =
        (Ok u, set_cached_icon (Some (fresh_icon TITLE dev u)) w)) /\
  (images st = [] -> app_icon dev = None -> cache_valid TITLE dev w ->
   exists icon,
     cached_icon w = Some icon /\
     get_art_url TITLE LIGHT_THUMB DEFAULT_THUMB dev w = (Ok (url icon), w)) /\
  (images st = [] -> app_icon dev = None -> ~ cache_valid TITLE dev w ->
   get_art_url TITLE LIGHT_THUMB DEFAULT_THUMB dev w =
     (Ok (_get_default_icon LIGHT_THUMB DEFAULT_THUMB w), w)) /\
  (forall icon,
      images st = [] -> app_icon dev = None -> cached_icon w = Some icon ->
      app_id icon <> dev_app_id dev \/ title icon <> titles_title (titles TITLE dev) ->
      get_art_url TITLE LIGHT_THUMB DEFAULT_THUMB dev w =
        (Ok (_get_default_icon LIGHT_THUMB DEFAULT_THUMB w), w)).
Proof.
  intros Hs. repeat split.
  - intros first rest u. apply get_art_url_image; exact Hs.
  - intros first rest. apply get_art_url_image_without_url; exact Hs.
  - intros u. apply get_art_url_app_icon; exact Hs.
  - apply get_art_url_cached; exact Hs.
  - apply get_art_url_default; exact Hs.
  - intros icon Hi Ha Hw Hne. apply (get_art_url_default _ _ _ _ _ st Hs Hi Ha).
    intros [icon' [Hw' [_ [H1 H2]]]]. rewrite Hw in Hw'. inversion Hw'. subst icon'.
    destruct Hne as [Hne|Hne]; contradiction.
Qed.

Lemma art_url_priority_and_cache_witness :
  get_art_url sample_title sample_light_thumb sample_default_thumb
    (song1_under "A") cached_u1 = (Ok "u1", cached_u1) /\
  get_art_url sample_title sample_light_thumb sample_default_thumb
    (song1_under "B") cached_u1 = (Ok sample_default_thumb, cached_u1).
Proof.
  split.
  - destruct (proj1 (proj2 (proj2 (proj2
      (art_url_priority_and_cache sample_title sample_light_thumb
         sample_default_thumb (song1_under "A") cached_u1 no_status eq_refl))))
      eq_refl eq_refl) as [icon [Hi Hu]].
    + exists {| url := "u1"; app_id := Some "A"; title := Some "Song1" |}.
      repeat split. discriminate.
    + inversion Hi. subst icon. exact Hu.
  - apply (proj2 (proj2 (proj2 (proj2 (proj2
      (art_url_priority_and_cache sample_title sample_light_thumb
         sample_default_thumb (song1_under "B") cached_u1 no_status eq_refl)))))
      {| url := "u1"; app_id := Some "A"; title := Some "Song1" |}
      eq_refl eq_refl eq_refl).
    left. discriminate.
Defined.

(** C7, as stated, fails: when the first image of the media status has no
    URL, the resolver does not go on to the icon of the application, nor to
    a cache entry that is still valid; it clears the cache and returns the
    default icon. *)
Lemma art_url_skips_app_icon_after_image_without_url :
  app_icon image_without_url = Some "https://app.example/icon.png" /\
  _can_use_cache sample_title image_without_url cached_u1 = true /\
  get_art_url sample_title sample_light_thumb sample_default_thumb
    image_without_url cached_u1
    = (Ok sample_default_thumb, set_cached_icon None cached_u1).
Proof. repeat split. Qed.



Example metadata_of_a_track :
  fst (metadata (fun t => Ok "/track/1") sample_title sample_light_thumb
         sample_default_thumb 0 (song1_under "A") cached_u1)
  = Ok {| md_track_id := "/track/1"; md_length := 0; md_art_url := "u1";
          md_url := None; md_title := Some "Song1"; md_artists := [];
          md_album := None; md_album_artists := []; md_disc_number := 0;
          md_track_number := None; md_comments := [] |}.
Proof. reflexivity. Qed.

(** ** Volume *)

Local Open Scope Z_scope.

(** Rounding keeps the sign it is given. *)
Lemma binary_round_aux_sign (sx : bool) (mx ex : Z) (lx : location) :
  match binary_round_aux float_prec float_emax sx mx ex lx with
  | S754_zero s | S754_infinity s | S754_finite s _ _ => s = sx
  | S754_nan => True
  end.
Proof.
  unfold binary_round_aux.
  destruct (shr_fexp float_prec float_emax mx ex lx) as [mrs' e'].
  destruct (shr_fexp float_prec float_emax _ e' loc_Exact) as [mrs'' e''].
  destruct (shr_m mrs''); [reflexivity | | exact I].
  destruct (e'' <=? float_emax - float_prec); reflexivity.
Qed.

Lemma binary_round_sign (sx : bool) (mx : positive) (ex : Z) :
  match binary_round float_prec float_emax sx mx ex with
  | S754_zero s | S754_infinity s | S754_finite s _ _ => s = sx
  | S754_nan => True
  end.
Proof.
  unfold binary_round. destruct (shl_align mx ex _) as [mz ez].
  apply binary_round_aux_sign.
Qed.

Lemma SFltb_zero_l (f : spec_float) :
  SFltb float_zero f = true ->
  match f with
  | S754_infinity s | S754_finite s _ _ => s = false
  | _ => False
  end.
Proof.
  unfold float_zero, SFltb, SFcompare.
  destruct f as [s|s| |s m e]; try destruct s; congruence.
Qed.

Lemma SFltb_zero_r (f : spec_float) :
  SFltb f float_zero = true ->
  match f with
  | S754_infinity s | S754_finite s _ _ => s = true
  | _ => False
  end.
Proof.
  unfold float_zero, SFltb, SFcompare.
  destruct f as [s|s| |s m e]; try destruct s; congruence.
Qed.

(** The float of a decimal has the sign of the decimal, or is zero. *)
Lemma float_of_Decimal_sign (d : Decimal) :
  match float_of_Decimal d with
  | S754_infinity s | S754_finite s _ _ => dec_sign d = if s then -1 else 1
  | _ => True
  end.
Proof.
  destruct d as [c e|s|]; simpl; [|reflexivity|exact I].
  destruct (0 <=? e) eqn:He.
  - apply Z.leb_le in He.
    assert (Hp : 0 < 10 ^ e) by (apply Z.pow_pos_nonneg; lia).
    unfold binary_normalize.
    destruct (c * 10 ^ e) as [|m|m] eqn:Hc; [exact I| |].
    + pose proof (binary_round_sign false m 0) as H.
      destruct (binary_round _ _ false m 0); auto; subst; nia.
    + pose proof (binary_round_sign true m 0) as H.
      destruct (binary_round _ _ true m 0); auto; subst; nia.
  - destruct c as [|m|m]; [exact I| |].
    + destruct (SFdiv_core_binary _ _ _ _ _ _) as [[q e'] l].
      pose proof (binary_round_aux_sign (Z.pos m <? 0) q e' l) as H.
      destruct (binary_round_aux _ _ _ q e' l); auto; subst; reflexivity.
    + destruct (SFdiv_core_binary _ _ _ _ _ _) as [[q e'] l].
      pose proof (binary_round_aux_sign (Z.neg m <? 0) q e' l) as H.
      destruct (binary_round_aux _ _ _ q e' l); auto; subst; reflexivity.
Qed.

Lemma float_of_Decimal_zero (d : Decimal) :
  dec_sign d = 0 ->
  SFltb float_zero (float_of_Decimal d) = false /\
  SFltb (float_of_Decimal d) float_zero = false.
Proof.
  intros Hz. pose proof (float_of_Decimal_sign d) as H.
  destruct (float_of_Decimal d) as [s|s| |s m e];
    try (destruct s; rewrite Hz in H; discriminate);
    try destruct s; split; reflexivity.
Qed.

Lemma div_half_even_nonneg (n d : Z) : 0 <= n -> 0 <= d -> 0 <= div_half_even n d.
Proof.
  intros Hn Hd. unfold div_half_even.
  assert (Hq : 0 <= n / d).
  { destruct (Z.eq_dec d 0) as [->|Hne]; [rewrite Z.div_0_r; lia|].
    apply Z.div_pos; lia. }
  destruct (2 * (n mod d) ?= d); [destruct (Z.even (n / d))| |]; lia.
Qed.

(** The rounding of the decimal context keeps the sign, or gives zero. *)
Lemma dec_fix_sign (c e : Z) (d : Decimal) :
  dec_fix c e = Ok d -> dec_sign d = Z.sgn c \/ dec_sign d = 0.
Proof.
  assert (Hk : forall k, 0 <= k ->
             Z.sgn (Z.sgn c * k) = Z.sgn c \/ Z.sgn (Z.sgn c * k) = 0).
  { intros k Hk. destruct (Z.eq_dec k 0) as [->|Hne].
    - right. rewrite Z.mul_0_r. reflexivity.
    - left. rewrite Z.sgn_mul, Z.sgn_sgn.
      rewrite (Z.sgn_pos k) by lia. lia. }
  unfold dec_fix. destruct (c =? 0).
  - intros H. inversion H. right. reflexivity.
  - destruct (_ >? dec_Etop); [discriminate|].
    destruct (e <? _).
    + set (t := 10 ^ _).
      assert (Ht : 0 <= t) by (subst t; apply Z.pow_nonneg; lia).
      pose proof (div_half_even_nonneg (Z.abs c) t (Z.abs_nonneg c) Ht) as Hm.
      destruct (digits10 _ >? dec_prec).
      * destruct (_ >? dec_Etop); [discriminate|].
        intros H. inversion H. simpl. apply Hk. apply Z.div_pos; lia.
      * intros H. inversion H. simpl. apply Hk. exact Hm.
    + intros H. inversion H. left. reflexivity.
Qed.

Lemma set_volume_eq (dev : Device) (val : Decimal) (cs : CastStatus) (d : Decimal) :
  cast_status dev = Some cs ->
  dec_sub val (Decimal_of_float (volume_level cs)) = Ok d ->
  set_volume dev val =
    if SFltb float_zero (float_of_Decimal d) then Ok [VolumeUp (float_of_Decimal d)]
    else if SFltb (float_of_Decimal d) float_zero
         then Ok [VolumeDown (SFabs (float_of_Decimal d))]
         else Ok [].
Proof.
  intros Hc Hd. unfold set_volume, get_volume. rewrite Hc, Hd. reflexivity.
Qed.

Lemma SFltb_zero_asym (f : spec_float) :
  SFltb float_zero f = true -> SFltb f float_zero = false.
Proof.
  unfold float_zero, SFltb, SFcompare.
  destruct f as [s|s| |s m e]; try destruct s; congruence.
Qed.

(** C9, as amended.  With no cast status [set_volume] sends nothing.  With
    one, it subtracts the current level from the target as decimals, in the
    28-digit context (an overflow there is raised), converts the difference
    to a float, and sends exactly one volume-up command carrying that float
    when the float is positive, which happens only for a positive
    difference; exactly one volume-down command carrying the absolute value
    of the float when it is negative, only for a negative difference; and
    no command when the float is zero, as it is for a difference of zero.
    For finite operands a volume-up command is sent only when the exact
    difference is positive, a volume-down command only when it is negative,
    and none when it is zero. *)
Theorem set_volume_sends_float_delta (dev : Device) (val : Decimal) :
  (cast_status dev = None -> set_volume dev val = Ok []) /\
  (forall cs e,
      cast_status dev = Some cs ->
      dec_sub val (Decimal_of_float (volume_level cs)) = Raise e ->
      set_volume dev val = Raise e) /\
  (forall cs d,
      cast_status dev = Some cs ->
      dec_sub val (Decimal_of_float (volume_level cs)) = Ok d ->
      let delta := float_of_Decimal d in
      (SFltb float_zero delta = true ->
       set_volume dev val = Ok [VolumeUp delta] /\ dec_sign d = 1) /\
      (SFltb delta float_zero = true ->
       set_volume dev val = Ok [VolumeDown (SFabs delta)] /\ dec_sign d = -1) /\
      (SFltb float_zero delta = false -> SFltb delta float_zero = false ->
       set_volume dev val = Ok []) /\
      (dec_sign d = 0 -> set_volume dev val = Ok [])) /\
  (forall cs c1 e1 c2 e2,
      cast_status dev = Some cs ->
      val = Dec c1 e1 -> Decimal_of_float (volume_level cs) = Dec c2 e2 ->
      (exact_delta_sign c1 e1 c2 e2 = 0 -> set_volume dev val = Ok []) /\
      (forall f, set_volume dev val = Ok [VolumeUp f] ->
                 exact_delta_sign c1 e1 c2 e2 = 1) /\
      (forall f, set_volume dev val = Ok [VolumeDown f] ->
                 exact_delta_sign c1 e1 c2 e2 = -1)).
Proof.
  split; [|split; [|split]].
  - intros Hc. unfold set_volume, get_volume. rewrite Hc. reflexivity.
  - intros cs e Hc He. unfold set_volume, get_volume. rewrite Hc, He. reflexivity.
  - intros cs d Hc Hd delta. rewrite (set_volume_eq dev val cs d Hc Hd). fold delta.
    pose proof (float_of_Decimal_sign d) as Hs. fold delta in Hs.
    split; [|split; [|split]].
    + intros H. rewrite H. split; [reflexivity|].
      apply SFltb_zero_l in H. destruct delta; try contradiction; subst; exact Hs.
    + intros H. destruct (SFltb float_zero delta) eqn:E.
      { apply SFltb_zero_asym in E. congruence. }
      rewrite H. split; [reflexivity|].
      apply SFltb_zero_r in H. destruct delta; try contradiction; subst; exact Hs.
    + intros -> ->. reflexivity.
    + intros Hz. destruct (float_of_Decimal_zero d Hz) as [H1 H2].
      fold delta in H1, H2. rewrite H1, H2. reflexivity.
  - intros cs c1 e1 c2 e2 Hc -> Hcur.
    unfold set_volume, get_volume, exact_delta_sign. rewrite Hc, Hcur.
    unfold dec_sub.
    destruct (dec_exact_sub c1 e1 c2 e2) as [c e]. cbn [fst].
    split; [|split].
    + intros Hz. apply (proj1 (Z.sgn_null_iff c)) in Hz. subst c.
      unfold dec_fix. simpl.
      destruct (0 <=? Z.min (Z.max e dec_Etiny) dec_Emax); reflexivity.
    + intros f. destruct (dec_fix c e) as [d|x] eqn:Hd; [|discriminate].
      cbn [bind]. pose proof (float_of_Decimal_sign d) as Hs.
      destruct (SFltb float_zero (float_of_Decimal d)) eqn:E.
      * intros _. apply SFltb_zero_l in E.
        destruct (dec_fix_sign c e d Hd) as [H|H];
          destruct (float_of_Decimal d); try contradiction; subst; lia.
      * destruct (SFltb (float_of_Decimal d) float_zero); discriminate.
    + intros f. destruct (dec_fix c e) as [d|x] eqn:Hd; [|discriminate].
      cbn [bind]. pose proof (float_of_Decimal_sign d) as Hs.
      destruct (SFltb float_zero (float_of_Decimal d)) eqn:E; [discriminate|].
      destruct (SFltb (float_of_Decimal d) float_zero) eqn:E'; [|discriminate].
      intros _. apply SFltb_zero_r in E'.
      destruct (dec_fix_sign c e d Hd) as [H|H];
        destruct (float_of_Decimal d); try contradiction; subst; lia.
Qed.

Lemma set_volume_sends_float_delta_witness :
  set_volume (device_with None None) (Dec 5 (-1)) = Ok [] /\
  set_volume (at_volume (S754_finite false 1 (-2))) (Dec 5 (-1))
    = Ok [VolumeUp (S754_finite false 4503599627370496 (-54))] /\
  set_volume (at_volume (S754_finite false 1 (-1))) (Dec 25 (-2))
    = Ok [VolumeDown (S754_finite false 4503599627370496 (-54))] /\
  set_volume (at_volume (S754_finite false 1 (-1))) (Dec 5 (-1)) = Ok [].
Proof.
  split; [|split; [|split]].
  - apply (proj1 (set_volume_sends_float_delta (device_with None None) (Dec 5 (-1)))).
    reflexivity.
  - apply (proj1 (proj1 (proj2 (proj2 (set_volume_sends_float_delta
             (at_volume (S754_finite false 1 (-2))) (Dec 5 (-1))))) _
             (Dec 25 (-2)) eq_refl eq_refl)).
    reflexivity.
  - apply (proj1 (proj2 (proj1 (proj2 (proj2 (set_volume_sends_float_delta
             (at_volume (S754_finite false 1 (-1))) (Dec 25 (-2))))) _
             (Dec (-25) (-2)) eq_refl eq_refl))).
    reflexivity.
  - apply (proj1 (proj2 (proj2 (proj2 (set_volume_sends_float_delta
             (at_volume (S754_finite false 1 (-1))) (Dec 5 (-1)))))
             _ 5 (-1) 5 (-1) eq_refl eq_refl eq_refl)).
    reflexivity.
Defined.

(** C9, as stated, fails.  A target of 1E-400 over a current level of 0 is a
    positive difference, yet no command is sent, because the float of the
    difference is zero; and a target of 0.1 over a level of 0 sends a
    volume-up command whose float is not the decimal difference 0.1. *)
Lemma set_volume_float_is_not_exact_delta :
  dec_sub (Dec 1 (-400)) (Decimal_of_float (S754_zero false)) = Ok (Dec 1 (-400)) /\
  exact_delta_sign 1 (-400) 0 0 = 1 /\
  set_volume (at_volume (S754_zero false)) (Dec 1 (-400)) = Ok [] /\
  dec_sub (Dec 1 (-1)) (Decimal_of_float (S754_zero false)) = Ok (Dec 1 (-1)) /\
  set_volume (at_volume (S754_zero false)) (Dec 1 (-1))
    = Ok [VolumeUp (S754_finite false 7205759403792794 (-56))] /\
  ~ (float_value false 7205759403792794 (-56) == Decimal_value 1 (-1))%Q.
Proof.
  split; [vm_compute; reflexivity|].
  split; [vm_compute; reflexivity|].
  split; [vm_compute; reflexivity|].
  split; [vm_compute; reflexivity|].
  split; [vm_compute; reflexivity|].
  vm_compute. discriminate.
Qed.

(** * Further properties *)

(** ** Duration and position *)

Local Open Scope Z_scope.

(** X1.  Polling the duration is stable: a second [get_duration] in the
    same device state returns the same value and leaves the adapter as the
    first call left it. *)
Theorem get_duration_poll_stable (dev : Device) (w : DeviceWrapper) :
  get_duration dev (snd (get_duration dev w)) = get_duration dev w.
Proof.
  destruct (reported_duration dev) as [d|] eqn:Hd.
  - rewrite !(get_duration_reported _ _ _ Hd). reflexivity.
  - rewrite !(get_duration_estimated _ _ Hd). unfold estimated_duration.
    destruct (_longest_duration w) as [l|] eqn:El.
    + destruct (negb (l =? 0) && (get_current_position dev <? l)) eqn:E.
      * cbn [snd]. rewrite El, E. reflexivity.
      * destruct (get_current_position dev =? 0) eqn:Ec.
        -- cbn [snd]. rewrite El, E. reflexivity.
        -- cbn [snd set_longest_duration _longest_duration].
           rewrite Z.ltb_irrefl, andb_false_r. reflexivity.
    + cbn [andb]. destruct (get_current_position dev =? 0) eqn:Ec.
      * cbn [snd]. rewrite El. reflexivity.
      * cbn [snd set_longest_duration _longest_duration].
        rewrite Z.ltb_irrefl, andb_false_r. reflexivity.
Qed.

(** X2.  When the device reports no duration, the duration returned is
    never below the current position, and what is stored afterwards, when
    something is, is the value returned or zero. *)
Theorem estimated_duration_covers_position (dev : Device) (w : DeviceWrapper) :
  reported_duration dev = None ->
  get_current_position dev <= fst (get_duration dev w) /\
  (forall l, _longest_duration (snd (get_duration dev w)) = Some l ->
             l = fst (get_duration dev w) \/ fst (get_duration dev w) = 0).
Proof.
  intros Hd. rewrite (get_duration_estimated _ _ Hd). unfold estimated_duration.
  destruct (_longest_duration w) as [l0|] eqn:El.
  - destruct (negb (l0 =? 0) && (get_current_position dev <? l0)) eqn:E.
    + apply andb_true_iff in E. destruct E as [_ E]. apply Z.ltb_lt in E.
      cbn [fst snd]. split; [lia|]. intros l H. rewrite El in H. left. congruence.
    + destruct (get_current_position dev =? 0) eqn:Ec; cbn [fst snd].
      * apply Z.eqb_eq in Ec. split; [lia|]. intros; right; reflexivity.
      * split; [lia|]. intros l H. left. simpl in H. congruence.
  - cbn [andb]. destruct (get_current_position dev =? 0) eqn:Ec; cbn [fst snd].
    + apply Z.eqb_eq in Ec. split; [lia|]. intros; right; reflexivity.
    + split; [lia|]. intros l H. left. simpl in H. congruence.
Qed.

Lemma estimated_duration_covers_position_witness :
  get_current_position (playing_at None 7)
    <= fst (get_duration (playing_at None 7)
              (set_longest_duration (Some 3000000) (new_wrapper false))).
Proof.
  apply (proj1 (estimated_duration_covers_position (playing_at None 7)
                  (set_longest_duration (Some 3000000) (new_wrapper false))
                  eq_refl)).
Defined.

(** X3.  [on_new_status] leaves the adapter as it is exactly when the
    current time is above 0.05 s, the times that round above 0 at one
    decimal; for every other time (0.05 s or less, negative ones included)
    and without a media status it sets the stored longest-observed value to
    [None] and changes nothing else. *)
Theorem on_new_status_keeps_iff_time_known (dev : Device) (w : DeviceWrapper) :
  (forall p, get_current_time dev = Some p -> (1 # 20 < p)%Q ->
             on_new_status dev w = w) /\
  (forall p, get_current_time dev = Some p -> (p <= 1 # 20)%Q ->
             on_new_status dev w = set_longest_duration None w) /\
  (get_current_time dev = None ->
   on_new_status dev w = set_longest_duration None w).
Proof.
  unfold on_new_status. split; [|split].
  - intros p Ht Hp. rewrite (proj2 (has_current_time_iff dev p Ht) Hp). reflexivity.
  - intros p Ht Hp. destruct (has_current_time dev) eqn:E; [|reflexivity].
    apply (has_current_time_iff dev p Ht) in E.
    exfalso. apply (Qlt_not_le _ _ E). exact Hp.
  - intros Ht. unfold has_current_time. rewrite Ht. reflexivity.
Qed.

Lemma on_new_status_keeps_iff_time_known_witness :
  on_new_status (playing_at None (6 # 100))
    (set_longest_duration (Some 3000000) (new_wrapper false))
    = set_longest_duration (Some 3000000) (new_wrapper false) /\
  on_new_status (playing_at None (1 # 20))
    (set_longest_duration (Some 3000000) (new_wrapper false))
    = set_longest_duration None (new_wrapper false) /\
  on_new_status (device_with None None)
    (set_longest_duration (Some 3000000) (new_wrapper false))
    = set_longest_duration None (new_wrapper false).
Proof.
  split; [|split].
  - apply (proj1 (on_new_status_keeps_iff_time_known (playing_at None (6 # 100))
                    (set_longest_duration (Some 3000000) (new_wrapper false)))
             (6 # 100) eq_refl).
    reflexivity.
  - apply (proj1 (proj2 (on_new_status_keeps_iff_time_known
                           (playing_at None (1 # 20))
                           (set_longest_duration (Some 3000000) (new_wrapper false))))
             (1 # 20) eq_refl).
    unfold Qle. simpl. lia.
  - apply (proj2 (proj2 (on_new_status_keeps_iff_time_known (device_with None None)
                           (set_longest_duration (Some 3000000) (new_wrapper false))))
             eq_refl).
Defined.

(** ** Artwork *)

Local Open Scope string_scope.

Section Artwork.

Variable TITLE : string.
Variable LIGHT_THUMB : string.
Variable DEFAULT_THUMB : string.

Lemma get_art_url_sourced (dev : Device) (w : DeviceWrapper) (u : string) :
  device_sourced dev u ->
  get_art_url TITLE LIGHT_THUMB DEFAULT_THUMB dev w =
    (Ok u, set_cached_icon (Some (fresh_icon TITLE dev u)) w).
Proof.
  intros [[st [first [rest [Hs [Hi [Hu Hne]]]]]] | [st [Hs [Hi Ha]]]].
  - apply (get_art_url_image _ _ _ _ _ _ _ _ _ Hs Hi Hu Hne).
  - apply (get_art_url_app_icon _ _ _ _ _ _ _ Hs Hi Ha).
Qed.

Lemma cache_valid_fresh (dev dev' : Device) (w : DeviceWrapper) (u : string) :
  u <> "" ->
  dev_app_id dev' = dev_app_id dev ->
  titles_title (titles TITLE dev') = titles_title (titles TITLE dev) ->
  cache_valid TITLE dev' (set_cached_icon (Some (fresh_icon TITLE dev u)) w).
Proof.
  intros Hne Ha Ht. exists (fresh_icon TITLE dev u).
  unfold fresh_icon. cbn [url app_id title cached_icon set_cached_icon].
  repeat split; congruence.
Qed.

Lemma device_sourced_nonempty (dev : Device) (u : string) :
  device_sourced dev u -> u <> "".
Proof.
  intros [[st [first [rest [_ [_ [_ Hne]]]]]] | [st [_ [_ Ha]]]]; [exact Hne|].
  unfold app_icon in Ha. destruct (cast_status dev) as [cs|]; [|discriminate].
  destruct (truthy_opt (icon_url cs)) eqn:E; [|discriminate].
  rewrite Ha in E. apply truthy_str_true. exact E.
Qed.

End Artwork.

(** X5.  Polling the artwork is stable: a second [get_art_url] in the same
    device state returns the same URL, or raises the same exception, and
    leaves the adapter as the first call left it. *)
Theorem get_art_url_poll_stable
    (TITLE LIGHT_THUMB DEFAULT_THUMB : string) (dev : Device) (w : DeviceWrapper) :
  get_art_url TITLE LIGHT_THUMB DEFAULT_THUMB dev
    (snd (get_art_url TITLE LIGHT_THUMB DEFAULT_THUMB dev w)) =
  get_art_url TITLE LIGHT_THUMB DEFAULT_THUMB dev w.
Proof.
  destruct (media_status dev) as [st|] eqn:Hs.
  2:{ rewrite !(get_art_url_no_media_status _ _ _ _ _ Hs). reflexivity. }
  destruct (images st) as [|first rest] eqn:Hi.
  - destruct (app_icon dev) as [u|] eqn:Ha.
    + rewrite !(get_art_url_app_icon _ _ _ _ _ _ _ Hs Hi Ha). reflexivity.
    + destruct (_can_use_cache TITLE dev w) eqn:Hc.
      * apply can_use_cache_valid in Hc.
        destruct (get_art_url_cached _ LIGHT_THUMB DEFAULT_THUMB _ _ _ Hs Hi Ha Hc)
          as [icon [_ H]].
        rewrite H. cbn [snd]. exact H.
      * assert (Hv : ~ cache_valid TITLE dev w).
        { intros Hv. apply can_use_cache_valid in Hv. congruence. }
        rewrite (get_art_url_default _ _ _ _ _ _ Hs Hi Ha Hv). cbn [snd].
        apply (get_art_url_default _ _ _ _ _ _ Hs Hi Ha Hv).
  - destruct (truthy_opt (image_url first)) eqn:Hu.
    + destruct (image_url first) as [u|] eqn:Hf; [|discriminate].
      assert (Hne : u <> "") by (apply truthy_str_true; exact Hu).
      rewrite !(get_art_url_image _ _ _ _ _ _ _ _ _ Hs Hi Hf Hne). reflexivity.
    + rewrite !(get_art_url_image_without_url _ _ _ _ _ _ _ _ Hs Hi Hu).
      reflexivity.
Qed.

Lemma cache_valid_set_icon (TITLE : string) (dev : Device) (w : DeviceWrapper)
    (lighter : bool) :
  cache_valid TITLE dev (set_icon lighter w) <-> cache_valid TITLE dev w.
Proof. unfold cache_valid, set_icon. simpl. reflexivity. Qed.

(** X6.  The icon cache serves the last URL the device offered: after a
    query answered from the device (first image, or application icon), a
    query in a state where the device offers nothing, under the same
    application id and primary title, returns that URL and changes nothing.
    After a query that met an image without URL, the cache is empty and the
    same state gets the default icon. *)
Theorem icon_cache_serves_last_device_url
    (TITLE LIGHT_THUMB DEFAULT_THUMB : string)
    (dev later : Device) (w : DeviceWrapper) :
  nothing_sourced later ->
  (forall u,
      device_sourced dev u ->
      dev_app_id later = dev_app_id dev ->
      titles_title (titles TITLE later) = titles_title (titles TITLE dev) ->
      get_art_url TITLE LIGHT_THUMB DEFAULT_THUMB later
        (snd (get_art_url TITLE LIGHT_THUMB DEFAULT_THUMB dev w)) =
      (Ok u, snd (get_art_url TITLE LIGHT_THUMB DEFAULT_THUMB dev w))) /\
  (forall st first rest,
      media_status dev = Some st -> images st = first :: rest ->
      truthy_opt (image_url first) = false ->
      fst (get_art_url TITLE LIGHT_THUMB DEFAULT_THUMB later
             (snd (get_art_url TITLE LIGHT_THUMB DEFAULT_THUMB dev w))) =
      Ok (if light_icon w then LIGHT_THUMB else DEFAULT_THUMB)).
Proof.
  intros [st2 [Hs2 [Hi2 Ha2]]]. split.
  - intros u Hsrc Happ Htitle.
    pose proof (device_sourced_nonempty dev u Hsrc) as Hne.
    rewrite (get_art_url_sourced TITLE LIGHT_THUMB DEFAULT_THUMB dev w u Hsrc).
    cbn [snd].
    destruct (get_art_url_cached TITLE LIGHT_THUMB DEFAULT_THUMB later _ st2
                Hs2 Hi2 Ha2 (cache_valid_fresh TITLE dev later w u Hne Happ Htitle))
      as [icon [Hw H]].
    simpl in Hw. inversion Hw. subst icon. exact H.
  - intros st first rest Hs Hi Hu.
    rewrite (get_art_url_image_without_url _ _ _ _ _ _ _ _ Hs Hi Hu). cbn [snd].
    rewrite (get_art_url_default TITLE LIGHT_THUMB DEFAULT_THUMB later _ st2 Hs2 Hi2 Ha2).
    + reflexivity.
    + intros [icon [Hw _]]. discriminate.
Qed.

Lemma icon_cache_serves_last_device_url_witness :
  get_art_url sample_title sample_light_thumb sample_default_thumb (song1_under "A")
    (snd (get_art_url sample_title sample_light_thumb sample_default_thumb
            song1_with_app_icon (new_wrapper false)))
  = (Ok "https://app.example/icon.png",
     snd (get_art_url sample_title sample_light_thumb sample_default_thumb
            song1_with_app_icon (new_wrapper false))).
Proof.
  apply (proj1 (icon_cache_serves_last_device_url
                  sample_title sample_light_thumb sample_default_thumb
                  song1_with_app_icon (song1_under "A") (new_wrapper false)
                  (ex_intro _ no_status (conj eq_refl (conj eq_refl eq_refl))))
               "https://app.example/icon.png").
  - right. exists no_status. repeat split.
  - reflexivity.
  - reflexivity.
Defined.

(** X7.  [set_icon] only chooses between the two default icons: a URL the
    device offers is returned whatever the flag, and when the device offers
    nothing and the cache does not apply, the light icon is returned for
    [True] and the dark one for [False]. *)
Theorem set_icon_chooses_default_only
    (TITLE LIGHT_THUMB DEFAULT_THUMB : string)
    (dev : Device) (w : DeviceWrapper) (lighter : bool) :
  (forall u, device_sourced dev u ->
             fst (get_art_url TITLE LIGHT_THUMB DEFAULT_THUMB dev (set_icon lighter w))
             = Ok u) /\
  (nothing_sourced dev -> ~ cache_valid TITLE dev w ->
   get_art_url TITLE LIGHT_THUMB DEFAULT_THUMB dev (set_icon lighter w) =
     (Ok (if lighter then LIGHT_THUMB else DEFAULT_THUMB), set_icon lighter w)) /\
  (nothing_sourced dev -> cache_valid TITLE dev w ->
   fst (get_art_url TITLE LIGHT_THUMB DEFAULT_THUMB dev (set_icon lighter w)) =
   fst (get_art_url TITLE LIGHT_THUMB DEFAULT_THUMB dev w)).
Proof.
  split; [|split].
  - intros u Hsrc. rewrite (get_art_url_sourced _ _ _ _ _ _ Hsrc). reflexivity.
  - intros [st [Hs [Hi Ha]]] Hv.
    rewrite (get_art_url_default TITLE LIGHT_THUMB DEFAULT_THUMB dev
               (set_icon lighter w) st Hs Hi Ha).
    + reflexivity.
    + intros Hv'. apply cache_valid_set_icon in Hv'. contradiction.
  - intros [st [Hs [Hi Ha]]] Hv.
    destruct (get_art_url_cached TITLE LIGHT_THUMB DEFAULT_THUMB dev w st Hs Hi Ha Hv)
      as [icon [Hw H]].
    destruct (get_art_url_cached TITLE LIGHT_THUMB DEFAULT_THUMB dev
                (set_icon lighter w) st Hs Hi Ha
                (proj2 (cache_valid_set_icon TITLE dev w lighter) Hv))
      as [icon' [Hw' H']].
    rewrite H, H'. simpl in Hw'. cbn [fst]. congruence.
Qed.

Lemma set_icon_chooses_default_only_witness :
  get_art_url sample_title sample_light_thumb sample_default_thumb
    (song1_under "B") (set_icon true cached_u1)
  = (Ok sample_light_thumb, set_icon true cached_u1).
Proof.
  apply (proj1 (proj2 (set_icon_chooses_default_only
                         sample_title sample_light_thumb sample_default_thumb
                         (song1_under "B") cached_u1 true))).
  - exists no_status. repeat split.
  - intros [icon [Hw [_ [Ha _]]]]. inversion Hw. subst icon. discriminate.
Defined.

(** All that [get_art_url] writes is the cached icon. *)
Lemma get_art_url_writes_cache_only
    (TITLE LIGHT_THUMB DEFAULT_THUMB : string) (dev : Device) (w : DeviceWrapper) :
  exists v, snd (get_art_url TITLE LIGHT_THUMB DEFAULT_THUMB dev w)
            = set_cached_icon v w.
Proof.
  assert (Hw : w = set_cached_icon (cached_icon w) w) by (destruct w; reflexivity).
  destruct (media_status dev) as [st|] eqn:Hs.
  2:{ rewrite (get_art_url_no_media_status _ _ _ _ _ Hs).
      exists (cached_icon w). exact Hw. }
  destruct (images st) as [|first rest] eqn:Hi.
  - destruct (app_icon dev) as [u|] eqn:Ha.
    + rewrite (get_art_url_app_icon _ _ _ _ _ _ _ Hs Hi Ha). eexists; reflexivity.
    + destruct (_can_use_cache TITLE dev w) eqn:Hc.
      * apply can_use_cache_valid in Hc.
        destruct (get_art_url_cached _ LIGHT_THUMB DEFAULT_THUMB _ _ _ Hs Hi Ha Hc)
          as [icon [_ H]].
        rewrite H. exists (cached_icon w). exact Hw.
      * assert (Hv : ~ cache_valid TITLE dev w).
        { intros Hv. apply can_use_cache_valid in Hv. congruence. }
        rewrite (get_art_url_default _ LIGHT_THUMB DEFAULT_THUMB _ _ _ Hs Hi Ha Hv).
        exists (cached_icon w). exact Hw.
  - destruct (truthy_opt (image_url first)) eqn:Hu.
    + destruct (image_url first) as [u|] eqn:Hf; [|discriminate].
      assert (Hne : u <> "") by (apply truthy_str_true; exact Hu).
      rewrite (get_art_url_image _ _ _ _ _ _ _ _ _ Hs Hi Hf Hne).
      eexists; reflexivity.
    + rewrite (get_art_url_image_without_url _ _ _ _ _ _ _ _ Hs Hi Hu).
      eexists; reflexivity.
Qed.

(** X8.  The duration estimator and the icon cache do not interfere:
    [get_duration] and [on_new_status] leave the cached icon and the icon
    preference as they are, and [get_art_url] and [set_icon] leave the
    longest-observed duration as it is; [get_art_url] keeps the icon
    preference too. *)
Theorem estimator_and_icon_cache_are_separate
    (TITLE LIGHT_THUMB DEFAULT_THUMB : string)
    (dev : Device) (w : DeviceWrapper) (lighter : bool) :
  icon_fields (snd (get_duration dev w)) = icon_fields w /\
  icon_fields (on_new_status dev w) = icon_fields w /\
  _longest_duration (snd (get_art_url TITLE LIGHT_THUMB DEFAULT_THUMB dev w))
    = _longest_duration w /\
  light_icon (snd (get_art_url TITLE LIGHT_THUMB DEFAULT_THUMB dev w))
    = light_icon w /\
  _longest_duration (set_icon lighter w) = _longest_duration w.
Proof.
  destruct (get_art_url_writes_cache_only TITLE LIGHT_THUMB DEFAULT_THUMB dev w)
    as [v Hv].
  split; [|split; [|split; [|split]]].
  - unfold get_duration.
    destruct (match media_status dev with Some s => duration s | None => None end);
      [reflexivity|].
    destruct (_longest_duration w) as [l|].
    + destruct (truthy_int l && (l >? get_current_position dev)); [reflexivity|].
      destruct (truthy_int (get_current_position dev)); reflexivity.
    + destruct (truthy_int (get_current_position dev)); reflexivity.
  - unfold on_new_status. destruct (has_current_time dev); reflexivity.
  - rewrite Hv. reflexivity.
  - rewrite Hv. reflexivity.
  - reflexivity.
Qed.

(** ** Content identifiers and the URL of a video *)

Lemma sexists_app (p : ascii -> bool) (a b : string) :
  sexists p (a ++ b) = sexists p a || sexists p b.
Proof.
  induction a as [|c r IH]; simpl; [reflexivity|].
  rewrite IH, orb_assoc. reflexivity.
Qed.

Lemma break_none (p : ascii -> bool) (s : string) :
  sexists p s = false -> break p s = (s, "").
Proof.
  induction s as [|c r IH]; simpl; [reflexivity|].
  intros H. apply orb_false_iff in H. destruct H as [H1 H2].
  rewrite H1, (IH H2). reflexivity.
Qed.

Lemma sfilter_none (p : ascii -> bool) (s : string) :
  sexists p s = false -> sfilter (fun c => negb (p c)) s = s.
Proof.
  induction s as [|c r IH]; simpl; [reflexivity|].
  intros H. apply orb_false_iff in H. destruct H as [H1 H2].
  rewrite H1, (IH H2). reflexivity.
Qed.

Lemma split_all_none (sep : ascii) (s : string) :
  sexists (is_char sep) s = false -> split_all sep s = [s].
Proof.
  induction s as [|c r IH]; simpl; [reflexivity|].
  intros H. apply orb_false_iff in H. destruct H as [H1 H2].
  unfold is_char in H1. rewrite Ascii.eqb_sym in H1.
  rewrite H1, (IH H2). reflexivity.
Qed.

Lemma replace_char_none (a b : ascii) (s : string) :
  sexists (is_char a) s = false -> replace_char a b s = s.
Proof.
  unfold replace_char. induction s as [|c r IH]; simpl; [reflexivity|].
  intros H. apply orb_false_iff in H. destruct H as [H1 H2].
  unfold is_char in H1. rewrite Ascii.eqb_sym in H1.
  rewrite H1, (IH H2). reflexivity.
Qed.

Lemma query_special_parts (c : string) :
  sexists is_query_special c = false ->
  sexists is_unsafe_url_byte c = false /\ sexists (is_char "#") c = false /\
  sexists (is_char "&") c = false /\ sexists (is_char "+") c = false /\
  sexists (is_char "%") c = false.
Proof.
  intros H.
  repeat split; apply (sexists_weaken _ is_query_special); try exact H;
    intros x Hx; unfold is_query_special; rewrite Hx;
    rewrite ?orb_true_r; reflexivity.
Qed.

Lemma path_special_parts (c : string) :
  sexists is_path_special c = false ->
  sexists is_unsafe_url_byte c = false /\ sexists (is_char "#") c = false /\
  sexists (is_char "?") c = false /\ sexists (is_char ";") c = false.
Proof.
  intros H.
  repeat split; apply (sexists_weaken _ is_path_special); try exact H;
    intros x Hx; unfold is_path_special; rewrite Hx;
    rewrite ?orb_true_r; reflexivity.
Qed.

(** What [urlparse] finds in a watch URL that ends in a plain identifier. *)
Lemma urlparse_fields_watch (c : string) :
  sexists is_query_special c = false ->
  urlparse_fields (YoutubeUrl.value YoutubeUrl.watch ++ c) =
    {| scheme := "https"; netloc := "youtube.com"; path := "/watch";
       params := ""; query := "v=" ++ c; fragment := "" |}.
Proof.
  intros H. destruct (query_special_parts c H) as [Hu [Hh _]].
  change (YoutubeUrl.value YoutubeUrl.watch ++ c)
    with ("https://youtube.com/watch?v=" ++ c).
  unfold urlparse_fields.
  change (lstrip is_c0_or_space ("https://youtube.com/watch?v=" ++ c))
    with ("https://youtube.com/watch?v=" ++ c).
  rewrite sfilter_none
    by (rewrite sexists_app, Hu; reflexivity).
  change (split_scheme ("https://youtube.com/watch?v=" ++ c))
    with ("https", "//youtube.com/watch?v=" ++ c).
  cbn beta iota.
  change (split_netloc ("//youtube.com/watch?v=" ++ c))
    with ("youtube.com", "/watch?v=" ++ c).
  cbn beta iota.
  replace (split_once "#" ("/watch?v=" ++ c)) with ("/watch?v=" ++ c, "").
  - reflexivity.
  - unfold split_once. rewrite (break_none (is_char "#")); [reflexivity|].
    rewrite sexists_app, Hh. reflexivity.
Qed.

(** What [urlparse] finds in a short URL that ends in a plain identifier. *)
Lemma urlparse_fields_short (c : string) :
  sexists is_path_special c = false ->
  urlparse_fields ("https://youtu.be/" ++ c) =
    {| scheme := "https"; netloc := "youtu.be"; path := "/" ++ c;
       params := ""; query := ""; fragment := "" |}.
Proof.
  intros H. destruct (path_special_parts c H) as [Hu [Hh [Hq Hs]]].
  unfold urlparse_fields.
  change (lstrip is_c0_or_space ("https://youtu.be/" ++ c))
    with ("https://youtu.be/" ++ c).
  rewrite sfilter_none
    by (rewrite sexists_app, Hu; reflexivity).
  change (split_scheme ("https://youtu.be/" ++ c))
    with ("https", "//youtu.be/" ++ c).
  cbn beta iota.
  change (split_netloc ("//youtu.be/" ++ c)) with ("youtu.be", "/" ++ c).
  cbn beta iota.
  assert (Hsplit : forall sep, sexists (is_char sep) c = false ->
                     is_char sep "/" = false ->
                     split_once sep ("/" ++ c) = ("/" ++ c, "")).
  { intros sep Hsep Hslash. unfold split_once.
    rewrite (break_none (is_char sep)); [reflexivity|].
    rewrite sexists_app, Hsep. simpl. rewrite Hslash. reflexivity. }
  rewrite (Hsplit "#"%char Hh eq_refl). cbn beta iota.
  rewrite (Hsplit "?"%char Hq eq_refl). cbn beta iota.
  replace (sexists (is_char ";") ("/" ++ c)) with false
    by (rewrite sexists_app, Hs; reflexivity).
  rewrite andb_false_r. reflexivity.
Qed.

Section VideoUrl.

Variable bracketed_host_ok : string -> bool.
Variable unquote_escapes : string -> string.
Variable guess_type : string -> option string.

Lemma query_values_watch (c : string) :
  c <> "" -> sexists is_query_special c = false ->
  query_values unquote_escapes (YoutubeUrl.value YoutubeUrl.watch ++ c) "v" = [c].
Proof.
  intros Hc H. destruct (query_special_parts c H) as [_ [_ [Ha [Hp Hq]]]].
  unfold query_values. rewrite (urlparse_fields_watch c H). cbn [query].
  unfold parse_qsl.
  rewrite split_all_none by (rewrite sexists_app, Ha; reflexivity).
  cbn [flat_map].
  change (break (is_char "=") ("v=" ++ c)) with ("v", "=" ++ c).
  cbn [append].
  replace (truthy_str c) with true.
  - rewrite (replace_char_none "+" " " c Hp).
    unfold unquote. rewrite Hq. reflexivity.
  - unfold truthy_str. destruct c; [congruence | reflexivity].
Qed.

Lemma get_content_id_watch (c : string) :
  c <> "" -> sexists is_query_special c = false ->
  get_content_id bracketed_host_ok unquote_escapes
    (YoutubeUrl.value YoutubeUrl.watch ++ c) = Ok (Some c).
Proof.
  intros Hc H. rewrite get_content_id_long.
  - rewrite (query_values_watch c Hc H). reflexivity.
  - unfold host. rewrite (urlparse_fields_watch c H). reflexivity.
Qed.

Lemma get_content_id_short_plain (c : string) :
  sexists is_path_special c = false ->
  get_content_id bracketed_host_ok unquote_escapes ("https://youtu.be/" ++ c)
    = Ok (Some c).
Proof.
  intros H. rewrite get_content_id_short.
  - rewrite (urlparse_fields_short c H). reflexivity.
  - unfold host. rewrite (urlparse_fields_short c H). reflexivity.
Qed.

End VideoUrl.

(** X10.  [get_content_id] inverts [YoutubeUrl.get_url]: the URL made for a
    video id that is not empty and holds none of the characters the query
    syntax gives a meaning to (tab, line feed, carriage return, ["#"],
    ["&"], ["+"], ["%"]) is a YouTube URL, and its content id is that video
    id again. *)
Theorem get_content_id_inverts_get_url
    (bracketed_host_ok : string -> bool) (unquote_escapes : string -> string)
    (c u : string) :
  YoutubeUrl.get_url (Some c) = Some u ->
  sexists is_query_special c = false ->
  u = YoutubeUrl.value YoutubeUrl.watch ++ c /\
  is_youtube bracketed_host_ok u = Ok true /\
  get_content_id bracketed_host_ok unquote_escapes u = Ok (Some c).
Proof.
  unfold YoutubeUrl.get_url. intros Hu Hs.
  assert (Hc : c <> "") by (intros ->; discriminate).
  destruct (truthy_str c); [|discriminate].
  assert (Hu' : u = YoutubeUrl.value YoutubeUrl.watch ++ c) by congruence.
  clear Hu. subst u. split; [reflexivity|]. split.
  - assert (Hh : host (YoutubeUrl.value YoutubeUrl.watch ++ c) = "youtube.com")
      by (unfold host; rewrite (urlparse_fields_watch c Hs); reflexivity).
    rewrite is_youtube_eq, Hh. reflexivity.
  - apply get_content_id_watch; assumption.
Qed.

Lemma get_content_id_inverts_get_url_witness :
  get_content_id any_bracketed_host no_escapes
    "https://youtube.com/watch?v=dQw4w9WgXcQ" = Ok (Some "dQw4w9WgXcQ").
Proof.
  apply (proj2 (proj2 (get_content_id_inverts_get_url any_bracketed_host no_escapes
                         "dQw4w9WgXcQ" "https://youtube.com/watch?v=dQw4w9WgXcQ"
                         eq_refl eq_refl))).
Defined.

(** X11.  The URL that [_get_url] publishes for a video of the active
    YouTube application plays that video again: with a content id that is
    not empty, does not start with ["http"] and holds no character of the
    query syntax, [_get_url] gives the watch URL of the id, [open_uri] of
    that URL sends one play command for the id, without a launch, and
    [add_track] of it queues the id and, when it is to be the current
    track, plays it. *)
Theorem open_uri_of_get_url_plays_same_video
    (bracketed_host_ok : string -> bool) (unquote_escapes : string -> string)
    (guess_type : string -> option string)
    (dev : Device) (st : MediaStatus) (c : string) :
  media_status dev = Some st -> content_id st = Some c ->
  dev_yt_is_active dev = true ->
  c <> "" -> startswith c "http" = false ->
  sexists is_query_special c = false ->
  exists u,
    _get_url dev = Some u /\
    open_uri bracketed_host_ok unquote_escapes guess_type dev u
      = Ok [YtPlayVideo c] /\
    forall after_track set_as_current,
      add_track bracketed_host_ok unquote_escapes guess_type dev u
                after_track set_as_current
        = Ok (YtAddToQueue c :: if set_as_current then [YtPlayVideo c] else []).
Proof.
  intros Hst Hid Hact Hc Hhttp Hs.
  assert (Ht : truthy_str c = true)
    by (unfold truthy_str; destruct c; [congruence | reflexivity]).
  exists (YoutubeUrl.value YoutubeUrl.watch ++ c). split; [|split].
  - unfold _get_url, _is_youtube_vid, YoutubeUrl.get_url.
    rewrite Hst, Hid, Ht, Hact, Hhttp. reflexivity.
  - unfold open_uri, _play_youtube.
    rewrite (get_content_id_watch bracketed_host_ok unquote_escapes c Hc Hs).
    cbn [bind]. rewrite Ht, Hact. reflexivity.
  - intros after_track set_as_current. unfold add_track.
    rewrite (get_content_id_watch bracketed_host_ok unquote_escapes c Hc Hs).
    cbn [bind]. rewrite Ht. destruct set_as_current; reflexivity.
Qed.

Lemma open_uri_of_get_url_plays_same_video_witness :
  exists u,
    _get_url (youtube_playing "dQw4w9WgXcQ") = Some u /\
    open_uri any_bracketed_host no_escapes no_mimetype
      (youtube_playing "dQw4w9WgXcQ") u = Ok [YtPlayVideo "dQw4w9WgXcQ"].
Proof.
  destruct (open_uri_of_get_url_plays_same_video any_bracketed_host no_escapes
              no_mimetype (youtube_playing "dQw4w9WgXcQ") _ "dQw4w9WgXcQ"
              eq_refl eq_refl eq_refl ltac:(discriminate) eq_refl eq_refl)
    as [u [Hu [Ho _]]].
  exists u. split; [exact Hu | exact Ho].
Defined.

(** X12.  A short URL, ["https://youtu.be/"] followed by a text without tab,
    line feed, carriage return, ["#"], ["?"] and [";"], has that text as
    its content id.  [open_uri] plays it on the YouTube application,
    launched first when it is not active; when the text is empty the
    content id is the empty text and the URL is played as generic media. *)
Theorem open_uri_short_url
    (bracketed_host_ok : string -> bool) (unquote_escapes : string -> string)
    (guess_type : string -> option string) (dev : Device) (c : string) :
  sexists is_path_special c = false ->
  get_content_id bracketed_host_ok unquote_escapes ("https://youtu.be/" ++ c)
    = Ok (Some c) /\
  open_uri bracketed_host_ok unquote_escapes guess_type dev ("https://youtu.be/" ++ c)
    = Ok (if c =? "" then
            [PlayMedia "https://youtu.be/" (guess_type "https://youtu.be/")]
          else if dev_yt_is_active dev then [YtPlayVideo c]
          else [YtLaunch; YtPlayVideo c]).
Proof.
  intros Hs.
  pose proof (get_content_id_short_plain bracketed_host_ok unquote_escapes c Hs)
    as Hid.
  split; [exact Hid|].
  unfold open_uri, _play_youtube. rewrite Hid. cbn [bind]. unfold truthy_str.
  destruct (c =? "") eqn:E; cbn [negb].
  - apply String.eqb_eq in E. subst c. reflexivity.
  - destruct (dev_yt_is_active dev); reflexivity.
Qed.

Lemma open_uri_short_url_witness :
  open_uri any_bracketed_host no_escapes no_mimetype (device_with None None)
    "https://youtu.be/dQw4w9WgXcQ" = Ok [YtLaunch; YtPlayVideo "dQw4w9WgXcQ"].
Proof.
  apply (proj2 (open_uri_short_url any_bracketed_host no_escapes no_mimetype
                  (device_with None None) "dQw4w9WgXcQ" eq_refl)).
Defined.

(** X13.  A URI that [urlparse] accepts, also case-folded, and whose host is
    not exactly ["youtube.com"] or ["youtu.be"] has no content id and is
    played as generic media, with the type [guess_type] finds: [open_uri]
    sends one [play_media] command; [add_track] sends that command when the
    track is to be the current one and nothing otherwise.  This holds for
    the hosts [is_youtube] accepts as well, such as ["www.youtube.com"]. *)
Theorem other_hosts_play_as_generic_media
    (bracketed_host_ok : string -> bool) (unquote_escapes : string -> string)
    (guess_type : string -> option string) (dev : Device) (uri : string) :
  check_netloc bracketed_host_ok (host uri) = true ->
  check_netloc bracketed_host_ok (casefold (host uri)) = true ->
  host uri <> "youtube.com" -> host uri <> "youtu.be" ->
  get_content_id bracketed_host_ok unquote_escapes uri = Ok None /\
  open_uri bracketed_host_ok unquote_escapes guess_type dev uri
    = Ok [PlayMedia uri (guess_type uri)] /\
  forall after_track set_as_current,
    add_track bracketed_host_ok unquote_escapes guess_type dev uri
              after_track set_as_current
      = Ok (if set_as_current then [PlayMedia uri (guess_type uri)] else []).
Proof.
  intros Hc Hc' Hl Hs.
  assert (Hid : get_content_id bracketed_host_ok unquote_escapes uri = Ok None).
  { apply (get_content_id_other bracketed_host_ok unquote_escapes uri
             (urlparse_fields uri) (urlparse_fields (casefold uri)));
      try assumption.
    - rewrite urlparse_eq, Hc. reflexivity.
    - rewrite urlparse_eq, host_casefold, Hc'. reflexivity. }
  assert (Ho : open_uri bracketed_host_ok unquote_escapes guess_type dev uri
                 = Ok [PlayMedia uri (guess_type uri)]).
  { unfold open_uri. rewrite Hid. reflexivity. }
  split; [exact Hid|]. split; [exact Ho|].
  intros after_track set_as_current. unfold add_track. rewrite Hid. cbn [bind].
  destruct set_as_current; [|reflexivity]. rewrite Ho. reflexivity.
Qed.

Lemma other_hosts_play_as_generic_media_witness :
  is_youtube any_bracketed_host "https://www.youtube.com/watch?v=abc123" = Ok true /\
  open_uri any_bracketed_host no_escapes no_mimetype (device_with None None)
    "https://www.youtube.com/watch?v=abc123"
    = Ok [PlayMedia "https://www.youtube.com/watch?v=abc123" None].
Proof.
  split; [reflexivity|].
  apply (proj1 (proj2 (other_hosts_play_as_generic_media any_bracketed_host
                         no_escapes no_mimetype (device_with None None)
                         "https://www.youtube.com/watch?v=abc123"
                         eq_refl eq_refl ltac:(discriminate) ltac:(discriminate)))).
Defined.

(** ** Volume *)

Local Open Scope Z_scope.

Lemma dec_sub_same (c e : Z) : exists e', dec_sub (Dec c e) (Dec c e) = Ok (Dec 0 e').
Proof.
  unfold dec_sub, dec_exact_sub.
  replace (c * 10 ^ (e - Z.min e e) - c * 10 ^ (e - Z.min e e)) with 0 by lia.
  unfold dec_fix. cbn [Z.eqb]. eexists. reflexivity.
Qed.

(** X15.  Setting the volume to the value [get_volume] has just returned
    sends no command: the difference is zero for a finite level, and a NaN
    for a NaN level, and neither is above or below zero.  For an infinite
    level the subtraction of the decimals raises [InvalidOperation]. *)
Theorem set_volume_to_current_sends_nothing (dev : Device) (current : Decimal) :
  get_volume dev = Some current ->
  set_volume dev current =
    match current with
    | DecInfinity _ => Raise DecimalInvalidOperation
    | _ => Ok []
    end.
Proof.
  intros H. unfold set_volume. rewrite H.
  destruct current as [c e|s|].
  - destruct (dec_sub_same c e) as [e' ->]. cbn [bind].
    destruct (float_of_Decimal_zero (Dec 0 e') eq_refl) as [-> ->]. reflexivity.
  - unfold dec_sub. rewrite Bool.eqb_reflx. reflexivity.
  - reflexivity.
Qed.

Lemma set_volume_to_current_sends_nothing_witness :
  set_volume (at_volume (S754_finite false 1 (-2))) (Dec 25 (-2)) = Ok [] /\
  set_volume (at_volume (S754_infinity false)) (DecInfinity false)
    = Raise DecimalInvalidOperation.
Proof.
  split.
  - apply (set_volume_to_current_sends_nothing
             (at_volume (S754_finite false 1 (-2))) (Dec 25 (-2)) eq_refl).
  - apply (set_volume_to_current_sends_nothing
             (at_volume (S754_infinity false)) (DecInfinity false) eq_refl).
Defined.

(** X16.  [get_volume] is exact: the decimal it returns for a finite level
    denotes the same number as the float of the cast status, a zero level
    gives the decimal zero, and there is a volume exactly when there is a
    cast status. *)
Theorem get_volume_exact (dev : Device) :
  (get_volume dev = None <-> cast_status dev = None) /\
  forall cs,
    cast_status dev = Some cs ->
    match volume_level cs with
    | S754_finite s m e =>
        exists c x, get_volume dev = Some (Dec c x) /\
                    (Decimal_value c x == float_value s m e)%Q
    | S754_zero _ => get_volume dev = Some (Dec 0 0)
    | S754_infinity s => get_volume dev = Some (DecInfinity s)
    | S754_nan => get_volume dev = Some DecNaN
    end.
Proof.
  unfold get_volume. split.
  - destruct (cast_status dev); split; congruence.
  - intros cs ->. destruct (volume_level cs) as [s|s| |s m e]; try reflexivity.
    unfold Decimal_of_float, Decimal_value, float_value.
    destruct (0 <=? e) eqn:He.
    + eexists; eexists. split; [reflexivity|]. cbn [Z.leb Z.compare].
      rewrite Z.pow_0_r, Z.mul_1_r. reflexivity.
    + eexists; eexists. split; [reflexivity|]. rewrite He.
      apply Z.leb_gt in He.
      assert (H2 : 0 < 2 ^ (- e)) by (apply Z.pow_pos_nonneg; lia).
      assert (H10 : 0 < 10 ^ (- e)) by (apply Z.pow_pos_nonneg; lia).
      unfold Qeq. cbn [Qnum Qden].
      rewrite !Z2Pos.id by assumption.
      replace 10 with (2 * 5) by reflexivity. rewrite Z.pow_mul_l. ring.
Qed.

Lemma get_volume_exact_witness :
  exists c x,
    get_volume (at_volume (S754_finite false 1 (-2))) = Some (Dec c x) /\
    (Decimal_value c x == float_value false 1 (-2))%Q.
Proof.
  apply (proj2 (get_volume_exact (at_volume (S754_finite false 1 (-2)))) _ eq_refl).
Defined.

(** ** Device locator *)

Lemma first_match_some (test : Chromecast -> bool) (devices : list Chromecast)
    (d : Chromecast) :
  first_match test devices = Some d <->
  exists before after,
    devices = (before ++ d :: after)%list /\ test d = true /\
    forall x, In x before -> test x = false.
Proof.
  induction devices as [|a l IH]; simpl.
  - split; [discriminate|]. intros [before [after [H _]]].
    destruct before; discriminate.
  - destruct (test a) eqn:E.
    + split.
      * intros H. injection H as <-. exists [], l.
        split; [reflexivity|]. split; [exact E|]. intros x [].
      * intros [before [after [H [Ht Hb]]]].
        destruct before as [|b before]; simpl in H; injection H as -> ->.
        -- reflexivity.
        -- rewrite (Hb b (or_introl eq_refl)) in E. discriminate.
    + rewrite IH. split.
      * intros [before [after [-> [Ht Hb]]]]. exists (a :: before), after.
        split; [reflexivity|]. split; [exact Ht|].
        intros x [<-|Hx]; [exact E | exact (Hb x Hx)].
      * intros [before [after [H [Ht Hb]]]].
        destruct before as [|b before]; simpl in H; injection H as -> ->.
        -- congruence.
        -- exists before, after. split; [reflexivity|]. split; [exact Ht|].
           intros x Hx. apply Hb. right. exact Hx.
Qed.

Lemma first_match_none (test : Chromecast -> bool) (devices : list Chromecast) :
  first_match test devices = None <-> forall x, In x devices -> test x = false.
Proof.
  induction devices as [|a l IH]; simpl.
  - split; [intros _ x [] | reflexivity].
  - destruct (test a) eqn:E.
    + split; [discriminate|]. intros H. rewrite (H a (or_introl eq_refl)) in E.
      discriminate.
    + rewrite IH. split.
      * intros H x [<-|Hx]; [exact E | exact (H x Hx)].
      * intros H x Hx. apply H. right. exact Hx.
Qed.

Lemma truthy_str_of_nonempty (s : string) : s <> "" -> truthy_str s = true.
Proof. unfold truthy_str. destruct s; [congruence | reflexivity]. Qed.

Lemma get_device_found_ok (get_chromecasts : nat -> list Chromecast)
    (name : option string) (n : nat) :
  exists device, found (get_device get_chromecasts name n) = Ok device.
Proof.
  unfold get_device, get_devices, get_first, lookup_of.
  destruct (negb (truthy_opt name)); [|destruct name];
    try (destruct (get_chromecasts n)); eexists; reflexivity.
Qed.

(** X17.  [get_device] with a name makes one scan and returns the first
    device of the scan whose name equals the given one up to case, having
    waited for it and for no other device; it returns [None], having waited
    for none, exactly when no device of the scan has that name; it never
    raises.  The names, the given one and those of the scan, are ASCII
    text, on which [casefold] is the folding of the letters [A] to [Z]. *)
Theorem get_device_first_name_match
    (get_chromecasts : nat -> list Chromecast) (name : string) (n : nat) :
  name <> "" ->
  is_ascii name = true ->
  (forall x, In x (get_chromecasts n) -> is_ascii (cc_name x) = true) ->
  scans (get_device get_chromecasts (Some name) n) = S n /\
  waited (get_device get_chromecasts (Some name) n)
    = waited_for (found (get_device get_chromecasts (Some name) n)) /\
  (forall d,
      found (get_device get_chromecasts (Some name) n) = Ok (Some d) <->
      exists before after,
        get_chromecasts n = (before ++ d :: after)%list /\
        casefold (cc_name d) = casefold name /\
        forall x, In x before -> casefold (cc_name x) <> casefold name) /\
  (found (get_device get_chromecasts (Some name) n) = Ok None <->
   forall x, In x (get_chromecasts n) -> casefold (cc_name x) <> casefold name) /\
  (forall e, found (get_device get_chromecasts (Some name) n) <> Raise e).
Proof.
  intros Hn _ _. unfold get_device, get_devices. cbn [truthy_opt].
  rewrite (truthy_str_of_nonempty name Hn). cbn [negb].
  set (test := fun d : Chromecast => (casefold (cc_name d) =? casefold name)%string).
  assert (Ht : forall x, test x = false <-> casefold (cc_name x) <> casefold name).
  { intros x. unfold test. apply String.eqb_neq. }
  unfold lookup_of. cbn [scans waited found].
  split; [reflexivity|]. split; [|split; [|split]].
  - destruct (first_match test (get_chromecasts n)); reflexivity.
  - intros d. split.
    + intros H. assert (Hm : first_match test (get_chromecasts n) = Some d)
        by congruence.
      apply first_match_some in Hm. destruct Hm as [before [after [Hl [Hd Hb]]]].
      exists before, after. split; [exact Hl|]. split.
      * apply String.eqb_eq. exact Hd.
      * intros x Hx. apply Ht. exact (Hb x Hx).
    + intros [before [after [Hl [Hd Hb]]]].
      assert (Hm : first_match test (get_chromecasts n) = Some d).
      { apply first_match_some. exists before, after. split; [exact Hl|]. split.
        - apply String.eqb_eq. exact Hd.
        - intros x Hx. apply Ht. exact (Hb x Hx). }
      rewrite Hm. reflexivity.
  - split.
    + intros H. assert (Hm : first_match test (get_chromecasts n) = None)
        by congruence.
      intros x Hx. apply Ht. exact (proj1 (first_match_none _ _) Hm x Hx).
    + intros H. assert (Hm : first_match test (get_chromecasts n) = None).
      { apply first_match_none. intros x Hx. apply Ht. exact (H x Hx). }
      rewrite Hm. reflexivity.
  - intros e. discriminate.
Qed.

Lemma two_devices_ascii (n : nat) (x : Chromecast) :
  In x (two_devices n) -> is_ascii (cc_name x) = true.
Proof. intros [<-|[<-|[]]]; reflexivity. Qed.

Lemma get_device_first_name_match_witness :
  found (get_device two_devices (Some "KITCHEN") 0) = Ok (Some kitchen) /\
  scans (get_device two_devices (Some "KITCHEN") 0) = 1%nat.
Proof.
  split.
  - apply (proj1 (proj2 (proj2 (get_device_first_name_match two_devices "KITCHEN" 0
                                  ltac:(discriminate) eq_refl
                                  (two_devices_ascii 0))))).
    exists [living_room], []. split; [reflexivity|]. split; [reflexivity|].
    intros x [<-|[]]. discriminate.
  - apply (proj1 (get_device_first_name_match two_devices "KITCHEN" 0
                    ltac:(discriminate) eq_refl (two_devices_ascii 0))).
Defined.

Section FindDevice.

Variable DEFAULT_NAME : string.
Variable UUID : string -> option Z.
Variable get_chromecasts : nat -> list Chromecast.
Variable get_chromecast_from_host : string -> string -> option Chromecast.

Lemma find_device_host_stage (name host : option string) (n : nat) :
  (if truthy_opt host
   then match host with
        | Some h => get_device_via_host DEFAULT_NAME get_chromecast_from_host h name n
        | None => {| found := Ok None; scans := n; waited := [] |}
        end
   else {| found := Ok None; scans := n; waited := [] |}) =
  lookup_of n (device_at_host DEFAULT_NAME get_chromecast_from_host name host).
Proof.
  unfold device_at_host, get_device_via_host, lookup_of.
  destruct host as [h|]; cbn [truthy_opt]; [|reflexivity].
  destruct (truthy_str h); [|reflexivity].
  destruct name as [x|]; cbn [truthy_opt].
  - destruct (truthy_str x);
      destruct (get_chromecast_from_host h _); reflexivity.
  - destruct (get_chromecast_from_host h DEFAULT_NAME); reflexivity.
Qed.

Lemma find_device_at_host (name host uuid : option string) (n : nat)
    (d : Chromecast) :
  device_at_host DEFAULT_NAME get_chromecast_from_host name host = Some d ->
  find_device DEFAULT_NAME UUID get_chromecasts get_chromecast_from_host
              name host uuid n
    = {| found := Ok (Some d); scans := n; waited := [d] |}.
Proof.
  intros H. unfold find_device. rewrite find_device_host_stage, H.
  assert (Hh : truthy_opt host = true).
  { unfold device_at_host in H. destruct host as [h|]; [|discriminate].
    cbn [truthy_opt]. destruct (truthy_str h); [reflexivity | discriminate]. }
  unfold lookup_of. cbn [found is_some negb scans waited].
  rewrite !andb_false_r. cbn [found is_some negb scans waited].
  rewrite Hh. reflexivity.
Qed.

Lemma get_device_via_uuid_parsed (u : string) (id : Z) (n : nat) :
  u <> "" -> UUID u = Some id ->
  get_device_via_uuid UUID get_chromecasts (Some u) n =
    lookup_of (S n)
      (first_match (fun x => eqb_uuid (cc_uuid x) id) (get_chromecasts n)).
Proof.
  intros Hu Hp. unfold get_device_via_uuid, get_devices. cbn [truthy_opt].
  rewrite (truthy_str_of_nonempty u Hu), Hp. reflexivity.
Qed.

Lemma find_device_after_host (name host uuid : option string) (n : nat) :
  device_at_host DEFAULT_NAME get_chromecast_from_host name host = None ->
  find_device DEFAULT_NAME UUID get_chromecasts get_chromecast_from_host
              name host uuid n =
    let l2 :=
      if truthy_opt uuid then get_device_via_uuid UUID get_chromecasts uuid n
      else lookup_of n None in
    match found l2 with
    | Raise e => l2
    | Ok _ =>
        let l3 :=
          if truthy_opt name && negb (is_some (found l2)) then
            let r := get_device get_chromecasts name (scans l2) in
            {| found := found r; scans := scans r;
               waited := (waited l2 ++ waited r)%list |}
          else l2 in
        if negb (truthy_opt host || truthy_opt name || truthy_opt uuid) then
          let r := get_device get_chromecasts None (scans l3) in
          {| found := found r; scans := scans r;
             waited := (waited l3 ++ waited r)%list |}
        else l3
    end.
Proof.
  intros H. unfold find_device. rewrite find_device_host_stage, H.
  unfold lookup_of. cbn [found is_some negb scans waited app].
  rewrite andb_true_r.
  destruct (truthy_opt uuid); [|reflexivity].
  destruct (get_device_via_uuid UUID get_chromecasts uuid n) as [f s w].
  reflexivity.
Qed.

End FindDevice.

(** X18.  A device that answers at the given host wins: [find_device]
    returns it, having waited for it, without any scan of the network and
    without parsing the unique id, so that a malformed id does not raise;
    the name is used only as the friendly name of the host, [DEFAULT_NAME]
    standing in for an absent or empty one. *)
Theorem find_device_prefers_host
    (DEFAULT_NAME : string) (UUID : string -> option Z)
    (get_chromecasts : nat -> list Chromecast)
    (get_chromecast_from_host : string -> string -> option Chromecast)
    (name uuid : option string) (h : string) (n : nat) (d : Chromecast) :
  h <> "" ->
  get_chromecast_from_host h
    (match name with
     | Some x => if truthy_str x then x else DEFAULT_NAME
     | None => DEFAULT_NAME
     end) = Some d ->
  find_device DEFAULT_NAME UUID get_chromecasts get_chromecast_from_host
              name (Some h) uuid n
    = {| found := Ok (Some d); scans := n; waited := [d] |}.
Proof.
  intros Hh Hd. apply find_device_at_host. unfold device_at_host.
  rewrite (truthy_str_of_nonempty h Hh). exact Hd.
Qed.

Lemma find_device_prefers_host_witness :
  find_device "Cast Control" two_ids two_devices kitchen_host
              (Some "Living Room") (Some "192.168.1.20") (Some "not-a-uuid") 0
    = {| found := Ok (Some kitchen); scans := 0; waited := [kitchen] |}.
Proof.
  apply (find_device_prefers_host "Cast Control" two_ids two_devices kitchen_host
           (Some "Living Room") (Some "not-a-uuid") "192.168.1.20" 0 kitchen
           ltac:(discriminate) eq_refl).
Defined.

(** X19.  When no device answers at a host, a unique id that is given
    decides before the name is looked at.  A malformed id makes
    [find_device] raise [ValueError], after one scan and whatever the name
    is; an id that parses and belongs to a device of the scan gives the first
    device with that id, after that one scan. *)
Theorem find_device_by_uuid
    (DEFAULT_NAME : string) (UUID : string -> option Z)
    (get_chromecasts : nat -> list Chromecast)
    (get_chromecast_from_host : string -> string -> option Chromecast)
    (name host : option string) (u : string) (n : nat) :
  device_at_host DEFAULT_NAME get_chromecast_from_host name host = None ->
  u <> "" ->
  (UUID u = None ->
   find_device DEFAULT_NAME UUID get_chromecasts get_chromecast_from_host
               name host (Some u) n
     = {| found := Raise ValueError; scans := S n; waited := [] |}) /\
  (forall id before d after,
      UUID u = Some id ->
      get_chromecasts n = (before ++ d :: after)%list ->
      cc_uuid d = id ->
      (forall x, In x before -> cc_uuid x <> id) ->
      find_device DEFAULT_NAME UUID get_chromecasts get_chromecast_from_host
                  name host (Some u) n
        = {| found := Ok (Some d); scans := S n; waited := [d] |}).
Proof.
  intros Hh Hu.
  assert (Ht : truthy_str u = true) by (apply truthy_str_of_nonempty; exact Hu).
  split.
  - intros Hp. rewrite (find_device_after_host _ _ _ _ _ _ _ _ Hh).
    cbn [truthy_opt]. rewrite Ht. cbn zeta.
    unfold get_device_via_uuid, get_devices. cbn [truthy_opt].
    rewrite Ht, Hp. reflexivity.
  - intros id before d after Hp Hl Hd Hb.
    assert (Hm : first_match (fun x => eqb_uuid (cc_uuid x) id) (get_chromecasts n)
                   = Some d).
    { apply first_match_some. exists before, after. split; [exact Hl|]. split.
      - unfold eqb_uuid. apply Z.eqb_eq. exact Hd.
      - intros x Hx. unfold eqb_uuid. apply Z.eqb_neq. exact (Hb x Hx). }
    rewrite (find_device_after_host _ _ _ _ _ _ _ _ Hh).
    cbn [truthy_opt]. rewrite Ht. cbn zeta.
    rewrite (get_device_via_uuid_parsed UUID get_chromecasts u id n Hu Hp), Hm.
    unfold lookup_of. cbn [found is_some negb scans waited].
    rewrite andb_false_r, !orb_true_r. reflexivity.
Qed.

Lemma find_device_by_uuid_witness :
  find_device "Cast Control" two_ids two_devices kitchen_host
              (Some "Living Room") None (Some "not-a-uuid") 0
    = {| found := Raise ValueError; scans := 1; waited := [] |} /\
  find_device "Cast Control" two_ids two_devices kitchen_host
              (Some "Living Room") None (Some "2") 0
    = {| found := Ok (Some kitchen); scans := 1; waited := [kitchen] |}.
Proof.
  split.
  - apply (proj1 (find_device_by_uuid "Cast Control" two_ids two_devices kitchen_host
                    (Some "Living Room") None "not-a-uuid" 0 eq_refl
                    ltac:(discriminate))).
    reflexivity.
  - apply (proj2 (find_device_by_uuid "Cast Control" two_ids two_devices kitchen_host
                    (Some "Living Room") None "2" 0 eq_refl ltac:(discriminate))
             2 [living_room] kitchen []); try reflexivity.
    intros x [<-|[]]. discriminate.
Defined.

(** X20.  The name is the last resort, and it is looked up in a scan of its
    own: when no device answers at a host and the unique id is absent, or
    parses and belongs to no device of its scan, [find_device] with a name
    returns what [get_device] finds for that name in the next scan. *)
Theorem find_device_falls_back_to_name
    (DEFAULT_NAME : string) (UUID : string -> option Z)
    (get_chromecasts : nat -> list Chromecast)
    (get_chromecast_from_host : string -> string -> option Chromecast)
    (name : string) (host uuid : option string) (n : nat) :
  name <> "" ->
  device_at_host DEFAULT_NAME get_chromecast_from_host (Some name) host = None ->
  (truthy_opt uuid = false ->
   find_device DEFAULT_NAME UUID get_chromecasts get_chromecast_from_host
               (Some name) host uuid n
     = get_device get_chromecasts (Some name) n) /\
  (forall u id,
      uuid = Some u -> u <> "" -> UUID u = Some id ->
      (forall x, In x (get_chromecasts n) -> cc_uuid x <> id) ->
      find_device DEFAULT_NAME UUID get_chromecasts get_chromecast_from_host
                  (Some name) host uuid n
        = get_device get_chromecasts (Some name) (S n)).
Proof.
  intros Hn Hh.
  assert (Ht : truthy_str name = true) by (apply truthy_str_of_nonempty; exact Hn).
  split.
  - intros Hu. rewrite (find_device_after_host _ _ _ _ _ _ _ _ Hh).
    rewrite Hu. cbn zeta. unfold lookup_of.
    cbn [found is_some negb scans waited app truthy_opt].
    rewrite Ht. cbn [andb]. rewrite orb_true_r. cbn [orb negb].
    destruct (get_device get_chromecasts (Some name) n) as [f s w].
    reflexivity.
  - intros u id -> Hu Hp Hx.
    assert (Hm : first_match (fun x => eqb_uuid (cc_uuid x) id) (get_chromecasts n)
                   = None).
    { apply first_match_none. intros x Hin. unfold eqb_uuid. apply Z.eqb_neq.
      exact (Hx x Hin). }
    rewrite (find_device_after_host _ _ _ _ _ _ _ _ Hh).
    cbn [truthy_opt]. rewrite (truthy_str_of_nonempty u Hu). cbn zeta.
    rewrite (get_device_via_uuid_parsed UUID get_chromecasts u id n Hu Hp), Hm.
    unfold lookup_of. cbn [found is_some negb scans waited app].
    rewrite Ht. cbn [andb]. rewrite !orb_true_r. cbn [orb negb].
    destruct (get_device get_chromecasts (Some name) (S n)) as [f s w].
    reflexivity.
Qed.

Lemma find_device_falls_back_to_name_witness :
  find_device "Cast Control" two_ids two_devices kitchen_host
              (Some "kitchen") (Some "192.168.1.99") None 0
    = get_device two_devices (Some "kitchen") 0 /\
  found (get_device two_devices (Some "kitchen") 0) = Ok (Some kitchen).
Proof.
  split; [|reflexivity].
  apply (proj1 (find_device_falls_back_to_name "Cast Control" two_ids two_devices
                  kitchen_host "kitchen" (Some "192.168.1.99") None 0
                  ltac:(discriminate) eq_refl)).
  reflexivity.
Defined.

Lemma get_device_waited (get_chromecasts : nat -> list Chromecast)
    (name : option string) (n : nat) :
  waited (get_device get_chromecasts name n)
    = waited_for (found (get_device get_chromecasts name n)) /\
  scans (get_device get_chromecasts name n) = S n.
Proof.
  unfold get_device, get_devices, get_first, lookup_of.
  destruct (negb (truthy_opt name)); [|destruct name].
  - destruct (get_chromecasts n); split; reflexivity.
  - destruct (first_match _ _); split; reflexivity.
  - destruct (get_chromecasts n); split; reflexivity.
Qed.

Lemma get_device_via_uuid_waited (UUID : string -> option Z)
    (get_chromecasts : nat -> list Chromecast) (uuid : option string) (n : nat) :
  waited (get_device_via_uuid UUID get_chromecasts uuid n)
    = waited_for (found (get_device_via_uuid UUID get_chromecasts uuid n)) /\
  scans (get_device_via_uuid UUID get_chromecasts uuid n) = S n /\
  (forall e, found (get_device_via_uuid UUID get_chromecasts uuid n) = Raise e ->
             e = ValueError /\ exists u, uuid = Some u /\ UUID u = None).
Proof.
  unfold get_device_via_uuid, get_devices, get_first, lookup_of.
  destruct (negb (truthy_opt uuid)); [|destruct uuid as [u|]].
  - destruct (get_chromecasts n); repeat split; discriminate.
  - destruct (UUID u) eqn:E.
    + destruct (first_match _ _); repeat split; discriminate.
    + split; [reflexivity|]. split; [reflexivity|].
      intros e He. cbn [found] in He. split; [congruence|].
      exists u. split; [reflexivity | exact E].
  - destruct (get_chromecasts n); repeat split; discriminate.
Qed.

(** X21.  Whatever the identifiers, [find_device] waits for the device it
    returns and for no other, scans the network at most twice, and raises
    nothing but the [ValueError] of a unique id that does not parse. *)
Theorem find_device_waits_for_result_only
    (DEFAULT_NAME : string) (UUID : string -> option Z)
    (get_chromecasts : nat -> list Chromecast)
    (get_chromecast_from_host : string -> string -> option Chromecast)
    (name host uuid : option string) (n : nat) :
  waited (find_device DEFAULT_NAME UUID get_chromecasts get_chromecast_from_host
                      name host uuid n)
    = waited_for
        (found (find_device DEFAULT_NAME UUID get_chromecasts
                            get_chromecast_from_host name host uuid n)) /\
  (n <= scans (find_device DEFAULT_NAME UUID get_chromecasts
                           get_chromecast_from_host name host uuid n) <= n + 2)%nat /\
  (forall e,
      found (find_device DEFAULT_NAME UUID get_chromecasts
                         get_chromecast_from_host name host uuid n) = Raise e ->
      e = ValueError /\ exists u, uuid = Some u /\ UUID u = None).
Proof.
  destruct (device_at_host DEFAULT_NAME get_chromecast_from_host name host)
    as [d|] eqn:Hh.
  - rewrite (find_device_at_host DEFAULT_NAME UUID get_chromecasts
               get_chromecast_from_host name host uuid n d Hh).
    cbn [found scans waited waited_for].
    split; [reflexivity|]. split; [lia|]. intros e He. discriminate.
  - rewrite (find_device_after_host DEFAULT_NAME UUID get_chromecasts
               get_chromecast_from_host name host uuid n Hh).
    cbn zeta.
    destruct (get_device_via_uuid_waited UUID get_chromecasts uuid n)
      as [Hw [Hs Hr]].
    destruct (truthy_opt uuid) eqn:Hu.
    + destruct (get_device_via_uuid UUID get_chromecasts uuid n) as [f s w].
      cbn [found scans waited] in *. subst s w.
      destruct f as [[x|]|e]; cbn [is_some negb waited_for app].
      * rewrite andb_false_r, !orb_true_r. cbn [negb found scans waited waited_for].
        split; [reflexivity|]. split; [lia|]. intros e He. discriminate.
      * rewrite andb_true_r, !orb_true_r. cbn [negb].
        destruct (truthy_opt name); cbn [found scans waited waited_for].
        -- destruct (get_device_waited get_chromecasts name (S n)) as [Hw' Hs'].
           destruct (get_device_found_ok get_chromecasts name (S n)) as [o Ho].
           cbn [found scans waited]. rewrite Hw', Hs'. split; [reflexivity|]. split; [lia|].
           intros e He. rewrite Ho in He. discriminate.
        -- split; [reflexivity|]. split; [lia|]. intros e He. discriminate.
      * cbn [found scans waited waited_for].
        split; [reflexivity|]. split; [lia|]. exact Hr.
    + unfold lookup_of. cbn [found is_some negb scans waited app].
      rewrite andb_true_r, orb_false_r.
      destruct (truthy_opt name); cbn [found scans waited].
      * rewrite orb_true_r. cbn [negb].
        destruct (get_device_waited get_chromecasts name n) as [Hw' Hs'].
        destruct (get_device_found_ok get_chromecasts name n) as [o Ho].
        cbn [found scans waited]. rewrite Hw', Hs'. split; [reflexivity|]. split; [lia|].
        intros e He. rewrite Ho in He. discriminate.
      * rewrite orb_false_r.
        destruct (get_device_waited get_chromecasts None n) as [Hw' Hs'].
        destruct (get_device_found_ok get_chromecasts None n) as [o Ho].
        destruct (truthy_opt host); cbn [negb found scans waited waited_for app].
        -- split; [reflexivity|]. split; [lia|]. intros e He. discriminate.
        -- cbn [found scans waited]. rewrite Hw', Hs'. split; [reflexivity|]. split; [lia|].
           intros e He. rewrite Ho in He. discriminate.
Qed.

Lemma find_device_waits_for_result_only_witness :
  waited (find_device "Cast Control" two_ids two_devices kitchen_host
                      (Some "Living Room") None (Some "not-a-uuid") 0) = [] /\
  exists u, Some "not-a-uuid" = Some u /\ two_ids u = None.
Proof.
  split.
  - apply (proj1 (find_device_waits_for_result_only "Cast Control" two_ids
                    two_devices kitchen_host (Some "Living Room") None
                    (Some "not-a-uuid") 0)).
  - apply (proj2 (proj2 (find_device_waits_for_result_only "Cast Control" two_ids
                           two_devices kitchen_host (Some "Living Room") None
                           (Some "not-a-uuid") 0)) ValueError eq_refl).
Defined.

(** X22.  With no identifier at all, an absent or empty text counting as
    none, [find_device] returns the first device of one scan, having waited
    for it, or [None] when the scan finds no device. *)
Theorem find_device_without_identifiers
    (DEFAULT_NAME : string) (UUID : string -> option Z)
    (get_chromecasts : nat -> list Chromecast)
    (get_chromecast_from_host : string -> string -> option Chromecast)
    (name host uuid : option string) (n : nat) :
  truthy_opt name = false -> truthy_opt host = false -> truthy_opt uuid = false ->
  find_device DEFAULT_NAME UUID get_chromecasts get_chromecast_from_host
              name host uuid n
    = match get_chromecasts n with
      | [] => {| found := Ok None; scans := S n; waited := [] |}
      | first :: _ => {| found := Ok (Some first); scans := S n; waited := [first] |}
      end.
Proof.
  intros Hn Hh Hu. unfold find_device. rewrite Hn, Hh, Hu.
  cbn [andb orb negb found scans waited app].
  unfold get_device, get_devices, get_first. cbn [truthy_opt negb].
  destruct (get_chromecasts n); reflexivity.
Qed.

Lemma find_device_without_identifiers_witness :
  find_device "Cast Control" two_ids two_devices kitchen_host None (Some "") None 0
    = {| found := Ok (Some living_room); scans := 1; waited := [living_room] |}.
Proof.
  apply (find_device_without_identifiers "Cast Control" two_ids two_devices
           kitchen_host None (Some "") None 0 eq_refl eq_refl eq_refl).
Defined.

(** X23.  The earlier locator, [get_chromecast] of [chromecast_mpris], makes
    one scan.  Without a name, an empty one included, it returns the first
    device of the scan, having waited for it, or [None] when the scan finds
    none.  With a name it returns the first device of the scan whose name
    equals the given one up to case, having waited for it and for no other,
    and [None] exactly when no device of the scan has that name.  The names
    are ASCII text, on which [lower] is the folding of the letters [A] to
    [Z]. *)
Theorem get_chromecast_first_name_match
    (get_chromecasts : nat -> list Chromecast) (name : option string) (n : nat) :
  (truthy_opt name = false ->
   get_chromecast get_chromecasts name n =
     match get_chromecasts n with
     | [] => {| found := Ok None; scans := S n; waited := [] |}
     | first :: _ => {| found := Ok (Some first); scans := S n; waited := [first] |}
     end) /\
  (forall x,
      name = Some x -> x <> "" -> is_ascii x = true ->
      (forall c, In c (get_chromecasts n) -> is_ascii (cc_name c) = true) ->
      scans (get_chromecast get_chromecasts name n) = S n /\
      waited (get_chromecast get_chromecasts name n)
        = waited_for (found (get_chromecast get_chromecasts name n)) /\
      (forall d,
          found (get_chromecast get_chromecasts name n) = Ok (Some d) <->
          exists before after,
            get_chromecasts n = (before ++ d :: after)%list /\
            lower (cc_name d) = lower x /\
            forall c, In c before -> lower (cc_name c) <> lower x) /\
      (found (get_chromecast get_chromecasts name n) = Ok None <->
       forall c, In c (get_chromecasts n) -> lower (cc_name c) <> lower x)).
Proof.
  split.
  - intros Hn. unfold get_chromecast. rewrite Hn. cbn [negb].
    destruct (get_chromecasts n); reflexivity.
  - intros x -> Hx _ _. unfold get_chromecast. cbn [truthy_opt].
    rewrite (truthy_str_of_nonempty x Hx). cbn [negb].
    set (test := fun c : Chromecast => (lower (cc_name c) =? lower x)%string).
    assert (Ht : forall c, test c = false <-> lower (cc_name c) <> lower x).
    { intros c. unfold test. apply String.eqb_neq. }
    unfold lookup_of. cbn [scans waited found].
    split; [reflexivity|]. split; [|split].
    + destruct (first_match test (get_chromecasts n)); reflexivity.
    + intros d. split.
      * intros H.
        assert (Hm : first_match test (get_chromecasts n) = Some d) by congruence.
        apply first_match_some in Hm. destruct Hm as [before [after [Hl [Hd Hb]]]].
        exists before, after. split; [exact Hl|]. split.
        -- apply String.eqb_eq. exact Hd.
        -- intros c Hc. apply Ht. exact (Hb c Hc).
      * intros [before [after [Hl [Hd Hb]]]].
        rewrite (proj2 (first_match_some test (get_chromecasts n) d));
          [reflexivity|].
        exists before, after. split; [exact Hl|]. split.
        -- apply String.eqb_eq. exact Hd.
        -- intros c Hc. apply Ht. exact (Hb c Hc).
    + split.
      * intros H c Hc. apply Ht.
        apply (proj1 (first_match_none test (get_chromecasts n))); [congruence|].
        exact Hc.
      * intros H.
        rewrite (proj2 (first_match_none test (get_chromecasts n))); [reflexivity|].
        intros c Hc. apply Ht. exact (H c Hc).
Qed.

Lemma get_chromecast_first_name_match_witness :
  get_chromecast two_devices (Some "") 0
    = {| found := Ok (Some living_room); scans := 1; waited := [living_room] |} /\
  found (get_chromecast two_devices (Some "kitchen") 0) = Ok (Some kitchen).
Proof.
  split.
  - apply (proj1 (get_chromecast_first_name_match two_devices (Some "") 0) eq_refl).
  - apply (proj1 (proj2 (proj2 (proj2 (get_chromecast_first_name_match two_devices
                                          (Some "kitchen") 0)
                                      "kitchen" eq_refl ltac:(discriminate) eq_refl
                                      (two_devices_ascii 0))))).
    exists [living_room], []. split; [reflexivity|]. split; [reflexivity|].
    intros c [<-|[]]. discriminate.
Defined.
